(** * bark-secure-proxy: the dispatch core

    A shallow embedding of the device registry ([internal/service/device_service.go]),
    the dispatch engine ([internal/service/notice_service.go]), the log query
    engine ([internal/service/notice_log_service.go]), the crypto helpers
    ([internal/crypto/aes.go]) and the Bolt-backed store
    ([internal/storage/bolt/bolt.go]), followed by the properties of the
    specification that concern them.

    Conventions of the embedding.
    - A Go [string] is a Rocq [string]: a sequence of bytes; [len(s)] is
      [String.length].  A [[]byte] is a [list Z] of values in [0, 255].
    - A Go [int] is a [Z]; where the code does arithmetic on values that come
      from a request, the 64-bit wrap-around is written out ([GoInt]).
    - An [error] is a value of type [error]; a function returning
      [(T, error)] returns a [result T].
    - State is passed explicitly: the store, the random source read by
      [crypto/rand], the wall clock read by [time.Now].
    - The [context.Context] handed to every call is taken to be live: its
      cancellation is a real-time event and is not part of the embedding.
    - The store keeps JSON documents; the embedding keeps the decoded records
      (the codec is taken to round-trip the records it wrote).  A write fails
      where bbolt refuses the key; failures of the disk are not modelled.
    - Functions of the Go distribution that the code calls ([strings],
      [unicode/utf8], [encoding/json], [encoding/base64], [crypto/aes],
      [crypto/cipher]) are written out after their documentation; the
      Unicode case tables, the upstream service, the random source and the
      clock are parameters. *)

From Stdlib Require Import ZArith List String Ascii Bool Lia Permutation.
From Stdlib Require Import DecimalString Sorted.
Import ListNotations.

Open Scope string_scope.
Open Scope list_scope.
Open Scope Z_scope.

Set Implicit Arguments.

(* ===================================================================== *)
(** * Part I: the embedding                                               *)
(* ===================================================================== *)

(** ** Errors and results *)

(** Go errors are compared by identity against the sentinel
    [storage.ErrNotFound] and otherwise only rendered with [Error()]. *)
Inductive error : Type :=
| ErrNotFound                       (* storage.ErrNotFound *)
| ErrorString (msg : string).       (* errors.New / fmt.Errorf *)

Definition error_Error (e : error) : string :=
  match e with
  | ErrNotFound => "not found"
  | ErrorString msg => msg
  end.

Definition error_eqb (a b : error) : bool :=
  match a, b with
  | ErrNotFound, ErrNotFound => true
  | ErrorString x, ErrorString y => String.eqb x y
  | _, _ => false
  end.

Inductive result (A : Type) : Type :=
| Ok (a : A)
| Err (e : error).
Arguments Ok {A} a.
Arguments Err {A} e.

Definition bind {A B} (r : result A) (k : A -> result B) : result B :=
  match r with
  | Ok a => k a
  | Err e => Err e
  end.

Notation "x <- r ;; k" := (bind r (fun x => k))
  (at level 61, r at next level, right associativity).

(** ** Machine integers *)

Module GoInt.
(** [int] on the build target (GOARCH=amd64): 64-bit two's complement. *)
Definition bits : Z := 64.
Definition MaxInt : Z := 2 ^ 63 - 1.
Definition MinInt : Z := - 2 ^ 63.
Definition wrap (z : Z) : Z := (z + 2 ^ 63) mod 2 ^ 64 - 2 ^ 63.
Definition add (a b : Z) : Z := wrap (a + b).
Definition sub (a b : Z) : Z := wrap (a - b).
Definition mul (a b : Z) : Z := wrap (a * b).
(** [/] truncates toward zero; the divisor is never 0 where it is used. *)
Definition div (a b : Z) : Z := wrap (Z.quot a b).
Definition in_range (z : Z) : Prop := MinInt <= z <= MaxInt.
(** [strconv.Itoa] *)
Definition Itoa (z : Z) : string := NilZero.string_of_int (Z.to_int z).
End GoInt.

(** ** Bytes and strings *)

Definition Z_of_ascii (c : ascii) : Z := Z.of_N (N_of_ascii c).
Definition ascii_of_Z (z : Z) : ascii := ascii_of_N (Z.to_N (z mod 256)).

(** [[]byte(s)] and [string(b)] *)
Definition bytes_of_string (s : string) : list Z :=
  map Z_of_ascii (list_ascii_of_string s).
Definition string_of_bytes (b : list Z) : string :=
  string_of_list_ascii (map ascii_of_Z b).

Definition len (s : string) : Z := Z.of_nat (String.length s).

(** [unicode/utf8] *)
Module utf8.
Definition RuneError : Z := 65533.   (* U+FFFD *)
Definition RuneSelf : Z := 128.
Definition MaxRune : Z := 1114111.   (* U+10FFFF *)
Definition UTFMax : nat := 4.

Definition between (lo hi b : Z) : bool := (lo <=? b) && (b <=? hi).
Definition cont (b : Z) : bool := between 128 191 b.

(** [utf8.DecodeRune]: the first rune of [p] and its width in bytes;
    [(RuneError, 0)] on empty input, [(RuneError, 1)] on an invalid or
    truncated encoding. *)
Definition DecodeRune (p : list Z) : Z * nat :=
  match p with
  | [] => (RuneError, 0%nat)
  | s0 :: rest =>
    if s0 <? 128 then (s0, 1%nat)
    else if between 194 223 s0 then
      match rest with
      | s1 :: _ =>
        if cont s1 then (Z.lor (Z.shiftl (Z.land s0 31) 6) (Z.land s1 63), 2%nat)
        else (RuneError, 1%nat)
      | _ => (RuneError, 1%nat)
      end
    else if between 224 239 s0 then
      let lo := if s0 =? 224 then 160 else 128 in
      let hi := if s0 =? 237 then 159 else 191 in
      match rest with
      | s1 :: s2 :: _ =>
        if between lo hi s1 && cont s2 then
          (Z.lor (Z.lor (Z.shiftl (Z.land s0 15) 12) (Z.shiftl (Z.land s1 63) 6))
                 (Z.land s2 63), 3%nat)
        else (RuneError, 1%nat)
      | _ => (RuneError, 1%nat)
      end
    else if between 240 244 s0 then
      let lo := if s0 =? 240 then 144 else 128 in
      let hi := if s0 =? 244 then 143 else 191 in
      match rest with
      | s1 :: s2 :: s3 :: _ =>
        if between lo hi s1 && cont s2 && cont s3 then
          (Z.lor (Z.lor (Z.lor (Z.shiftl (Z.land s0 7) 18) (Z.shiftl (Z.land s1 63) 12))
                        (Z.shiftl (Z.land s2 63) 6))
                 (Z.land s3 63), 4%nat)
        else (RuneError, 1%nat)
      | _ => (RuneError, 1%nat)
      end
    else (RuneError, 1%nat)
  end.

(** [utf8.RuneStart] *)
Definition RuneStart (b : Z) : bool := negb (Z.land b 192 =? 128).

(** The index from which [DecodeLastRune] decodes: it walks back from
    [start] over at most [n] continuation bytes, never below [lim]. *)
Fixpoint back_to_start (p : list Z) (lim : nat) (n : nat) (start : nat) : nat :=
  match n with
  | O => start
  | S n' =>
    if (start <=? lim)%nat then start
    else
      let start' := (start - 1)%nat in
      if RuneStart (nth start' p 0) then start'
      else back_to_start p lim n' start'
  end.

(** [utf8.DecodeLastRune] *)
Definition DecodeLastRune (p : list Z) : Z * nat :=
  let e := List.length p in
  match e with
  | O => (RuneError, 0%nat)
  | S start =>
    let r := nth start p 0 in
    if r <? RuneSelf then (r, 1%nat)
    else
      let lim := (e - UTFMax)%nat in
      let start' := back_to_start p lim 3 start in
      let '(r', size) := DecodeRune (skipn start' p) in
      if (start' + size =? e)%nat then (r', size) else (RuneError, 1%nat)
  end.

(** [utf8.AppendRune] / [utf8.EncodeRune] *)
Definition EncodeRune (r : Z) : list Z :=
  let enc3 (x : Z) :=
    [Z.lor 224 (Z.shiftr x 12);
     Z.lor 128 (Z.land (Z.shiftr x 6) 63);
     Z.lor 128 (Z.land x 63)] in
  if between 0 127 r then [r]
  else if between 128 2047 r then
    [Z.lor 192 (Z.shiftr r 6); Z.lor 128 (Z.land r 63)]
  else if (r <? 0) || (MaxRune <? r) || between 55296 57343 r then enc3 RuneError
  else if r <=? 65535 then enc3 r
  else [Z.lor 240 (Z.shiftr r 18);
        Z.lor 128 (Z.land (Z.shiftr r 12) 63);
        Z.lor 128 (Z.land (Z.shiftr r 6) 63);
        Z.lor 128 (Z.land r 63)].

(** The runes a [for _, c := range s] loop yields. *)
Fixpoint runes_fuel (fuel : nat) (p : list Z) : list Z :=
  match fuel with
  | O => []
  | S f =>
    match p with
    | [] => []
    | _ => let '(r, size) := DecodeRune p in r :: runes_fuel f (skipn size p)
    end
  end.
Definition runes (p : list Z) : list Z := runes_fuel (List.length p) p.
End utf8.

(** [unicode] *)
Module unicode.
(** [unicode.IsSpace]: the Latin-1 spaces and the White_Space property. *)
Definition IsSpace (r : Z) : bool :=
  utf8.between 9 13 r || (r =? 32) || (r =? 133) || (r =? 160)
  || (r =? 5760) || utf8.between 8192 8202 r || (r =? 8232) || (r =? 8233)
  || (r =? 8239) || (r =? 8287) || (r =? 12288).

(** The case tables of the Unicode database are data of the Go
    distribution, not of this repository: [upperCase r] is the upper case
    of a rune above U+007F. *)
Class CaseTables := { upperCase : Z -> Z }.

(** [unicode.ToUpper] *)
Definition ToUpper {tables : CaseTables} (r : Z) : Z :=
  if r <=? 127 then
    (if utf8.between 97 122 r then r - 32 else r)
  else upperCase r.
End unicode.

(** [strings] *)
Module strings.
(** [strings.TrimLeftFunc(s, unicode.IsSpace)] on bytes *)
Fixpoint trimLeft_fuel (fuel : nat) (p : list Z) : list Z :=
  match fuel with
  | O => p
  | S f =>
    match p with
    | [] => []
    | _ =>
      let '(r, size) := utf8.DecodeRune p in
      if unicode.IsSpace r then trimLeft_fuel f (skipn size p) else p
    end
  end.
Definition trimLeft (p : list Z) : list Z := trimLeft_fuel (List.length p) p.

(** [lastIndexFunc(s, unicode.IsSpace, false)]: the index of the last rune
    that is not a space, scanning [p[0:i]] backwards. *)
Fixpoint lastIndexNotSpace (fuel : nat) (p : list Z) (i : nat) : option nat :=
  match fuel with
  | O => None
  | S f =>
    match i with
    | O => None
    | _ =>
      let '(r, size) := utf8.DecodeLastRune (firstn i p) in
      let i' := (i - size)%nat in
      if unicode.IsSpace r then lastIndexNotSpace f p i' else Some i'
    end
  end.

(** [strings.TrimRightFunc(s, unicode.IsSpace)] on bytes *)
Definition trimRight (p : list Z) : list Z :=
  match lastIndexNotSpace (List.length p) p (List.length p) with
  | None => []
  | Some i =>
    if utf8.RuneSelf <=? nth i p 0 then
      let '(_, wid) := utf8.DecodeRune (skipn i p) in firstn (i + wid) p
    else firstn (i + 1) p
  end.

(** [strings.TrimSpace]: leading and trailing white space, as defined by
    Unicode, removed. *)
Definition TrimSpace (s : string) : string :=
  string_of_bytes (trimRight (trimLeft (bytes_of_string s))).

Definition isASCII (p : list Z) : bool := forallb (fun c => c <? utf8.RuneSelf) p.

(** [strings.Map(unicode.ToUpper, s)] *)
Definition MapToUpper {tables : unicode.CaseTables} (p : list Z) : list Z :=
  flat_map (fun c => let r := unicode.ToUpper c in
                     if 0 <=? r then utf8.EncodeRune r else [])
           (utf8.runes p).

(** [strings.ToUpper]: byte-wise on ASCII-only input, rune-wise otherwise. *)
Definition ToUpper {tables : unicode.CaseTables} (s : string) : string :=
  let p := bytes_of_string s in
  if isASCII p then
    string_of_bytes (map (fun c => if utf8.between 97 122 c then c - 32 else c) p)
  else string_of_bytes (MapToUpper p).
End strings.

(** ** [internal/crypto] *)

(** [crypto/aes]: the block cipher of FIPS-197.  It belongs to the Go
    distribution; it is written out so that [EncryptToBase64] computes. *)
Module aes.
Definition BlockSize : Z := 16.

Definition xtime (b : Z) : Z :=
  Z.land (Z.lxor (Z.shiftl b 1) (if Z.testbit b 7 then 27 else 0)) 255.

(** Multiplication in GF(2^8) modulo x^8 + x^4 + x^3 + x + 1. *)
Fixpoint gmul_fuel (n : nat) (a b : Z) : Z :=
  match n with
  | O => 0
  | S n' => Z.lxor (if Z.odd b then a else 0) (gmul_fuel n' (xtime a) (Z.shiftr b 1))
  end.
Definition gmul : Z -> Z -> Z := gmul_fuel 8.

Fixpoint gpow (a : Z) (n : nat) : Z :=
  match n with
  | O => 1
  | S n' => gmul a (gpow a n')
  end.

Definition rotl8 (b : Z) (n : Z) : Z :=
  Z.land (Z.lor (Z.shiftl b n) (Z.shiftr b (8 - n))) 255.

Definition sbox_calc (b : Z) : Z :=
  let i := gpow b 254 in
  Z.lxor (Z.lxor (Z.lxor (Z.lxor (Z.lxor i (rotl8 i 1)) (rotl8 i 2)) (rotl8 i 3)) (rotl8 i 4)) 99.

Definition sbox0 : list Z :=
  Eval vm_compute in map (fun n => sbox_calc (Z.of_nat n)) (seq 0 256).

Definition sbox (b : Z) : Z := nth (Z.to_nat b) sbox0 0.

Definition xor_bytes (a b : list Z) : list Z := map (fun '(x, y) => Z.lxor x y) (combine a b).

Definition SubWord (w : list Z) : list Z := map sbox w.
Definition RotWord (w : list Z) : list Z :=
  match w with
  | a :: rest => rest ++ [a]
  | [] => []
  end.
Definition Rcon (j : nat) : list Z := [gpow 2 (j - 1); 0; 0; 0].

(** Key expansion: [w] holds the words computed so far, most recent last. *)
Fixpoint expand (Nk : nat) (count : nat) (w : list (list Z)) : list (list Z) :=
  match count with
  | O => w
  | S count' =>
    let i := List.length w in
    let temp := nth (i - 1) w [] in
    let temp' :=
      if (i mod Nk =? 0)%nat then xor_bytes (SubWord (RotWord temp)) (Rcon (i / Nk))
      else if ((6 <? Nk) && (i mod Nk =? 4))%nat then SubWord temp
      else temp in
    expand Nk count' (w ++ [xor_bytes (nth (i - Nk) w []) temp'])
  end.

Fixpoint chunks (fuel : nat) (n : nat) (p : list Z) : list (list Z) :=
  match fuel with
  | O => []
  | S f =>
    match p with
    | [] => []
    | _ => firstn n p :: chunks f n (skipn n p)
    end
  end.

(** The round keys of a cipher: [Nr + 1] blocks of 16 bytes. *)
Definition expandKey (key : list Z) : list (list Z) :=
  let Nk := (List.length key / 4)%nat in
  let words := expand Nk (4 * (Nk + 7) - Nk) (chunks Nk 4 key) in
  map (@List.concat Z) (map (fun i => firstn 4 (skipn (4 * i) words)) (seq 0 (Nk + 7))).

Definition SubBytes (st : list Z) : list Z := map sbox st.

Definition ShiftRows (st : list Z) : list Z :=
  map (fun i => nth ((i mod 4) + 4 * (((i / 4) + (i mod 4)) mod 4))%nat st 0) (seq 0 16).

Definition mixColumn (c : list Z) : list Z :=
  match c with
  | [a0; a1; a2; a3] =>
    [Z.lxor (Z.lxor (gmul 2 a0) (gmul 3 a1)) (Z.lxor a2 a3);
     Z.lxor (Z.lxor a0 (gmul 2 a1)) (Z.lxor (gmul 3 a2) a3);
     Z.lxor (Z.lxor a0 a1) (Z.lxor (gmul 2 a2) (gmul 3 a3));
     Z.lxor (Z.lxor (gmul 3 a0) a1) (Z.lxor a2 (gmul 2 a3))]
  | _ => c
  end.

Definition MixColumns (st : list Z) : list Z := List.concat (map mixColumn (chunks 4 4 st)).

Fixpoint rounds (st : list Z) (keys : list (list Z)) : list Z :=
  match keys with
  | [] => st
  | [k] => xor_bytes (ShiftRows (SubBytes st)) k
  | k :: ks => rounds (xor_bytes (MixColumns (ShiftRows (SubBytes st))) k) ks
  end.

(** [Block.Encrypt]: one 16-byte block under the expanded key. *)
Definition encryptBlock (keys : list (list Z)) (src : list Z) : list Z :=
  match keys with
  | [] => src
  | k0 :: ks => rounds (xor_bytes src k0) ks
  end.

(** [aes.KeySizeError.Error] *)
Definition KeySizeError (k : Z) : error :=
  ErrorString ("crypto/aes: invalid key size " ++ GoInt.Itoa k)%string.

(** [aes.NewCipher]: the expanded key, or [KeySizeError]. *)
Definition NewCipher (key : list Z) : result (list (list Z)) :=
  let k := Z.of_nat (List.length key) in
  if (k =? 16) || (k =? 24) || (k =? 32) then Ok (expandKey key)
  else Err (KeySizeError k).
End aes.

(** [crypto/cipher]: CBC encryption. *)
Module cipher.
(** [CryptBlocks] of a CBC encrypter: each block is xored with the previous
    ciphertext block (the iv for the first) and encrypted. *)
Fixpoint cbc (enc : list Z -> list Z) (prev : list Z) (blocks : list (list Z)) : list Z :=
  match blocks with
  | [] => []
  | b :: bs => let c := enc (aes.xor_bytes b prev) in c ++ cbc enc c bs
  end.

Definition CryptBlocks (keys : list (list Z)) (iv : list Z) (src : list Z) : list Z :=
  cbc (aes.encryptBlock keys) iv (aes.chunks (List.length src) 16 src).
End cipher.

(** [encoding/base64] *)
Module base64.
Definition encodeStd : string :=
  "ABCDEFGHIJKLMNOPQRSTUVWXYZabcdefghijklmnopqrstuvwxyz0123456789+/".

Definition digit (v : Z) : ascii :=
  match String.get (Z.to_nat v) encodeStd with
  | Some c => c
  | None => "="%char
  end.

(** [StdEncoding.EncodeToString]: three bytes to four digits, [=] padded. *)
Fixpoint encode (fuel : nat) (src : list Z) : string :=
  match fuel with
  | O => ""
  | S f =>
    match src with
    | [] => ""
    | [a] =>
      String (digit (Z.shiftr a 2))
        (String (digit (Z.shiftl (Z.land a 3) 4)) "==")
    | [a; b] =>
      String (digit (Z.shiftr a 2))
        (String (digit (Z.lor (Z.shiftl (Z.land a 3) 4) (Z.shiftr b 4)))
           (String (digit (Z.shiftl (Z.land b 15) 2)) "="))
    | a :: b :: c :: rest =>
      String (digit (Z.shiftr a 2))
        (String (digit (Z.lor (Z.shiftl (Z.land a 3) 4) (Z.shiftr b 4)))
           (String (digit (Z.lor (Z.shiftl (Z.land b 15) 2) (Z.shiftr c 6)))
              (String (digit (Z.land c 63)) (encode f rest))))
    end
  end.

Definition EncodeToString (src : list Z) : string := encode (List.length src) src.
End base64.

Module crypto.
(** [var letters] *)
Definition letters : string :=
  "abcdefghijklmnopqrstuvwxyzABCDEFGHIJKLMNOPQRSTUVWXYZ0123456789!@#$%^&*()-_=+[]{}|;:,.<>?".

Definition letter (i : Z) : ascii :=
  match String.get (Z.to_nat i) letters with
  | Some c => c
  | None => "a"%char
  end.

(** [GenerateString]: [n] bytes are read from the random source [rnd]
    ([io.ReadFull(rand.Reader, buf)] fails when the source runs dry) and
    mapped onto [letters].  Returns the string and the rest of the source. *)
Definition GenerateString (n : Z) (rnd : list Z) : result string * list Z :=
  if n <=? 0 then (Err (ErrorString "length must be positive"), rnd)
  else
    let k := Z.to_nat n in
    if (List.length rnd <? k)%nat then (Err (ErrorString "unexpected EOF"), [])
    else
      let buf := firstn k rnd in
      (Ok (string_of_list_ascii (map (fun b => letter (b mod len letters)) buf)),
       skipn k rnd).

(** [bytesRepeat] *)
Definition bytesRepeat (b : Z) (count : Z) : list Z := repeat b (Z.to_nat count).

(** [pkcs7Pad] *)
Definition pkcs7Pad (data : list Z) (blockSize : Z) : list Z :=
  let padding := blockSize - Z.of_nat (List.length data) mod blockSize in
  let padtext := bytesRepeat (padding mod 256) padding in
  data ++ padtext.

(** [EncryptToBase64] *)
Definition EncryptToBase64 (plaintext key iv : list Z) : result string :=
  block <- aes.NewCipher key ;;
  let lk := Z.of_nat (List.length key) in
  if negb (lk =? 16) && negb (lk =? 24) && negb (lk =? 32) then
    Err (ErrorString "key must be 16, 24 or 32 bytes")
  else if negb (Z.of_nat (List.length iv) =? aes.BlockSize) then
    Err (ErrorString "iv must be 16 bytes")
  else
    let plaintext := pkcs7Pad plaintext aes.BlockSize in
    let ciphertext := cipher.CryptBlocks block iv plaintext in
    Ok (base64.EncodeToString ciphertext).
End crypto.

(** ** [internal/model] *)

Module model.
(** A [time.Time] is an instant, counted in nanoseconds from the zero
    value of the type; [IsZero] recognises that value. *)
Definition Time : Type := Z.
Definition IsZero (t : Time) : bool := t =? 0.

Definition DeviceStatusActive : string := "ACTIVE".
Definition DeviceStatusStop : string := "STOP".

Module Device.
Record t : Type := mk {
  DeviceToken : string;
  DeviceKey : string;
  Name : string;
  Algorithm : string;
  Mode : string;
  Padding : string;
  EncodeKey : string;
  IV : string;
  Status : string;
  CreatedAt : Time;
  UpdatedAt : Time
}.

(** [&model.Device{DeviceToken: token}] *)
Definition new (token : string) : t := mk token "" "" "" "" "" "" "" "" 0 0.

(** Field assignments [device.F = v]. *)
Definition set_DeviceKey (d : t) (v : string) : t :=
  mk (DeviceToken d) v (Name d) (Algorithm d) (Mode d) (Padding d) (EncodeKey d)
     (IV d) (Status d) (CreatedAt d) (UpdatedAt d).
Definition set_Name (d : t) (v : string) : t :=
  mk (DeviceToken d) (DeviceKey d) v (Algorithm d) (Mode d) (Padding d) (EncodeKey d)
     (IV d) (Status d) (CreatedAt d) (UpdatedAt d).
Definition set_Algorithm (d : t) (v : string) : t :=
  mk (DeviceToken d) (DeviceKey d) (Name d) v (Mode d) (Padding d) (EncodeKey d)
     (IV d) (Status d) (CreatedAt d) (UpdatedAt d).
Definition set_Mode (d : t) (v : string) : t :=
  mk (DeviceToken d) (DeviceKey d) (Name d) (Algorithm d) v (Padding d) (EncodeKey d)
     (IV d) (Status d) (CreatedAt d) (UpdatedAt d).
Definition set_Padding (d : t) (v : string) : t :=
  mk (DeviceToken d) (DeviceKey d) (Name d) (Algorithm d) (Mode d) v (EncodeKey d)
     (IV d) (Status d) (CreatedAt d) (UpdatedAt d).
Definition set_EncodeKey (d : t) (v : string) : t :=
  mk (DeviceToken d) (DeviceKey d) (Name d) (Algorithm d) (Mode d) (Padding d) v
     (IV d) (Status d) (CreatedAt d) (UpdatedAt d).
Definition set_IV (d : t) (v : string) : t :=
  mk (DeviceToken d) (DeviceKey d) (Name d) (Algorithm d) (Mode d) (Padding d)
     (EncodeKey d) v (Status d) (CreatedAt d) (UpdatedAt d).
Definition set_Status (d : t) (v : string) : t :=
  mk (DeviceToken d) (DeviceKey d) (Name d) (Algorithm d) (Mode d) (Padding d)
     (EncodeKey d) (IV d) v (CreatedAt d) (UpdatedAt d).
Definition set_CreatedAt (d : t) (v : Time) : t :=
  mk (DeviceToken d) (DeviceKey d) (Name d) (Algorithm d) (Mode d) (Padding d)
     (EncodeKey d) (IV d) (Status d) v (UpdatedAt d).
Definition set_UpdatedAt (d : t) (v : Time) : t :=
  mk (DeviceToken d) (DeviceKey d) (Name d) (Algorithm d) (Mode d) (Padding d)
     (EncodeKey d) (IV d) (Status d) (CreatedAt d) v.
End Device.

Module NoticeRequest.
Record t : Type := mk {
  Title : string;
  Subtitle : string;
  Body : string;
  Group : string;
  Url : string;
  Icon : string;
  Image : string;
  DeviceKeys : list string
}.
End NoticeRequest.

Module NoticeResult.
Record t : Type := mk {
  DeviceKey : string;
  Status : string;
  Message : string
}.
End NoticeResult.

(** Modelled from the spec: the declaration of [model.NoticeSummary] is not
    among the sources; it is the summary [{sendNum, successNum}] that
    [Broadcast] fills in and the caller-facing contract names. *)
Module NoticeSummary.
Record t : Type := mk {
  SendNum : Z;
  SuccessNum : Z
}.
(** [model.NoticeSummary{}] *)
Definition zero : t := mk 0 0.
End NoticeSummary.

Module NoticeLog.
Record t : Type := mk {
  ID : Z;
  DeviceKey : string;
  URL : string;
  Title : string;
  Body : string;
  Group : string;
  Result : string;
  Status : string;
  CreatedAt : Time;
  UpdatedAt : Time
}.
Definition set_ID (l : t) (v : Z) : t :=
  mk v (DeviceKey l) (URL l) (Title l) (Body l) (Group l) (Result l) (Status l)
     (CreatedAt l) (UpdatedAt l).
Definition set_CreatedAt (l : t) (v : Time) : t :=
  mk (ID l) (DeviceKey l) (URL l) (Title l) (Body l) (Group l) (Result l) (Status l)
     v (UpdatedAt l).
Definition set_UpdatedAt (l : t) (v : Time) : t :=
  mk (ID l) (DeviceKey l) (URL l) (Title l) (Body l) (Group l) (Result l) (Status l)
     (CreatedAt l) v.
End NoticeLog.

Module NoticeLogFilter.
Record t : Type := mk {
  DeviceKey : string;
  Group : string;
  Status : string;
  BeginTime : option Time;
  EndTime : option Time;
  Page : Z;
  PageSize : Z
}.
End NoticeLogFilter.

Module NoticeLogPage.
Record t : Type := mk {
  Data : list NoticeLog.t;
  Total : Z;
  Pages : Z;
  PageNum : Z;
  PageSize : Z
}.
End NoticeLogPage.

(** [model.DeviceView]: a device as shown to clients, sensitive fields
    masked. *)
Module DeviceView.
Record t : Type := mk {
  DeviceToken : string;
  Name : string;
  DeviceKey : string;
  Algorithm : string;
  Mode : string;
  Padding : string;
  EncodeKey : string;
  IV : string;
  Status : string
}.
End DeviceView.
End model.
Import model.

(** ** [internal/config] *)

Module config.
(** The [Crypto] section of [Config]; the other sections configure the
    HTTP layer. *)
Record Config : Type := mk {
  DefaultAlgorithm : string;
  DefaultMode : string;
  DefaultPadding : string;
  KeyBytes : Z;
  IVBytes : Z
}.

(** [setDefaults] *)
Definition defaults : Config := mk "AES" "CBC" "PKCS7Padding" 32 16.
End config.

(** ** [internal/storage/bolt] *)

Module bolt.
(** A bbolt bucket: key/value pairs kept in ascending byte order of the
    keys; [ForEach] visits them in that order. *)
Definition bucket (V : Type) : Type := list (string * V).

Definition MaxKeySize : Z := 32768.

(** [Bucket.Put]: insert, or replace the value of an existing key. *)
Fixpoint insert {V : Type} (k : string) (v : V) (b : bucket V) : bucket V :=
  match b with
  | [] => [(k, v)]
  | (k', v') :: rest =>
    match String.compare k k' with
    | Lt => (k, v) :: b
    | Eq => (k, v) :: rest
    | Gt => (k', v') :: insert k v rest
    end
  end.

Definition Put {V : Type} (k : string) (v : V) (b : bucket V) : result (bucket V) :=
  if len k =? 0 then Err (ErrorString "key required")
  else if MaxKeySize <? len k then Err (ErrorString "key too large")
  else Ok (insert k v b).

(** [Bucket.Get]; the store never calls it, the properties below use it to
    say what is stored under a key. *)
Fixpoint Get {V : Type} (k : string) (b : bucket V) : option V :=
  match b with
  | [] => None
  | (k', v) :: rest => if String.eqb k k' then Some v else Get k rest
  end.

(** [bolt.Store]: the two buckets of the database file and the sequence
    counter of the log bucket. *)
Record Store : Type := mk {
  devices : bucket Device.t;
  notice_logs : bucket NoticeLog.t;
  sequence : Z
}.

Definition empty : Store := mk [] [] 0.

(** [UpsertDevice]: stamps the record and writes it under its token.
    Returns the stamped record (the caller's pointer sees the stamps). *)
Definition UpsertDevice (now : Time) (device : Device.t) (s : Store)
  : result (Device.t * Store) :=
  let device :=
    if IsZero (Device.CreatedAt device) then Device.set_CreatedAt device now
    else device in
  let device := Device.set_UpdatedAt device now in
  bkt <- Put (Device.DeviceToken device) device (devices s) ;;
  Ok (device, mk bkt (notice_logs s) (sequence s)).

(** [getByKey]: the first record, in key order, that [matcher] accepts.
    The parameter [key] is not used by the body. *)
Definition getByKey (s : Store) (key : string) (matcher : Device.t -> bool)
  : result Device.t :=
  match find (fun kv => matcher (snd kv)) (devices s) with
  | Some kv => Ok (snd kv)
  | None => Err ErrNotFound
  end.

(** [GetDevice] *)
Definition GetDevice (s : Store) (token : string) : result Device.t :=
  getByKey s token (fun _ => true).

(** [GetDeviceByKey] *)
Definition GetDeviceByKey (s : Store) (key : string) : result Device.t :=
  getByKey s key (fun d => String.eqb (Device.DeviceKey d) key).

(** [list] *)
Definition list_ (s : Store) (filter : Device.t -> bool) : result (list Device.t) :=
  Ok (List.filter filter (map snd (devices s))).

(** [ListDevices] *)
Definition ListDevices (s : Store) : result (list Device.t) :=
  list_ s (fun _ => true).

(** [ListActiveDevices] *)
Definition ListActiveDevices {tables : unicode.CaseTables} (s : Store) : result (list Device.t) :=
  list_ s (fun d =>
    let status := strings.ToUpper (strings.TrimSpace (Device.Status d)) in
    String.eqb status "" || String.eqb status DeviceStatusActive).

(** [binary.BigEndian.PutUint64] into a fresh 8-byte key *)
Definition PutUint64 (id : Z) : string :=
  string_of_bytes (map (fun i => Z.shiftr id (8 * (7 - Z.of_nat i)) mod 256) (seq 0 8)).

(** [AppendNoticeLog]: stamps the entry, draws the next id of the bucket
    ([NextSequence]) and writes the entry under it. *)
Definition AppendNoticeLog (now : Time) (log : NoticeLog.t) (s : Store)
  : result (NoticeLog.t * Store) :=
  let log :=
    if IsZero (NoticeLog.CreatedAt log) then NoticeLog.set_CreatedAt log now
    else log in
  let log := NoticeLog.set_UpdatedAt log now in
  let id := (sequence s + 1) mod 2 ^ 64 in
  let log := NoticeLog.set_ID log id in
  bkt <- Put (PutUint64 id) log (notice_logs s) ;;
  Ok (log, mk (devices s) bkt id).

(** [ListNoticeLogs] *)
Definition ListNoticeLogs (s : Store) : result (list NoticeLog.t) :=
  Ok (map snd (notice_logs s)).
End bolt.

(** ** [internal/barkclient] *)

Module barkclient.
Record CommonResponse (T : Type) : Type := mkResponse {
  Code : Z;
  Message : string;
  Timestamp : Z;
  Data : T
}.
Arguments mkResponse {T}.
Arguments Code {T}.
Arguments Message {T}.
Arguments Data {T}.

Record RegisterData : Type := mkRegisterData {
  Key : string;
  DeviceKey : string;
  DeviceToken : string
}.

(** The client of the upstream push service.  What the service answers to
    a request is outside the program: [Register] and [SendEncryptedPush]
    stand for the HTTP exchange and the decoding of its answer ([None] is a
    nil response pointer). *)
Record Client : Type := mk {
  baseURL : string;
  Register : string -> string -> result (option (CommonResponse RegisterData));
  SendEncryptedPush :
    string -> string -> string -> result (option (CommonResponse unit))
}.

(** [strings.TrimRight(s, "/")] *)
Fixpoint trimSlashes (rev_s : list ascii) : list ascii :=
  match rev_s with
  | c :: rest => if Ascii.eqb c "/" then trimSlashes rest else rev_s
  | [] => []
  end.

(** [BaseURL] *)
Definition BaseURL (c : Client) : string :=
  string_of_list_ascii (rev (trimSlashes (rev (list_ascii_of_string (baseURL c))))).

(** [DeviceEndpoint] *)
Definition DeviceEndpoint (c : Client) (deviceKey : string) : string :=
  (BaseURL c ++ "/" ++ deviceKey)%string.
End barkclient.

(** ** [internal/service]: the device registry *)

Module DeviceRequest.
Record t : Type := mk {
  DeviceToken : string;
  DeviceKey : string;
  Name : string;
  Algorithm : string;
  Mode : string;
  Padding : string;
  EncodeKey : string;
  IV : string;
  Status : string;
  RegisterKey : string
}.
End DeviceRequest.

Module DeviceService.
(** [DeviceService]: the configuration and the upstream client ([None] is
    a nil client).  The store it points to is passed as state. *)
Record t : Type := mk {
  cfg : config.Config;
  bark : option barkclient.Client
}.

(** [firstNonEmpty] *)
Fixpoint firstNonEmpty (values : list string) : string :=
  match values with
  | [] => ""
  | v :: rest =>
    if negb (String.eqb (strings.TrimSpace v) "") then v else firstNonEmpty rest
  end.

(** [isValidKeyLength] *)
Definition isValidKeyLength (key : string) : bool :=
  let l := len key in
  (l =? 16) || (l =? 24) || (l =? 32).

(** [Upsert], lines 87-94: the record the store returns for the token, or
    a fresh one when the store has none. *)
Definition Upsert_load (st : bolt.Store) (req : DeviceRequest.t) : result Device.t :=
  match bolt.GetDevice st (DeviceRequest.DeviceToken req) with
  | Ok device => Ok device
  | Err err =>
    if negb (error_eqb err ErrNotFound) then Err err
    else Ok (Device.new (DeviceRequest.DeviceToken req))
  end.

(** [Upsert], lines 96-130: the request merged into the loaded record.
    Returns the merged record and the rest of the random source. *)
Definition Upsert_merge {tables : unicode.CaseTables} (s : t) (req : DeviceRequest.t)
    (device : Device.t) (rnd : list Z) : result Device.t * list Z :=
  let device := Device.set_Name device (DeviceRequest.Name req) in
  let device := Device.set_Status device
    (firstNonEmpty [strings.ToUpper (DeviceRequest.Status req); DeviceStatusActive]) in
  let device := Device.set_Algorithm device
    (firstNonEmpty [DeviceRequest.Algorithm req; config.DefaultAlgorithm (cfg s)]) in
  let device := Device.set_Mode device
    (firstNonEmpty [DeviceRequest.Mode req; config.DefaultMode (cfg s)]) in
  let device := Device.set_Padding device
    (firstNonEmpty [DeviceRequest.Padding req; config.DefaultPadding (cfg s)]) in
  match
    (if String.eqb (DeviceRequest.EncodeKey req) "" then
       if String.eqb (Device.EncodeKey device) "" then
         match crypto.GenerateString (config.KeyBytes (cfg s)) rnd with
         | (Ok generated, rnd') => (Ok (Device.set_EncodeKey device generated), rnd')
         | (Err err, rnd') => (Err err, rnd')
         end
       else (Ok device, rnd)
     else (Ok (Device.set_EncodeKey device (DeviceRequest.EncodeKey req)), rnd))
  with
  | (Err err, rnd) => (Err err, rnd)
  | (Ok device, rnd) =>
    match
      (if String.eqb (DeviceRequest.IV req) "" then
         if String.eqb (Device.IV device) "" then
           match crypto.GenerateString (config.IVBytes (cfg s)) rnd with
           | (Ok generated, rnd') => (Ok (Device.set_IV device generated), rnd')
           | (Err err, rnd') => (Err err, rnd')
           end
         else (Ok device, rnd)
       else (Ok (Device.set_IV device (DeviceRequest.IV req)), rnd))
    with
    | (Err err, rnd) => (Err err, rnd)
    | (Ok device, rnd) =>
      let device :=
        if negb (String.eqb (DeviceRequest.DeviceKey req) "") then
          Device.set_DeviceKey device (DeviceRequest.DeviceKey req)
        else device in
      (Ok device, rnd)
    end
  end.

(** [Upsert], lines 139-151: a record without a delivery key gets one from
    the upstream service. *)
Definition Upsert_register (s : t) (req : DeviceRequest.t) (device : Device.t)
  : result Device.t :=
  if String.eqb (Device.DeviceKey device) "" then
    match bark s with
    | None => Err (ErrorString "bark client not configured, cannot register device")
    | Some client =>
      match barkclient.Register client (DeviceRequest.DeviceToken req)
                                (DeviceRequest.RegisterKey req) with
      | Err err => Err err
      | Ok None => Err (ErrorString "register failed: empty device key")
      | Ok (Some resp) =>
        if String.eqb (barkclient.DeviceKey (barkclient.Data resp)) "" then
          Err (ErrorString "register failed: empty device key")
        else
          Ok (Device.set_DeviceKey device (barkclient.DeviceKey (barkclient.Data resp)))
      end
    end
  else Ok device.

(** [Upsert].  Takes the clock reading [now] used by the store, the store
    and the random source; returns the device (or the error), the store
    and the rest of the random source. *)
Definition Upsert {tables : unicode.CaseTables} (s : t) (req : DeviceRequest.t)
    (now : Time) (st : bolt.Store) (rnd : list Z)
  : result Device.t * bolt.Store * list Z :=
  if String.eqb (strings.TrimSpace (DeviceRequest.DeviceToken req)) "" then
    (Err (ErrorString "deviceToken is required"), st, rnd)
  else
    match Upsert_load st req with
    | Err err => (Err err, st, rnd)
    | Ok device =>
      match Upsert_merge s req device rnd with
      | (Err err, rnd) => (Err err, st, rnd)
      | (Ok device, rnd) =>
        if negb (isValidKeyLength (Device.EncodeKey device)) then
          (Err (ErrorString "encodeKey must be 16, 24 or 32 characters"), st, rnd)
        else if negb (len (Device.IV device) =? config.IVBytes (cfg s)) then
          (Err (ErrorString ("iv must be " ++ GoInt.Itoa (config.IVBytes (cfg s))
                               ++ " characters")%string), st, rnd)
        else
          match Upsert_register s req device with
          | Err err => (Err err, st, rnd)
          | Ok device =>
            match bolt.UpsertDevice now device st with
            | Err err => (Err err, st, rnd)
            | Ok (device, st') => (Ok device, st', rnd)
            end
          end
      end
    end.

(** [GenerateConfig] *)
Definition GenerateConfig {tables : unicode.CaseTables} (s : t) (req : DeviceRequest.t)
    (now : Time) (st : bolt.Store) (rnd : list Z)
  : result Device.t * bolt.Store * list Z :=
  if String.eqb (strings.TrimSpace (DeviceRequest.Name req)) "" then
    (Err (ErrorString "device name is required"), st, rnd)
  else if String.eqb (strings.TrimSpace (DeviceRequest.DeviceKey req)) "" then
    (Err (ErrorString "device key is required"), st, rnd)
  else Upsert s req now st rnd.

(** [UpdateStatus] *)
Definition UpdateStatus {tables : unicode.CaseTables} (token status : string)
    (now : Time) (st : bolt.Store) : result Device.t * bolt.Store :=
  match bolt.GetDevice st token with
  | Err err => (Err err, st)
  | Ok device =>
    let device := Device.set_Status device (strings.ToUpper (strings.TrimSpace status)) in
    let device :=
      if String.eqb (Device.Status device) "" then
        Device.set_Status device DeviceStatusActive
      else device in
    match bolt.UpsertDevice now device st with
    | Err err => (Err err, st)
    | Ok (device, st') => (Ok device, st')
    end
  end.

(** [List] *)
Definition List (st : bolt.Store) : result (list Device.t) := bolt.ListDevices st.

(** [Get] *)
Definition Get (st : bolt.Store) (token : string) : result Device.t :=
  bolt.GetDevice st token.

(** [RegisterDevice]: the upstream's answer is passed on; when it carries a
    device key, the key is cached in the store. *)
Definition RegisterDevice (s : t) (deviceToken key : string) (now : Time)
    (st : bolt.Store)
  : result (option (barkclient.CommonResponse barkclient.RegisterData)) * bolt.Store :=
  match bark s with
  | None => (Err (ErrorString "bark client not configured"), st)
  | Some client =>
    if String.eqb (strings.TrimSpace deviceToken) "" then
      (Err (ErrorString "deviceToken is required"), st)
    else
      match barkclient.Register client deviceToken key with
      | Err err => (Err err, st)
      | Ok None => (Ok None, st)
      | Ok (Some resp) =>
        if String.eqb (barkclient.DeviceKey (barkclient.Data resp)) "" then
          (Ok (Some resp), st)
        else
          match
            (match bolt.GetDevice st (barkclient.DeviceToken (barkclient.Data resp)) with
             | Ok device => Ok device
             | Err err =>
               if negb (error_eqb err ErrNotFound) then Err err
               else Ok (Device.new (barkclient.DeviceToken (barkclient.Data resp)))
             end)
          with
          | Err err => (Err err, st)
          | Ok device =>
            let device :=
              Device.set_DeviceKey device (barkclient.DeviceKey (barkclient.Data resp)) in
            let device :=
              if String.eqb (Device.Status device) "" then
                Device.set_Status device DeviceStatusActive
              else device in
            match bolt.UpsertDevice now device st with
            | Err err => (Err err, st)
            | Ok (_, st') => (Ok (Some resp), st')
            end
          end
      end
  end.

(** [maskValue]: the first four runes, the others replaced by [*]; a value
    of at most four runes is returned as it is. *)
Definition maskValue (value : string) : string :=
  let value := strings.TrimSpace value in
  if String.eqb value "" then value
  else
    let runes := utf8.runes (bytes_of_string value) in
    let length := Z.of_nat (List.length runes) in
    if length <=? 4 then value
    else
      let masked := repeat 42 (Z.to_nat (length - 4)) in
      (string_of_bytes (flat_map utf8.EncodeRune (firstn 4 runes))
       ++ string_of_bytes (flat_map utf8.EncodeRune masked))%string.

(** [toView]; [None] is a nil pointer. *)
Definition toView (device : option Device.t) : option DeviceView.t :=
  match device with
  | None => None
  | Some device =>
    Some (DeviceView.mk (maskValue (Device.DeviceToken device))
                        (Device.Name device)
                        (maskValue (Device.DeviceKey device))
                        (Device.Algorithm device)
                        (Device.Mode device)
                        (Device.Padding device)
                        (maskValue (Device.EncodeKey device))
                        (maskValue (Device.IV device))
                        (Device.Status device))
  end.

(** [ListViews] *)
Definition ListViews (st : bolt.Store) : result (list (option DeviceView.t)) :=
  devices <- List st ;;
  Ok (map (fun device => toView (Some device)) devices).
End DeviceService.

(** [encoding/json], as far as [json.Marshal] of a [map[string]string] goes:
    an object whose keys are sorted, strings escaped as the encoder does
    (quotes, backslash, control characters, the HTML characters, invalid
    UTF-8 and the two Unicode line separators). *)
Module json.
Definition hexdigit (v : Z) : Z :=
  if v <? 10 then 48 + v else 87 + v.

Definition htmlSafe (b : Z) : bool :=
  (32 <=? b) && negb ((b =? 34) || (b =? 38) || (b =? 60) || (b =? 62) || (b =? 92)).

Definition escapeByte (b : Z) : list Z :=
  if (b =? 92) || (b =? 34) then [92; b]
  else if b =? 8 then [92; 98]
  else if b =? 12 then [92; 102]
  else if b =? 10 then [92; 110]
  else if b =? 13 then [92; 114]
  else if b =? 9 then [92; 116]
  else [92; 117; 48; 48; hexdigit (Z.shiftr b 4); hexdigit (Z.land b 15)].

Fixpoint appendString_fuel (fuel : nat) (p : list Z) : list Z :=
  match fuel with
  | O => []
  | S f =>
    match p with
    | [] => []
    | b :: rest =>
      if b <? utf8.RuneSelf then
        (if htmlSafe b then [b] else escapeByte b) ++ appendString_fuel f rest
      else
        let '(r, size) := utf8.DecodeRune p in
        if (r =? utf8.RuneError) && (size =? 1)%nat then
          [92; 117; 102; 102; 102; 100] ++ appendString_fuel f rest
        else if (r =? 8232) || (r =? 8233) then
          [92; 117; 50; 48; 50; hexdigit (Z.land r 15)] ++ appendString_fuel f (skipn size p)
        else firstn size p ++ appendString_fuel f (skipn size p)
    end
  end.

Definition quote (s : string) : list Z :=
  let p := bytes_of_string s in
  [34] ++ appendString_fuel (List.length p) p ++ [34].

Fixpoint insertSorted (kv : string * string) (l : list (string * string))
  : list (string * string) :=
  match l with
  | [] => [kv]
  | kv' :: rest =>
    match String.compare (fst kv) (fst kv') with
    | Gt => kv' :: insertSorted kv rest
    | _ => kv :: l
    end
  end.

Fixpoint members (l : list (string * string)) : list Z :=
  match l with
  | [] => []
  | [(k, v)] => quote k ++ [58] ++ quote v
  | (k, v) :: rest => quote k ++ [58] ++ quote v ++ [44] ++ members rest
  end.

(** [json.Marshal] of a map given by its entries (distinct keys). *)
Definition Marshal (m : list (string * string)) : list Z :=
  [123] ++ members (fold_right insertSorted [] m) ++ [125].
End json.

(** ** [internal/service]: the dispatch engine *)

Module NoticeService.
(** [NoticeService]: the upstream client ([None] is a nil client); the
    store is passed as state. *)
Record t : Type := mk {
  bark : option barkclient.Client
}.

Definition FAILED : string := "FAILED".
Definition SUCCESS : string := "SUCCESS".

(** [pickTargets] *)
Definition pickTargets {tables : unicode.CaseTables} (st : bolt.Store) (deviceKeys : list string)
  : list Device.t * list NoticeResult.t :=
  if (List.length deviceKeys =? 0)%nat then
    match bolt.ListActiveDevices st with
    | Err err =>
      ([], [NoticeResult.mk "" FAILED ("list devices: " ++ error_Error err)%string])
    | Ok list => (list, [])
    end
  else
    fold_left
      (fun (acc : list Device.t * list NoticeResult.t) key =>
         let '(devices, result) := acc in
         match bolt.GetDeviceByKey st key with
         | Err err => (devices, result ++ [NoticeResult.mk key FAILED (error_Error err)])
         | Ok device => (devices ++ [device], result)
         end)
      deviceKeys ([], []).

(** The [payload] map that [Broadcast] builds from the request. *)
Definition payloadOf (req : NoticeRequest.t) : list (string * string) :=
  [("title", NoticeRequest.Title req);
   ("subtitle", NoticeRequest.Subtitle req);
   ("body", NoticeRequest.Body req);
   ("group", NoticeRequest.Group req);
   ("url", NoticeRequest.Url req)]
  ++ (if negb (String.eqb (strings.TrimSpace (NoticeRequest.Icon req)) "")
      then [("icon", NoticeRequest.Icon req)] else [])
  ++ (if negb (String.eqb (strings.TrimSpace (NoticeRequest.Image req)) "")
      then [("image", NoticeRequest.Image req)] else []).

(** [encryptPayload] *)
Definition encryptPayload (payload : list (string * string)) (device : Device.t)
  : result string :=
  let body := json.Marshal payload in
  crypto.EncryptToBase64 body (bytes_of_string (Device.EncodeKey device))
                         (bytes_of_string (Device.IV device)).

(** [appendLog]: a failure of the store is printed and dropped. *)
Definition appendLog (client : barkclient.Client) (now : Time) (device : Device.t)
    (req : NoticeRequest.t) (status result : string) (st : bolt.Store) : bolt.Store :=
  let logEntry :=
    NoticeLog.mk 0 (Device.DeviceKey device)
      (barkclient.DeviceEndpoint client (Device.DeviceKey device))
      (NoticeRequest.Title req) (NoticeRequest.Body req) (NoticeRequest.Group req)
      result status 0 0 in
  match bolt.AppendNoticeLog now logEntry st with
  | Err _ => st
  | Ok (_, st') => st'
  end.

(** *** The fan-out

    [Broadcast] starts one goroutine per target and waits for all of them.
    A goroutine acts on what it shares with the others in three places:
    the call to the upstream service, the write of its log entry (a store
    transaction) and the critical section under [mu].  Between those it
    computes on its own data.  The embedding gives each goroutine the
    matching phases and lets a schedule pick, step by step, which goroutine
    acts next. *)

(** A push handed to the upstream service: device key, ciphertext, iv. *)
Definition push : Type := (string * string * string)%type.

Inductive phase : Type :=
| Spawned                               (* nothing done yet *)
| Pushed (r : NoticeResult.t)           (* outcome known, log entry not yet written *)
| Logged (r : NoticeResult.t)           (* log entry written, waiting for [mu] *)
| Finished.                             (* result merged, [wg.Done] *)

Record goroutine : Type := mkGoroutine {
  device : Device.t;
  at_phase : phase
}.

Record shared : Type := mkShared {
  store : bolt.Store;
  results : list NoticeResult.t;
  successNum : Z;
  routines : list goroutine;
  pushes : list push;                   (* the upstream calls made so far *)
  ticks : nat                           (* steps taken, the index into the clock *)
}.

(** Lines 70-93 up to the log write: encrypt, and push if that worked.
    Returns the device's result and the upstream call made, if any. *)
Definition attempt (client : barkclient.Client) (payload : list (string * string))
    (device : Device.t) : NoticeResult.t * list push :=
  let key := Device.DeviceKey device in
  match encryptPayload payload device with
  | Err err => (NoticeResult.mk key FAILED (error_Error err), [])
  | Ok ciphertext =>
    let call := (key, ciphertext, Device.IV device) in
    match barkclient.SendEncryptedPush client key ciphertext (Device.IV device) with
    | Err pushErr => (NoticeResult.mk key FAILED (error_Error pushErr), [call])
    | Ok resp =>
      let status :=
        match resp with
        | Some r => if barkclient.Code r =? 200 then SUCCESS else FAILED
        | None => FAILED
        end in
      let message :=
        match resp with
        | Some r => barkclient.Message r
        | None => ""
        end in
      (NoticeResult.mk key status message, [call])
    end
  end.

Fixpoint set_nth {A : Type} (i : nat) (x : A) (l : list A) : list A :=
  match l, i with
  | [], _ => []
  | _ :: rest, O => x :: rest
  | y :: rest, S i' => y :: set_nth i' x rest
  end.

(** One action of goroutine [i]. *)
Definition step (client : barkclient.Client) (clock : nat -> Time)
    (req : NoticeRequest.t) (payload : list (string * string))
    (i : nat) (sh : shared) : shared :=
  match nth_error (routines sh) i with
  | None => sh
  | Some g =>
    let advance ph := set_nth i (mkGoroutine (device g) ph) (routines sh) in
    match at_phase g with
    | Spawned =>
      let '(r, calls) := attempt client payload (device g) in
      mkShared (store sh) (results sh) (successNum sh) (advance (Pushed r))
               (pushes sh ++ calls) (S (ticks sh))
    | Pushed r =>
      let st := appendLog client (clock (ticks sh)) (device g) req
                          (NoticeResult.Status r) (NoticeResult.Message r) (store sh) in
      mkShared st (results sh) (successNum sh) (advance (Logged r))
               (pushes sh) (S (ticks sh))
    | Logged r =>
      let n := if String.eqb (NoticeResult.Status r) SUCCESS
               then successNum sh + 1 else successNum sh in
      mkShared (store sh) (results sh ++ [r]) n (advance Finished)
               (pushes sh) (S (ticks sh))
    | Finished => sh
    end
  end.

Definition run (client : barkclient.Client) (clock : nat -> Time)
    (req : NoticeRequest.t) (payload : list (string * string))
    (schedule : list nat) (sh : shared) : shared :=
  fold_left (fun sh i => step client clock req payload i sh) schedule sh.

(** [wg.Wait]: every goroutine that has not finished runs to its end. *)
Definition drain (n : nat) : list nat := flat_map (fun i => [i; i; i]) (seq 0 n).

(** [Broadcast].  [schedule] is the order in which the goroutines get to
    act and [clock] the time read at each step.  Returns the summary, the
    results and the error, with the store and the upstream calls made. *)
Definition Broadcast {tables : unicode.CaseTables} (s : t) (clock : nat -> Time)
    (schedule : list nat) (req : NoticeRequest.t) (st : bolt.Store)
  : (NoticeSummary.t * list NoticeResult.t * option error) * bolt.Store * list push :=
  if String.eqb (strings.TrimSpace (NoticeRequest.Body req)) "" then
    ((NoticeSummary.zero, [], Some (ErrorString "body is required")), st, [])
  else
    match bark s with
    | None =>
      ((NoticeSummary.zero, [], Some (ErrorString "bark client not configured")), st, [])
    | Some client =>
      let '(targets, lookupFailures) := pickTargets st (NoticeRequest.DeviceKeys req) in
      if (List.length targets =? 0)%nat then
        ((NoticeSummary.zero, lookupFailures,
          Some (ErrorString "no target devices resolved")), st, [])
      else
        let payload := payloadOf req in
        let sh0 := mkShared st lookupFailures 0
                     (map (fun d => mkGoroutine d Spawned) targets) [] 0 in
        let sh := run client clock req payload
                      (schedule ++ drain (List.length targets)) sh0 in
        let summary := NoticeSummary.mk (Z.of_nat (List.length targets)) (successNum sh) in
        ((summary, results sh, None), store sh, pushes sh)
    end.
End NoticeService.

(** ** [internal/service]: the log query engine *)

Module NoticeLogService.
(** What a call does: it returns, or it panics. *)
Inductive outcome (A : Type) : Type :=
| Returns (r : result A)
| Panics (msg : string).
Arguments Returns {A} r.
Arguments Panics {A} msg.

(** [strings.EqualFold], rune by rune: equal runes, an ASCII letter and
    its other case, or two runes of one folding orbit of the Unicode
    tables ([foldOrbit]). *)
Class FoldTables := { foldOrbit : Z -> Z -> bool }.

Definition foldEq {folds : FoldTables} (a b : Z) : bool :=
  if a =? b then true
  else
    let sr := Z.min a b in
    let tr := Z.max a b in
    if tr <? utf8.RuneSelf then utf8.between 65 90 sr && (tr =? sr + 32)
    else foldOrbit sr tr.

Fixpoint allEq {folds : FoldTables} (s t : list Z) : bool :=
  match s, t with
  | [], [] => true
  | a :: s', b :: t' => foldEq a b && allEq s' t'
  | _, _ => false
  end.

Definition EqualFold {folds : FoldTables} (s t : string) : bool :=
  allEq (utf8.runes (bytes_of_string s)) (utf8.runes (bytes_of_string t)).

(** [sort.Slice(matches, CreatedAt after)]: newest first.  The library
    promises a sorted permutation and no order among equal keys; the
    embedding keeps the earlier of two equal entries first. *)
Fixpoint insertNewest (x : NoticeLog.t) (l : list NoticeLog.t) : list NoticeLog.t :=
  match l with
  | [] => [x]
  | y :: rest =>
    if NoticeLog.CreatedAt x <? NoticeLog.CreatedAt y then y :: insertNewest x rest
    else x :: l
  end.

Definition sortNewestFirst (l : list NoticeLog.t) : list NoticeLog.t :=
  fold_right insertNewest [] l.

(** [filteredLogs] *)
Definition filteredLogs {folds : FoldTables} (st : bolt.Store) (filter : NoticeLogFilter.t)
  : result (list NoticeLog.t) :=
  all <- bolt.ListNoticeLogs st ;;
  let keep (log : NoticeLog.t) : bool :=
    negb (negb (String.eqb (NoticeLogFilter.DeviceKey filter) "")
          && negb (EqualFold (NoticeLog.DeviceKey log) (NoticeLogFilter.DeviceKey filter)))
    && negb (negb (String.eqb (NoticeLogFilter.Group filter) "")
             && negb (EqualFold (NoticeLog.Group log) (NoticeLogFilter.Group filter)))
    && negb (negb (String.eqb (NoticeLogFilter.Status filter) "")
             && negb (EqualFold (NoticeLog.Status log) (NoticeLogFilter.Status filter)))
    && negb (match NoticeLogFilter.BeginTime filter with
             | Some b => NoticeLog.CreatedAt log <? b
             | None => false
             end)
    && negb (match NoticeLogFilter.EndTime filter with
             | Some e => e <? NoticeLog.CreatedAt log
             | None => false
             end) in
  Ok (sortNewestFirst (List.filter keep all)).

(** [Query].  [Page] and [PageSize] are machine integers; the slice
    expression [logs[start:end]] panics unless [0 <= start <= end] (its
    upper bound, the capacity, is at least [total], which [end] never
    exceeds). *)
Definition Query {folds : FoldTables} (st : bolt.Store) (filter : NoticeLogFilter.t)
  : outcome NoticeLogPage.t :=
  match filteredLogs st filter with
  | Err err => Returns (Err err)
  | Ok logs =>
    let total := Z.of_nat (List.length logs) in
    let PageSize := NoticeLogFilter.PageSize filter in
    let PageSize := if PageSize <=? 0 then 10 else PageSize in
    let PageSize := if 100 <? PageSize then 100 else PageSize in
    let Page := NoticeLogFilter.Page filter in
    let Page := if Page <=? 0 then 1 else Page in
    let start := GoInt.mul (GoInt.sub Page 1) PageSize in
    let start := if total <? start then total else start in
    let end_ := GoInt.add start PageSize in
    let end_ := if total <? end_ then total else end_ in
    if (start <? 0) || (end_ <? start) then
      Panics "slice bounds out of range"
    else
      let pageLogs := firstn (Z.to_nat (end_ - start)) (skipn (Z.to_nat start) logs) in
      let pages := GoInt.div (GoInt.sub (GoInt.add total PageSize) 1) PageSize in
      Returns (Ok (NoticeLogPage.mk pageLogs total pages Page PageSize))
  end.

(** [NoticeLogService]: the device service it asks for names ([None] is a
    nil pointer); the store is passed as state. *)
Record t : Type := mk {
  deviceSvc : option DeviceService.t
}.

(** A [map[string]int] counter: its keys with their counts.  [bump] is
    [counter[key]++]. *)
Fixpoint bump (key : string) (counter : list (string * Z)) : list (string * Z) :=
  match counter with
  | [] => [(key, 1)]
  | (k, n) :: rest =>
    if String.eqb key k then (k, n + 1) :: rest else (k, n) :: bump key rest
  end.

(** A row [{key: k, "count": v}] of a statistic. *)
Record row : Type := mkRow {
  column : string;
  value : string;
  count : Z
}.

Fixpoint insertRow (r : row) (l : list row) : list row :=
  match l with
  | [] => [r]
  | r' :: rest =>
    match String.compare (value r) (value r') with
    | Gt => r' :: insertRow r rest
    | _ => r :: l
    end
  end.

(** [mapToKV]: one row per key of the counter, sorted by key.  The keys of
    a map are distinct, so that the order in which the map is ranged over
    does not show in the sorted rows. *)
Definition mapToKV (counter : list (string * Z)) (key : string) : list row :=
  fold_right insertRow [] (map (fun kv => mkRow key (fst kv) (snd kv)) counter).

(** The filter [{BeginTime: begin, EndTime: end}] of the statistics. *)
Definition between (begin end_ : option Time) : NoticeLogFilter.t :=
  NoticeLogFilter.mk "" "" "" begin end_ 0 0.

(** [CountByStatus] *)
Definition CountByStatus {folds : FoldTables} (st : bolt.Store)
    (begin end_ : option Time) : result (list row) :=
  logs <- filteredLogs st (between begin end_) ;;
  let counter :=
    fold_left (fun counter log =>
                 let status := NoticeLog.Status log in
                 let status := if String.eqb status "" then "UNKNOWN" else status in
                 bump status counter) logs [] in
  Ok (mapToKV counter "status").

(** [CountByGroup] *)
Definition CountByGroup {folds : FoldTables} (st : bolt.Store)
    (begin end_ : option Time) : result (list row) :=
  logs <- filteredLogs st (between begin end_) ;;
  let counter :=
    fold_left (fun counter log =>
                 let group := strings.TrimSpace (NoticeLog.Group log) in
                 let group := if String.eqb group "" then "DEFAULT" else group in
                 bump group counter) logs [] in
  Ok (mapToKV counter "group").

(** The [deviceName] map of [CountByDevice]: the latest assignment to a key
    comes first. *)
Definition lookupName (deviceName : list (string * string)) (key : string) : string :=
  match find (fun kv => String.eqb (fst kv) key) deviceName with
  | Some kv => snd kv
  | None => ""
  end.

(** [CountByDevice] *)
Definition CountByDevice {folds : FoldTables} (s : t) (st : bolt.Store)
    (begin end_ : option Time) : result (list row) :=
  logs <- filteredLogs st (between begin end_) ;;
  let deviceName :=
    match deviceSvc s with
    | None => []
    | Some _ =>
      match DeviceService.List st with
      | Err _ => []
      | Ok devices =>
        fold_left (fun deviceName d =>
                     let name := Device.Name d in
                     let name := if String.eqb name "" then Device.DeviceKey d else name in
                     (Device.DeviceKey d, name) :: deviceName) devices []
      end
    end in
  let counter :=
    fold_left (fun counter log =>
                 let name := lookupName deviceName (NoticeLog.DeviceKey log) in
                 let name := if String.eqb name "" then NoticeLog.DeviceKey log else name in
                 bump name counter) logs [] in
  Ok (mapToKV counter "device").
End NoticeLogService.

(** ** Sample data

    Tables, a stub of the upstream service and a few requests, used where a
    property is run on a concrete input. *)

Module sample.
(** An excerpt of the upper-case table: Latin-1, and the two letters
    whose upper case is an ASCII letter (dotless i, long s). *)
Definition caseTables : unicode.CaseTables :=
  {| unicode.upperCase := fun r =>
       if r =? 181 then 924
       else if r =? 255 then 376
       else if utf8.between 224 254 r && negb (r =? 247) then r - 32
       else if r =? 305 then 73
       else if r =? 383 then 83
       else r |}.

(** An excerpt of the folding orbits: the Latin-1 letters, and the Kelvin
    sign and the long s, which fold with ASCII letters. *)
Definition foldTables : NoticeLogService.FoldTables :=
  {| NoticeLogService.foldOrbit := fun sr tr =>
       (utf8.between 192 222 sr && negb (sr =? 215) && (tr =? sr + 32))
       || (((sr =? 75) || (sr =? 107)) && (tr =? 8490))
       || (((sr =? 83) || (sr =? 115)) && (tr =? 383)) |}.

(** An upstream service that registers every token under the key
    ["K-" ++ token] and accepts every push except those to ["k-down"]. *)
Definition client : barkclient.Client :=
  barkclient.mk "http://127.0.0.1:8080/"
    (fun token _ =>
       Ok (Some (barkclient.mkResponse 200 "success" 0
                   (barkclient.mkRegisterData "" ("K-" ++ token)%string token))))
    (fun key _ _ =>
       if String.eqb key "k-down"
       then Ok (Some (barkclient.mkResponse 400 "failed to push" 0 tt))
       else Ok (Some (barkclient.mkResponse 200 "success" 0 tt))).

Definition registry : DeviceService.t := DeviceService.mk config.defaults (Some client).
Definition dispatcher : NoticeService.t := NoticeService.mk (Some client).

(** A random source: the bytes 0, 1, 2, ... *)
Definition rnd : list Z := map Z.of_nat (seq 0 64).

Definition clock (n : nat) : Time := 1000 + Z.of_nat n.

Definition key16 : string := "0123456789abcdef".
Definition key32 : string := "0123456789abcdef0123456789abcdef".
Definition iv16 : string := "fedcba9876543210".

(** [{deviceToken, deviceKey, name, status}], everything else omitted. *)
Definition request (token key name status : string) : DeviceRequest.t :=
  DeviceRequest.mk token key name "" "" "" "" "" status "".

Definition deviceOf (token key name status : string) : Device.t :=
  Device.mk token key name "AES" "CBC" "PKCS7Padding" key32 iv16 status 10 10.

(** A store with the devices [tok-a] (ACTIVE) and [tok-b] (STOP). *)
Definition twoDevices : bolt.Store :=
  bolt.mk [("tok-a", deviceOf "tok-a" "k-a" "Phone A" "ACTIVE");
           ("tok-b", deviceOf "tok-b" "k-b" "Phone B" "STOP")] [] 0.

Definition notice (keys : list string) : NoticeRequest.t :=
  NoticeRequest.mk "title" "" "hello" "group" "" "" "" keys.

Definition logAt (id : Z) : NoticeLog.t :=
  NoticeLog.mk id "k-a" "http://127.0.0.1:8080/k-a" "title" "hello" "group"
               "success" "SUCCESS" (100 - id) (100 - id).

(** A store with 25 log entries, ids 1 to 25. *)
Definition twentyFiveLogs : bolt.Store :=
  bolt.mk [] (map (fun n => (bolt.PutUint64 (Z.of_nat n), logAt (Z.of_nat n))) (seq 1 25)) 25.

Definition page (p size : Z) : NoticeLogFilter.t :=
  NoticeLogFilter.mk "" "" "" None None p size.

(** The device a first [Upsert] of [tok-c] creates at time 5 from the
    random source [rnd], with the given status. *)
Definition created (status : string) : Device.t :=
  Device.mk "tok-c" "k-c" "Phone C" "AES" "CBC" "PKCS7Padding"
            "abcdefghijklmnopqrstuvwxyzABCDEF" "GHIJKLMNOPQRSTUV" status 5 5.

(** A store with one record whose status is empty. *)
Definition emptyStatus : bolt.Store :=
  bolt.mk [("tok-e", deviceOf "tok-e" "k-e" "Phone E" "")] [] 0.

(** A request that supplies a secret of five bytes. *)
Definition shortSecret : DeviceRequest.t :=
  DeviceRequest.mk "tok-c" "k-c" "Phone C" "" "" "" "short" "" "" "".
End sample.

(** ** Notions used by the properties *)

(** A byte that is an ASCII space, tab or line break. *)
Definition asciiSpace (b : Z) : bool := utf8.between 9 13 b || (b =? 32).

(** The key lengths [aes.NewCipher] accepts. *)
Definition validKeyLength (key : list Z) : Prop :=
  List.length key = 16%nat \/ List.length key = 24%nat \/ List.length key = 32%nat.

(** The page size and the page number [Query] works with. *)
Definition clampPageSize (n : Z) : Z :=
  let n := if n <=? 0 then 10 else n in
  if 100 <? n then 100 else n.

Definition clampPage (p : Z) : Z := if p <=? 0 then 1 else p.

(** Every record of the device bucket sits under its own token: the only
    writer, [UpsertDevice], uses the token as the key. *)
Definition keyed (b : bolt.bucket Device.t) : Prop :=
  Forall (fun kv => Device.DeviceToken (snd kv) = fst kv) b.

(** The errors the specification calls [InvalidCredential]. *)
Definition InvalidCredential (cfg : config.Config) (e : error) : Prop :=
  e = ErrorString "encodeKey must be 16, 24 or 32 characters"
  \/ e = ErrorString ("iv must be " ++ GoInt.Itoa (config.IVBytes cfg) ++ " characters")%string.

(** The status [Upsert] gives a device. *)
Definition normalizedStatus {tables : unicode.CaseTables} (status : string) : string :=
  if String.eqb (strings.TrimSpace (strings.ToUpper status)) ""
  then DeviceStatusActive else strings.ToUpper status.

(** The test [ListActiveDevices] applies to a stored record. *)
Definition countsAsActive {tables : unicode.CaseTables} (d : Device.t) : bool :=
  let status := strings.ToUpper (strings.TrimSpace (Device.Status d)) in
  String.eqb status "" || String.eqb status DeviceStatusActive.

(** The devices and the lookup failures that a list of keys resolves to,
    key by key. *)
Definition resolved (st : bolt.Store) (keys : list string) : list Device.t :=
  flat_map (fun key => match bolt.GetDeviceByKey st key with
                       | Ok device => [device]
                       | Err _ => []
                       end) keys.

Definition lookupFailures (st : bolt.Store) (keys : list string) : list NoticeResult.t :=
  flat_map (fun key => match bolt.GetDeviceByKey st key with
                       | Ok _ => []
                       | Err err =>
                         [NoticeResult.mk key NoticeService.FAILED (error_Error err)]
                       end) keys.

Definition countSuccess (l : list NoticeResult.t) : Z :=
  Z.of_nat (List.length
              (filter (fun r => String.eqb (NoticeResult.Status r) NoticeService.SUCCESS) l)).

Section FanOutNotions.
Import NoticeService.

Variable client : barkclient.Client.
Variable payload : list (string * string).

(** What the goroutine of a device reports, and the upstream calls it
    makes. *)
Definition outcome (d : Device.t) : NoticeResult.t := fst (attempt client payload d).
Definition calls (d : Device.t) : list push := snd (attempt client payload d).

Definition finishedResults (gs : list goroutine) : list NoticeResult.t :=
  flat_map (fun g => match at_phase g with
                     | Finished => [outcome (device g)]
                     | _ => []
                     end) gs.

Definition startedCalls (gs : list goroutine) : list push :=
  flat_map (fun g => match at_phase g with
                     | Spawned => []
                     | _ => calls (device g)
                     end) gs.

Definition consistent (g : goroutine) : Prop :=
  match at_phase g with
  | Pushed r | Logged r => r = outcome (device g)
  | _ => True
  end.

(** The invariant of the fan-out: the results hold the lookup failures
    followed by the results of the finished goroutines, in the order they
    took [mu]; the counter counts the successes among them; the upstream
    has been called by the goroutines that have started. *)
Definition fanout_inv (failures : list NoticeResult.t) (targets : list Device.t)
           (sh : shared) : Prop :=
  map device (routines sh) = targets
  /\ Forall consistent (routines sh)
  /\ exists merged,
       results sh = failures ++ merged
       /\ Permutation merged (finishedResults (routines sh))
       /\ successNum sh = countSuccess merged
       /\ Permutation (pushes sh) (startedCalls (routines sh)).

Definition phaseRank (ph : phase) : nat :=
  match ph with
  | Spawned => 0
  | Pushed _ => 1
  | Logged _ => 2
  | Finished => 3
  end.

(** How far goroutine [j] has got; 3 also for an index that names none. *)
Definition rank (sh : shared) (j : nat) : nat :=
  match nth_error (routines sh) j with
  | Some g => phaseRank (at_phase g)
  | None => 3
  end.

End FanOutNotions.

(** The keys of a bucket ascend strictly: what [Put] keeps and [ForEach]
    relies on. *)
Definition sortedKeys {V : Type} (b : bolt.bucket V) : Prop :=
  StronglySorted (fun x y => String.compare (fst x) (fst y) = Lt) b.

(** The log bucket as [AppendNoticeLog] builds it: the keys ascend, every
    entry sits under the big-endian encoding of its id, and the ids handed
    out so far lie between 1 and the sequence counter. *)
Definition logsKeyed (st : bolt.Store) : Prop :=
  0 <= bolt.sequence st
  /\ sortedKeys (bolt.notice_logs st)
  /\ Forall (fun kv => fst kv = bolt.PutUint64 (NoticeLog.ID (snd kv))
                       /\ 0 < NoticeLog.ID (snd kv) <= bolt.sequence st)
            (bolt.notice_logs st).

(** The number a list of bytes stands for, most significant byte first. *)
Fixpoint bigEndian (l : list Z) : Z :=
  match l with
  | [] => 0
  | x :: rest => x * 256 ^ Z.of_nat (List.length rest) + bigEndian rest
  end.

(** What a log entry says, apart from its id and its time stamps. *)
Definition logContent (l : NoticeLog.t)
  : string * string * string * string * string * string * string :=
  (NoticeLog.DeviceKey l, NoticeLog.URL l, NoticeLog.Title l, NoticeLog.Body l,
   NoticeLog.Group l, NoticeLog.Result l, NoticeLog.Status l).

Section LogNotions.
Import NoticeService.

Variable client : barkclient.Client.
Variable payload : list (string * string).
Variable req : NoticeRequest.t.

(** What the goroutine of a device writes into the log. *)
Definition expectedLog (d : Device.t)
  : string * string * string * string * string * string * string :=
  (Device.DeviceKey d, barkclient.DeviceEndpoint client (Device.DeviceKey d),
   NoticeRequest.Title req, NoticeRequest.Body req, NoticeRequest.Group req,
   NoticeResult.Message (outcome client payload d),
   NoticeResult.Status (outcome client payload d)).

Definition loggedContents (gs : list goroutine)
  : list (string * string * string * string * string * string * string) :=
  flat_map (fun g => match at_phase g with
                     | Logged _ | Finished => [expectedLog (device g)]
                     | _ => []
                     end) gs.

(** The invariant of the fan-out on the store: the device bucket is the
    one [Broadcast] started from, and the log bucket has grown by one entry
    for each goroutine that is past its log write, in the order of the
    writes, with the next ids of the sequence. *)
Definition log_inv (st0 : bolt.Store) (targets : list Device.t) (sh : shared) : Prop :=
  map device (routines sh) = targets
  /\ Forall (consistent client payload) (routines sh)
  /\ bolt.devices (store sh) = bolt.devices st0
  /\ logsKeyed (store sh)
  /\ exists entries,
       map snd (bolt.notice_logs (store sh)) = map snd (bolt.notice_logs st0) ++ entries
       /\ Permutation (map logContent entries) (loggedContents (routines sh))
       /\ bolt.sequence (store sh) = bolt.sequence st0 + Z.of_nat (List.length entries)
       /\ map NoticeLog.ID entries
          = map (fun i => bolt.sequence st0 + Z.of_nat i) (seq 1 (List.length entries)).

End LogNotions.

(** The filter with another page number, and the entries of the page a
    query returns (none when it fails). *)
Definition withPage (filter : NoticeLogFilter.t) (page : Z) : NoticeLogFilter.t :=
  NoticeLogFilter.mk (NoticeLogFilter.DeviceKey filter) (NoticeLogFilter.Group filter)
                     (NoticeLogFilter.Status filter) (NoticeLogFilter.BeginTime filter)
                     (NoticeLogFilter.EndTime filter) page
                     (NoticeLogFilter.PageSize filter).

Definition pageData (o : NoticeLogService.outcome NoticeLogPage.t) : list NoticeLog.t :=
  match o with
  | NoticeLogService.Returns (Ok page) => NoticeLogPage.Data page
  | _ => []
  end.

(** How many entries of a list fall under a key. *)
Definition occurrences {A : Type} (keyOf : A -> string) (key : string) (l : list A) : Z :=
  Z.of_nat (List.length (filter (fun x => String.eqb (keyOf x) key) l)).

(** A log entry passes a filter: each of device key, group and status that
    the filter names agrees with the entry's up to case folding, and the
    entry's time lies within the bounds the filter sets, the bounds
    included. *)
Definition passes {folds : NoticeLogService.FoldTables} (filter : NoticeLogFilter.t)
    (log : NoticeLog.t) : bool :=
  (String.eqb (NoticeLogFilter.DeviceKey filter) ""
   || NoticeLogService.EqualFold (NoticeLog.DeviceKey log) (NoticeLogFilter.DeviceKey filter))
  && (String.eqb (NoticeLogFilter.Group filter) ""
      || NoticeLogService.EqualFold (NoticeLog.Group log) (NoticeLogFilter.Group filter))
  && (String.eqb (NoticeLogFilter.Status filter) ""
      || NoticeLogService.EqualFold (NoticeLog.Status log) (NoticeLogFilter.Status filter))
  && match NoticeLogFilter.BeginTime filter with
     | Some b => b <=? NoticeLog.CreatedAt log
     | None => true
     end
  && match NoticeLogFilter.EndTime filter with
     | Some e => NoticeLog.CreatedAt log <=? e
     | None => true
     end.

(** Newest first. *)
Definition newestFirst (logs : list NoticeLog.t) : Prop :=
  StronglySorted (fun a b => NoticeLog.CreatedAt b <= NoticeLog.CreatedAt a) logs.

(** The rows of a statistic over [logs]: ascending by key, no key twice,
    one row for each key that occurs, holding the number of entries that
    fall under it. *)
Definition tallied (column : string) (keyOf : NoticeLog.t -> string)
    (logs : list NoticeLog.t) (rows : list NoticeLogService.row) : Prop :=
  StronglySorted (fun r r' => String.compare (NoticeLogService.value r)
                                             (NoticeLogService.value r') = Lt) rows
  /\ forall r, In r rows <->
                NoticeLogService.column r = column
                /\ NoticeLogService.count r
                   = occurrences keyOf (NoticeLogService.value r) logs
                /\ 0 < NoticeLogService.count r.

(** The keys under which the statistics count a log entry. *)
Definition statusKey (log : NoticeLog.t) : string :=
  if String.eqb (NoticeLog.Status log) "" then "UNKNOWN" else NoticeLog.Status log.

Definition groupKey (log : NoticeLog.t) : string :=
  if String.eqb (strings.TrimSpace (NoticeLog.Group log)) "" then "DEFAULT"
  else strings.TrimSpace (NoticeLog.Group log).

(** The name the device statistic shows for a device key: the name of the
    last stored device with that key, the key itself when there is no such
    device or it has no name. *)
Definition displayName (devices : list Device.t) (key : string) : string :=
  match find (fun d => String.eqb (Device.DeviceKey d) key) (rev devices) with
  | Some d => if String.eqb (Device.Name d) "" then key else Device.Name d
  | None => key
  end.

(** A device whose secret and iv have lengths [EncryptToBase64] accepts. *)
Definition encryptable (d : Device.t) : bool :=
  DeviceService.isValidKeyLength (Device.EncodeKey d) && (len (Device.IV d) =? 16).

(** A device as far as [UpdateStatus] and [RegisterDevice] leave it alone:
    its token, name, cipher parameters, secret, iv and creation time. *)
Definition identityOf (d : Device.t)
  : string * string * string * string * string * string * string * Time :=
  (Device.DeviceToken d, Device.Name d, Device.Algorithm d, Device.Mode d,
   Device.Padding d, Device.EncodeKey d, Device.IV d, Device.CreatedAt d).

(** Unfolds the field accesses and assignments of a device record. *)
Ltac device_fields :=
  cbn [Device.DeviceToken Device.DeviceKey Device.Name Device.Algorithm Device.Mode
       Device.Padding Device.EncodeKey Device.IV Device.Status Device.CreatedAt
       Device.UpdatedAt Device.set_DeviceKey Device.set_Name Device.set_Algorithm
       Device.set_Mode Device.set_Padding Device.set_EncodeKey Device.set_IV
       Device.set_Status Device.set_CreatedAt Device.set_UpdatedAt Device.new] in *.

(* ===================================================================== *)
(** * Part II: properties                                                 *)
(* ===================================================================== *)

(** ** Strings *)

Lemma eqb_empty_false (s : string) : String.eqb s "" = false <-> s <> "".
Proof. apply String.eqb_neq. Qed.

(** [TrimSpace] removes the Unicode spaces (no-break space, ideographic
space, next line) along with the ASCII ones, and leaves bytes that are no
valid encoding alone. *)
Example TrimSpace_vectors :
  strings.TrimSpace "" = ""
  /\ strings.TrimSpace "   " = ""
  /\ bytes_of_string (strings.TrimSpace (string_of_bytes [9; 10; 11; 12; 13; 32])) = []
  /\ bytes_of_string
       (strings.TrimSpace (string_of_bytes [194; 160; 227; 128; 128; 194; 133])) = []
  /\ strings.TrimSpace "  hello world  " = "hello world"
  /\ bytes_of_string (strings.TrimSpace (string_of_bytes [32; 160; 32])) = [160].
Proof. repeat split. Qed.

(** A string of ASCII spaces, tabs and line breaks is blank. *)
Lemma trimLeft_ascii_blank (fuel : nat) (p : list Z) :
  forallb asciiSpace p = true -> (List.length p <= fuel)%nat ->
  strings.trimLeft_fuel fuel p = [].
Proof.
  revert p. induction fuel as [|fuel IH]; intros [|b rest] Hall Hlen; simpl in *;
    try reflexivity; try lia.
  apply andb_prop in Hall. destruct Hall as [Hb Hrest].
  assert (Hb' : 9 <= b <= 13 \/ b = 32).
  { unfold asciiSpace, utf8.between in Hb.
    apply orb_prop in Hb. destruct Hb as [Hb|Hb].
    - apply andb_prop in Hb. destruct Hb as [H1 H2].
      apply Z.leb_le in H1. apply Z.leb_le in H2. lia.
    - apply Z.eqb_eq in Hb. lia. }
  replace (b <? 128) with true by (symmetry; apply Z.ltb_lt; lia).
  replace (unicode.IsSpace b) with true.
  - apply IH; [exact Hrest | simpl; lia].
  - symmetry. unfold unicode.IsSpace, utf8.between.
    destruct Hb' as [[H1 H2]| ->]; [|reflexivity].
    apply Z.leb_le in H1. apply Z.leb_le in H2. rewrite H1, H2. reflexivity.
Qed.

Lemma TrimSpace_ascii_blank (s : string) :
  forallb asciiSpace (bytes_of_string s) = true -> strings.TrimSpace s = "".
Proof.
  intro Hall. unfold strings.TrimSpace, strings.trimLeft.
  rewrite trimLeft_ascii_blank by (try assumption; lia). reflexivity.
Qed.

(** [ToUpper] maps ASCII input byte by byte and other input rune by rune:
    an invalid byte becomes U+FFFD, and the dotless i counts as a lower-case
    I. *)
Example ToUpper_vectors :
  strings.ToUpper (tables := sample.caseTables) " active" = " ACTIVE"
  /\ strings.ToUpper (tables := sample.caseTables) "" = ""
  /\ bytes_of_string
       (strings.ToUpper (tables := sample.caseTables) (string_of_bytes [97; 255]))
     = [65; 239; 191; 189]
  /\ strings.ToUpper (tables := sample.caseTables)
       (string_of_bytes [97; 99; 116; 196; 177; 118; 101]) = "ACTIVE".
Proof. repeat split. Qed.

(** ** The crypto helpers *)

Section Crypto.

(** PKCS#7 for blocks of 16 bytes: between 1 and 16 bytes are added, each
    holding their number, and the length becomes a multiple of 16. *)
Lemma pkcs7Pad_16 (data : list Z) :
  let n := 16 - Z.of_nat (List.length data) mod 16 in
  1 <= n <= 16 /\
  crypto.pkcs7Pad data 16 = data ++ repeat n (Z.to_nat n) /\
  Z.of_nat (List.length (crypto.pkcs7Pad data 16)) = Z.of_nat (List.length data) + n /\
  Z.of_nat (List.length (crypto.pkcs7Pad data 16)) mod 16 = 0.
Proof.
  intro n.
  assert (Hm : 0 <= Z.of_nat (List.length data) mod 16 < 16)
    by (apply Z.mod_pos_bound; lia).
  assert (Hn : 1 <= n <= 16) by (unfold n; lia).
  assert (Hpad : crypto.pkcs7Pad data 16 = data ++ repeat n (Z.to_nat n)).
  { unfold crypto.pkcs7Pad, crypto.bytesRepeat. fold n.
    rewrite (Z.mod_small n 256) by lia. reflexivity. }
  assert (Hlen : Z.of_nat (List.length (crypto.pkcs7Pad data 16))
                 = Z.of_nat (List.length data) + n).
  { rewrite Hpad, length_app, repeat_length. lia. }
  repeat split; try lia; try assumption.
  rewrite Hlen. unfold n.
  rewrite (Z.div_mod (Z.of_nat (List.length data)) 16) at 1 by lia.
  replace (16 * (Z.of_nat (List.length data) / 16) + Z.of_nat (List.length data) mod 16
           + (16 - Z.of_nat (List.length data) mod 16))
    with ((Z.of_nat (List.length data) / 16 + 1) * 16) by lia.
  apply Z.mod_mul. lia.
Qed.

(** CBC chains the blocks: the first ciphertext block encrypts the first
    plaintext block xored with the iv, and the rest is the chain started
    from that ciphertext block. *)
Lemma cbc_chain (enc : list Z -> list Z) (iv b : list Z) (bs : list (list Z)) :
  cipher.cbc enc iv (b :: bs)
  = enc (aes.xor_bytes b iv) ++ cipher.cbc enc (enc (aes.xor_bytes b iv)) bs.
Proof. reflexivity. Qed.

Lemma NewCipher_ok (key : list Z) :
  validKeyLength key -> aes.NewCipher key = Ok (aes.expandKey key).
Proof.
  intros [H | [H | H]]; unfold aes.NewCipher; rewrite H; reflexivity.
Qed.

Lemma NewCipher_err (key : list Z) :
  ~ validKeyLength key ->
  aes.NewCipher key = Err (aes.KeySizeError (Z.of_nat (List.length key))).
Proof.
  intro H. unfold aes.NewCipher.
  destruct (Z.eqb_spec (Z.of_nat (List.length key)) 16) as [E|_];
    [exfalso; apply H; left; lia|].
  destruct (Z.eqb_spec (Z.of_nat (List.length key)) 24) as [E|_];
    [exfalso; apply H; right; left; lia|].
  destruct (Z.eqb_spec (Z.of_nat (List.length key)) 32) as [E|_];
    [exfalso; apply H; right; right; lia|].
  reflexivity.
Qed.

End Crypto.

(** The FIPS-197 example vectors (appendix C) for the three key sizes. *)
Example aes_fips197_vectors :
  let pt := map (fun i => Z.of_nat i * 17) (seq 0 16) in
  let key n := map Z.of_nat (seq 0 n) in
  aes.encryptBlock (aes.expandKey (key 16%nat)) pt
  = [105; 196; 224; 216; 106; 123; 4; 48; 216; 205; 183; 128; 112; 180; 197; 90]
  /\ aes.encryptBlock (aes.expandKey (key 24%nat)) pt
     = [221; 169; 124; 164; 134; 76; 223; 224; 110; 175; 112; 160; 236; 13; 113; 145]
  /\ aes.encryptBlock (aes.expandKey (key 32%nat)) pt
     = [142; 162; 183; 202; 81; 103; 69; 191; 234; 252; 73; 144; 75; 73; 96; 137].
Proof. vm_compute. repeat split. Qed.

(** The RFC 4648 test vectors of the standard encoding. *)
Example base64_rfc4648_vectors :
  map (fun s => base64.EncodeToString (bytes_of_string s))
      [""; "f"; "fo"; "foo"; "foob"; "fooba"; "foobar"]
  = [""; "Zg=="; "Zm8="; "Zm9v"; "Zm9vYg=="; "Zm9vYmE="; "Zm9vYmFy"].
Proof. reflexivity. Qed.

(** Claim C4.  [EncryptToBase64] fails for every key whose length is not 16,
    24 or 32 bytes and for every iv whose length is not 16 bytes.  For a key
    and an iv of valid length it returns, for every plaintext, the standard
    base64 encoding of the AES-CBC encryption (under the expanded key,
    chained from the iv) of the plaintext followed by its PKCS#7 padding:
    [n] bytes of value [n], with [n] between 1 and 16 making the length a
    multiple of 16.  The result is a function of plaintext, key and iv only:
    two calls on the same three values return the same ciphertext. *)
Theorem EncryptToBase64_contract (plaintext key iv : list Z) :
  (~ validKeyLength key -> exists e, crypto.EncryptToBase64 plaintext key iv = Err e)
  /\ (List.length iv <> 16%nat ->
      exists e, crypto.EncryptToBase64 plaintext key iv = Err e)
  /\ (validKeyLength key -> List.length iv = 16%nat ->
      let n := 16 - Z.of_nat (List.length plaintext) mod 16 in
      let padded := plaintext ++ repeat n (Z.to_nat n) in
      1 <= n <= 16
      /\ Z.of_nat (List.length padded) mod 16 = 0
      /\ crypto.EncryptToBase64 plaintext key iv
         = Ok (base64.EncodeToString (cipher.CryptBlocks (aes.expandKey key) iv padded)))
  /\ (forall r1 r2,
        crypto.EncryptToBase64 plaintext key iv = r1 ->
        crypto.EncryptToBase64 plaintext key iv = r2 -> r1 = r2).
Proof.
  split; [|split; [|split]].
  - intro Hk. unfold crypto.EncryptToBase64.
    rewrite (NewCipher_err Hk). simpl. eauto.
  - intro Hiv. unfold crypto.EncryptToBase64.
    destruct (aes.NewCipher key) as [block|e]; simpl; [|eauto].
    destruct (negb (Z.of_nat (List.length key) =? 16)
              && negb (Z.of_nat (List.length key) =? 24)
              && negb (Z.of_nat (List.length key) =? 32)); [eauto|].
    unfold aes.BlockSize.
    destruct (Z.eqb_spec (Z.of_nat (List.length iv)) 16) as [E|_]; [lia|].
    simpl. eauto.
  - intros Hk Hiv n padded.
    destruct (pkcs7Pad_16 plaintext) as (Hn & Hpad & Hlen & Hmod).
    fold n in Hn, Hpad, Hlen. fold padded in Hpad.
    split; [exact Hn|]. split; [rewrite <- Hpad; exact Hmod|].
    unfold crypto.EncryptToBase64.
    rewrite (NewCipher_ok Hk). simpl.
    replace (negb (Z.of_nat (List.length key) =? 16)
             && negb (Z.of_nat (List.length key) =? 24)
             && negb (Z.of_nat (List.length key) =? 32)) with false
      by (destruct Hk as [H | [H | H]]; rewrite H; reflexivity).
    unfold aes.BlockSize. rewrite Hiv. simpl.
    fold aes.BlockSize. unfold aes.BlockSize. rewrite Hpad. reflexivity.
  - intros r1 r2 H1 H2. congruence.
Qed.

(** The contract at a 28-byte plaintext under a 16-byte key: the ciphertext
    is the one [openssl enc -aes-128-cbc] produces for the same input. *)
Lemma EncryptToBase64_contract_witness :
  crypto.EncryptToBase64 (bytes_of_string "hello world, this is a test!")
                         (bytes_of_string sample.key16) (bytes_of_string sample.iv16)
  = Ok "SKZMd+2jF8Ls4LPrEBNZOt7yqGgYedeO4tt1+YXtV/A="
  /\ (exists e, crypto.EncryptToBase64 [] (bytes_of_string "short")
                                       (bytes_of_string sample.iv16) = Err e)
  /\ (exists e, crypto.EncryptToBase64 [] (bytes_of_string sample.key16)
                                       (bytes_of_string "short") = Err e).
Proof.
  split; [|split].
  - destruct (EncryptToBase64_contract
                (bytes_of_string "hello world, this is a test!")
                (bytes_of_string sample.key16) (bytes_of_string sample.iv16))
      as (_ & _ & H & _).
    destruct H as (_ & _ & H); [left; reflexivity | reflexivity |].
    rewrite H. vm_compute. reflexivity.
  - apply (proj1 (EncryptToBase64_contract [] (bytes_of_string "short")
                    (bytes_of_string sample.iv16))).
    intro Hk. vm_compute in Hk. lia.
  - apply (proj1 (proj2 (EncryptToBase64_contract [] (bytes_of_string sample.key16)
                           (bytes_of_string "short")))).
    intro Hiv. vm_compute in Hiv. lia.
Defined.

(** ** The log query engine *)

Lemma wrap_in_range (z : Z) : GoInt.in_range z -> GoInt.wrap z = z.
Proof.
  unfold GoInt.in_range, GoInt.MinInt, GoInt.MaxInt, GoInt.wrap. intro H.
  rewrite Z.mod_small; lia.
Qed.

Lemma clampPageSize_bounds (n : Z) : 1 <= clampPageSize n <= 100.
Proof.
  unfold clampPageSize.
  destruct (Z.leb_spec n 0); [simpl; lia|].
  destruct (Z.ltb_spec 100 n); lia.
Qed.

Lemma clampPage_bounds (p : Z) : 1 <= clampPage p /\ (1 <= p -> clampPage p = p).
Proof. unfold clampPage. destruct (Z.leb_spec p 0); lia. Qed.

Section LogQuery.
Context {folds : NoticeLogService.FoldTables}.

Lemma filteredLogs_total (st : bolt.Store) (filter : NoticeLogFilter.t) :
  exists logs, NoticeLogService.filteredLogs st filter = Ok logs.
Proof. unfold NoticeLogService.filteredLogs, bolt.ListNoticeLogs. simpl. eauto. Qed.

(** As long as [(page - 1) * pageSize] fits a machine integer, [Query]
    returns a page and no error: page at least 1, page size within
    [1, 100], the slice bounds [lo <= hi] within [0, total], and an empty
    page when the page lies beyond the last entry. *)
Lemma Query_in_range (st : bolt.Store) (filter : NoticeLogFilter.t)
      (logs : list NoticeLog.t) :
  NoticeLogService.filteredLogs st filter = Ok logs ->
  let total := Z.of_nat (List.length logs) in
  let size := clampPageSize (NoticeLogFilter.PageSize filter) in
  let page := clampPage (NoticeLogFilter.Page filter) in
  GoInt.in_range (NoticeLogFilter.Page filter) ->
  total + 100 <= GoInt.MaxInt ->
  (page - 1) * size <= GoInt.MaxInt ->
  let lo := Z.min ((page - 1) * size) total in
  let hi := Z.min (lo + size) total in
  NoticeLogService.Query st filter
  = NoticeLogService.Returns
      (Ok (NoticeLogPage.mk (firstn (Z.to_nat (hi - lo)) (skipn (Z.to_nat lo) logs))
                            total ((total + size - 1) / size) page size))
  /\ 1 <= page /\ 1 <= size <= 100 /\ 0 <= lo <= hi /\ hi <= total
  /\ (total <= (page - 1) * size ->
      firstn (Z.to_nat (hi - lo)) (skipn (Z.to_nat lo) logs) = []).
Proof.
  intros Hlogs total size page Hpage Htotal Hmul lo hi.
  pose proof (clampPageSize_bounds (NoticeLogFilter.PageSize filter)) as Hsize.
  pose proof (clampPage_bounds (NoticeLogFilter.Page filter)) as [Hp1 _].
  fold size in Hsize. fold page in Hp1.
  assert (Hp2 : page <= GoInt.MaxInt).
  { unfold page, clampPage. unfold GoInt.in_range in Hpage.
    destruct (Z.leb_spec (NoticeLogFilter.Page filter) 0);
      unfold GoInt.MaxInt in *; lia. }
  assert (Htot0 : 0 <= total) by (unfold total; lia).
  unfold GoInt.MaxInt, GoInt.MinInt in *.
  assert (Hprod : 0 <= (page - 1) * size) by nia.
  assert (Hlohi : 0 <= lo <= hi /\ hi <= total) by (unfold hi, lo; lia).
  unfold NoticeLogService.Query. rewrite Hlogs.
  change (if 100 <? (if NoticeLogFilter.PageSize filter <=? 0 then 10
                     else NoticeLogFilter.PageSize filter)
          then 100
          else (if NoticeLogFilter.PageSize filter <=? 0 then 10
                else NoticeLogFilter.PageSize filter))
    with size.
  change (if NoticeLogFilter.Page filter <=? 0 then 1 else NoticeLogFilter.Page filter)
    with page.
  fold total.
  unfold GoInt.mul, GoInt.sub, GoInt.add, GoInt.div.
  rewrite (wrap_in_range (z := page - 1))
    by (unfold GoInt.in_range, GoInt.MinInt, GoInt.MaxInt; lia).
  rewrite (wrap_in_range (z := (page - 1) * size))
    by (unfold GoInt.in_range, GoInt.MinInt, GoInt.MaxInt; nia).
  replace (if total <? (page - 1) * size then total else (page - 1) * size) with lo
    by (unfold lo; destruct (Z.ltb_spec total ((page - 1) * size)); lia).
  rewrite (wrap_in_range (z := lo + size))
    by (unfold GoInt.in_range, GoInt.MinInt, GoInt.MaxInt; lia).
  replace (if total <? lo + size then total else lo + size) with hi
    by (unfold hi; destruct (Z.ltb_spec total (lo + size)); lia).
  replace ((lo <? 0) || (hi <? lo)) with false
    by (symmetry; apply orb_false_iff; split; apply Z.ltb_ge; lia).
  rewrite (wrap_in_range (z := total + size))
    by (unfold GoInt.in_range, GoInt.MinInt, GoInt.MaxInt; lia).
  rewrite (wrap_in_range (z := total + size - 1))
    by (unfold GoInt.in_range, GoInt.MinInt, GoInt.MaxInt; lia).
  rewrite Z.quot_div_nonneg by lia.
  rewrite (wrap_in_range (z := (total + size - 1) / size)).
  2:{ unfold GoInt.in_range, GoInt.MinInt, GoInt.MaxInt.
      split.
      - transitivity 0; [lia | apply Z.div_pos; lia].
      - transitivity (total + size - 1); [apply Z.div_le_upper_bound; nia | lia]. }
  repeat split; try lia.
  intro Hbeyond.
  replace lo with total by (unfold lo; lia).
  replace hi with total by (unfold hi, lo; lia).
  rewrite Z.sub_diag. reflexivity.
Qed.

(** A filtered set of 25 entries, page 3 of size 10: the last five
    entries, and three pages. *)
Lemma Query_25_entries_page_3 (st : bolt.Store) (filter : NoticeLogFilter.t)
      (logs : list NoticeLog.t) :
  NoticeLogService.filteredLogs st filter = Ok logs ->
  List.length logs = 25%nat ->
  NoticeLogFilter.Page filter = 3 ->
  NoticeLogFilter.PageSize filter = 10 ->
  NoticeLogService.Query st filter
  = NoticeLogService.Returns (Ok (NoticeLogPage.mk (skipn 20 logs) 25 3 3 10))
  /\ List.length (skipn 20 logs) = 5%nat.
Proof.
  intros Hlogs Hlen Hpage Hsize.
  destruct (@Query_in_range st filter logs Hlogs) as (HQ & _).
  - rewrite Hpage. unfold GoInt.in_range, GoInt.MinInt, GoInt.MaxInt. lia.
  - rewrite Hlen. unfold GoInt.MaxInt. lia.
  - rewrite Hpage, Hsize. unfold GoInt.MaxInt. vm_compute. discriminate.
  - rewrite HQ, Hpage, Hsize, Hlen. split.
    + change (firstn _ (skipn _ logs)) with (firstn 5 (skipn 20 logs)).
      rewrite firstn_all2 by (rewrite length_skipn, Hlen; simpl; lia).
      reflexivity.
    + rewrite length_skipn, Hlen. reflexivity.
Qed.

(** Claim C9, at the input on which the code departs from it.  For the
    page number 9223372036854775807 and the page size 10, whatever the
    store holds, the product [(page - 1) * pageSize] wraps around to -20;
    the lower slice bound is never clamped at 0, and [logs[start:end]]
    panics instead of giving an empty page. *)
Theorem Query_page_overflow_panics (st : bolt.Store)
        (deviceKey group status : string) (beginTime endTime : option Time) :
  NoticeLogService.Query st
    (NoticeLogFilter.mk deviceKey group status beginTime endTime GoInt.MaxInt 10)
  = NoticeLogService.Panics "slice bounds out of range".
Proof.
  unfold NoticeLogService.Query.
  destruct (filteredLogs_total st
              (NoticeLogFilter.mk deviceKey group status beginTime endTime GoInt.MaxInt 10))
    as [logs ->].
  cbn [NoticeLogFilter.PageSize NoticeLogFilter.Page].
  change (GoInt.mul (GoInt.sub (if GoInt.MaxInt <=? 0 then 1 else GoInt.MaxInt) 1)
                    (if 100 <? (if 10 <=? 0 then 10 else 10) then 100
                     else if 10 <=? 0 then 10 else 10))
    with (-20).
  destruct (Z.ltb_spec (Z.of_nat (List.length logs)) (-20)) as [H|_]; [lia|].
  change (GoInt.add (-20) (if 100 <? (if 10 <=? 0 then 10 else 10) then 100
                           else if 10 <=? 0 then 10 else 10))
    with (-10).
  destruct (Z.ltb_spec (Z.of_nat (List.length logs)) (-10)) as [H|_]; [lia|].
  reflexivity.
Qed.

End LogQuery.

(** The 25 entries of the sample store: page 3 of size 10 holds the entries
that come last in the newest-first order, with the ids 21 to 25. *)
Example Query_sample_page_3 :
NoticeLogService.Query (folds := sample.foldTables) sample.twentyFiveLogs (sample.page 3 10)
= NoticeLogService.Returns
    (Ok (NoticeLogPage.mk (map sample.logAt [21; 22; 23; 24; 25]) 25 3 3 10)).
Proof.
destruct (@Query_25_entries_page_3 sample.foldTables sample.twentyFiveLogs (sample.page 3 10)
            (map (fun n => sample.logAt (Z.of_nat n)) (seq 1 25)))
  as [HQ _].
- reflexivity.
- reflexivity.
- reflexivity.
- reflexivity.
- exact HQ.
Qed.

(** ** The dispatch engine: the fan-out *)

Section FanOut.
Import NoticeService.

Variable client : barkclient.Client.
Variable clock : nat -> Time.
Variable req : NoticeRequest.t.
Variable payload : list (string * string).

Lemma set_nth_split {A : Type} (l : list A) (i : nat) (g : A) :
  nth_error l i = Some g ->
  exists l1 l2, l = l1 ++ g :: l2 /\ List.length l1 = i
                /\ forall x, set_nth i x l = l1 ++ x :: l2.
Proof.
  revert i. induction l as [|y l IH]; intros [|i] H; simpl in H; try discriminate.
  - injection H as ->. exists [], l. repeat split.
  - destruct (IH i H) as (l1 & l2 & -> & Hlen & Hset).
    exists (y :: l1), l2. simpl. repeat split; [congruence|].
    intro x. rewrite Hset. reflexivity.
Qed.

Lemma countSuccess_snoc (l : list NoticeResult.t) (r : NoticeResult.t) :
  countSuccess (l ++ [r])
  = if String.eqb (NoticeResult.Status r) SUCCESS
    then countSuccess l + 1 else countSuccess l.
Proof.
  unfold countSuccess. rewrite filter_app, length_app. simpl.
  destruct (String.eqb (NoticeResult.Status r) SUCCESS); simpl; lia.
Qed.

Lemma countSuccess_perm (l l' : list NoticeResult.t) :
  Permutation l l' -> countSuccess l = countSuccess l'.
Proof.
  intro P. unfold countSuccess. f_equal.
  induction P; simpl.
  - reflexivity.
  - destruct (String.eqb (NoticeResult.Status x) SUCCESS); simpl; congruence.
  - destruct (String.eqb (NoticeResult.Status x) SUCCESS),
             (String.eqb (NoticeResult.Status y) SUCCESS); reflexivity.
  - congruence.
Qed.

Lemma fanout_inv_init (failures : list NoticeResult.t) (targets : list Device.t)
      (st : bolt.Store) :
  fanout_inv client payload failures targets
    (mkShared st failures 0 (map (fun d => mkGoroutine d Spawned) targets) [] 0).
Proof.
  unfold fanout_inv. simpl. split; [|split].
  - rewrite map_map. simpl. apply map_id.
  - apply Forall_forall. intros g Hg. apply in_map_iff in Hg.
    destruct Hg as (d & <- & _). exact I.
  - exists []. rewrite app_nil_r.
    assert (Hf : finishedResults client payload (map (fun d => mkGoroutine d Spawned) targets) = []).
    { induction targets as [|d ds IH]; simpl; auto. }
    assert (Hs : startedCalls client payload (map (fun d => mkGoroutine d Spawned) targets) = []).
    { induction targets as [|d ds IH]; simpl; auto. }
    rewrite Hf, Hs. repeat split; constructor.
Qed.

Lemma fanout_inv_step (failures : list NoticeResult.t) (targets : list Device.t)
      (i : nat) (sh : shared) :
  fanout_inv client payload failures targets sh ->
  fanout_inv client payload failures targets (step client clock req payload i sh).
Proof.
  intros (Hdev & Hcons & merged & Hres & Hperm & Hnum & Hcalls).
  unfold step. destruct (nth_error (routines sh) i) as [g|] eqn:Hnth.
  2:{ unfold fanout_inv. eauto 10. }
  destruct (set_nth_split _ _ Hnth) as (l1 & l2 & Hl & _ & Hset).
  rewrite Hl in Hdev, Hcons, Hperm, Hcalls.
  apply Forall_app in Hcons. destruct Hcons as [Hc1 Hc2].
  apply Forall_cons_iff in Hc2. destruct Hc2 as [Hg Hc2].
  unfold finishedResults in Hperm. rewrite flat_map_app in Hperm. simpl in Hperm.
  unfold startedCalls in Hcalls. rewrite flat_map_app in Hcalls. simpl in Hcalls.
  rewrite map_app in Hdev. simpl in Hdev.
  unfold consistent in Hg.
  destruct (at_phase g) as [| r | r |] eqn:Hph; simpl in Hperm, Hcalls.
  - (* the upstream call *)
    destruct (attempt client payload (device g)) as [r cs] eqn:Hat.
    unfold fanout_inv. simpl. rewrite Hset. split; [|split].
    + rewrite map_app. simpl. exact Hdev.
    + apply Forall_app. split; [exact Hc1|]. constructor; [|exact Hc2].
      unfold consistent, outcome. simpl. rewrite Hat. reflexivity.
    + exists merged. repeat split; try assumption.
      * unfold finishedResults. rewrite flat_map_app. simpl. exact Hperm.
      * unfold startedCalls. rewrite flat_map_app. simpl.
        replace (calls client payload (device g)) with cs by (unfold calls; rewrite Hat; reflexivity).
        rewrite (Permutation_app_comm (pushes sh) cs).
        rewrite Hcalls. apply Permutation_app_swap_app.
  - (* the log write *)
    unfold fanout_inv. simpl. rewrite Hset. split; [|split].
    + rewrite map_app. simpl. exact Hdev.
    + apply Forall_app. split; [exact Hc1|]. constructor; [|exact Hc2].
      unfold consistent. simpl. exact Hg.
    + exists merged. repeat split; try assumption.
      * unfold finishedResults. rewrite flat_map_app. simpl. exact Hperm.
      * unfold startedCalls. rewrite flat_map_app. simpl. exact Hcalls.
  - (* the critical section *)
    unfold fanout_inv. simpl. rewrite Hset. split; [|split].
    + rewrite map_app. simpl. exact Hdev.
    + apply Forall_app. split; [exact Hc1|]. constructor; [exact I|exact Hc2].
    + exists (merged ++ [r]). repeat split.
      * rewrite Hres. symmetry. apply app_assoc.
      * unfold finishedResults. rewrite flat_map_app. simpl. rewrite <- Hg.
        rewrite (Permutation_app_comm merged [r]). simpl.
        apply Permutation_cons_app. exact Hperm.
      * rewrite countSuccess_snoc, Hnum. reflexivity.
      * unfold startedCalls. rewrite flat_map_app. simpl. exact Hcalls.
  - (* nothing left to do *)
    unfold fanout_inv. rewrite Hl. split; [|split].
    + rewrite map_app. simpl. exact Hdev.
    + apply Forall_app. split; [exact Hc1|]. constructor; [|exact Hc2].
      unfold consistent. rewrite Hph. exact I.
    + exists merged. repeat split; try assumption.
      * unfold finishedResults. rewrite flat_map_app. simpl. rewrite Hph. exact Hperm.
      * unfold startedCalls. rewrite flat_map_app. simpl. rewrite Hph. exact Hcalls.
Qed.

Lemma fanout_inv_run (failures : list NoticeResult.t) (targets : list Device.t)
      (schedule : list nat) (sh : shared) :
  fanout_inv client payload failures targets sh ->
  fanout_inv client payload failures targets (run client clock req payload schedule sh).
Proof.
  revert sh. induction schedule as [|i rest IH]; intros sh H; simpl.
  - exact H.
  - apply IH. apply fanout_inv_step. exact H.
Qed.

(** *** Every goroutine finishes *)

Lemma phaseRank_le_3 (ph : phase) : (phaseRank ph <= 3)%nat.
Proof. destruct ph; simpl; lia. Qed.

Lemma nth_error_set_nth {A : Type} (l : list A) (i j : nat) (x : A) :
  nth_error (set_nth i x l) j
  = if (j =? i)%nat then
      match nth_error l j with Some _ => Some x | None => None end
    else nth_error l j.
Proof.
  revert i j. induction l as [|y l IH]; intros i j.
  - destruct i, j; simpl; try reflexivity; destruct (j =? i)%nat; reflexivity.
  - destruct i as [|i], j as [|j]; simpl; try reflexivity. apply IH.
Qed.

Lemma rank_step (i j : nat) (sh : shared) :
  (rank sh j <= rank (step client clock req payload i sh) j)%nat
  /\ (Nat.min 3 (S (rank sh i)) <= rank (step client clock req payload i sh) i)%nat.
Proof.
  unfold rank, step.
  destruct (nth_error (routines sh) i) as [g|] eqn:Hi.
  2:{ rewrite Hi. lia. }
  assert (Hset : forall ph,
             nth_error (set_nth i (mkGoroutine (device g) ph) (routines sh)) j
             = if (j =? i)%nat then Some (mkGoroutine (device g) ph)
               else nth_error (routines sh) j).
  { intro ph. rewrite nth_error_set_nth.
    destruct (Nat.eqb_spec j i) as [->|]; [rewrite Hi|]; reflexivity. }
  assert (Hself : forall ph,
             nth_error (set_nth i (mkGoroutine (device g) ph) (routines sh)) i
             = Some (mkGoroutine (device g) ph)).
  { intro ph. rewrite nth_error_set_nth, Nat.eqb_refl, Hi. reflexivity. }
  destruct (at_phase g) as [| r | r |] eqn:Hph.
  - destruct (attempt client payload (device g)) as [r cs]. simpl.
    rewrite Hset, Hself. simpl.
    destruct (Nat.eqb_spec j i) as [->|]; [rewrite Hi, Hph; simpl; lia|].
    destruct (nth_error (routines sh) j); lia.
  - simpl. rewrite Hset, Hself. simpl.
    destruct (Nat.eqb_spec j i) as [->|]; [rewrite Hi, Hph; simpl; lia|].
    destruct (nth_error (routines sh) j); lia.
  - simpl. rewrite Hset, Hself. simpl.
    destruct (Nat.eqb_spec j i) as [->|]; [rewrite Hi, Hph; simpl; lia|].
    destruct (nth_error (routines sh) j); lia.
  - rewrite Hi, Hph. simpl. split; [|lia].
    destruct (nth_error (routines sh) j); lia.
Qed.

Lemma rank_le_3 (sh : shared) (j : nat) : (rank sh j <= 3)%nat.
Proof.
  unfold rank. destruct (nth_error (routines sh) j); [apply phaseRank_le_3 | lia].
Qed.

Lemma rank_run (schedule : list nat) (sh : shared) (j : nat) :
  (rank sh j <= rank (run client clock req payload schedule sh) j)%nat.
Proof.
  revert sh. induction schedule as [|i rest IH]; intro sh; simpl; [lia|].
  etransitivity; [apply (proj1 (rank_step i j sh)) | apply IH].
Qed.

Lemma run_app (s1 s2 : list nat) (sh : shared) :
  run client clock req payload (s1 ++ s2) sh
  = run client clock req payload s2 (run client clock req payload s1 sh).
Proof. unfold run. apply fold_left_app. Qed.

Lemma rank_three_steps (i : nat) (sh : shared) :
  rank (run client clock req payload [i; i; i] sh) i = 3%nat.
Proof.
  simpl.
  pose proof (proj2 (rank_step i i sh)) as H1.
  pose proof (proj2 (rank_step i i (step client clock req payload i sh))) as H2.
  pose proof (proj2 (rank_step i i (step client clock req payload i
                                      (step client clock req payload i sh)))) as H3.
  pose proof (rank_le_3 (step client clock req payload i
                           (step client clock req payload i
                              (step client clock req payload i sh))) i).
  lia.
Qed.

Lemma rank_drain (k m : nat) (sh : shared) (j : nat) :
  (k <= j < k + m)%nat ->
  rank (run client clock req payload (flat_map (fun i => [i; i; i]) (seq k m)) sh) j
  = 3%nat.
Proof.
  revert k sh. induction m as [|m IH]; intros k sh Hj; [lia|].
  simpl seq. simpl flat_map.
  change (k :: k :: k :: flat_map (fun i => [i; i; i]) (seq (S k) m))
    with ([k; k; k] ++ flat_map (fun i => [i; i; i]) (seq (S k) m)).
  rewrite run_app.
  destruct (Nat.eq_dec j k) as [->|Hne].
  - pose proof (rank_run (flat_map (fun i => [i; i; i]) (seq (S k) m))
                         (run client clock req payload [k; k; k] sh) k) as Hmono.
    rewrite rank_three_steps in Hmono.
    pose proof (rank_le_3 (run client clock req payload
                             (flat_map (fun i => [i; i; i]) (seq (S k) m))
                             (run client clock req payload [k; k; k] sh)) k).
    lia.
  - apply IH. lia.
Qed.

(** Once every goroutine has finished, no step changes anything: a
    schedule that runs all of them to the end is not altered by the drain
    that stands for [wg.Wait]. *)
Lemma run_idle (schedule : list nat) (sh : shared) :
  (forall j, rank sh j = 3%nat) ->
  run client clock req payload schedule sh = sh.
Proof.
  intro Hall. induction schedule as [|i rest IH]; simpl; [reflexivity|].
  assert (Hstep : step client clock req payload i sh = sh).
  { unfold step. specialize (Hall i). unfold rank in Hall.
    destruct (nth_error (routines sh) i) as [g|]; [|reflexivity].
    destruct (at_phase g); simpl in Hall; try discriminate. reflexivity. }
  rewrite Hstep. exact IH.
Qed.

Lemma all_finished (gs : list goroutine) :
  (forall j, (j < List.length gs)%nat ->
             exists g, nth_error gs j = Some g /\ at_phase g = Finished) ->
  finishedResults client payload gs = map (outcome client payload) (map device gs)
  /\ startedCalls client payload gs = flat_map (calls client payload) (map device gs).
Proof.
  induction gs as [|g gs IH]; intro H; [split; reflexivity|].
  destruct (H 0%nat) as (g0 & Hg0 & Hph); [simpl; lia|].
  simpl in Hg0. injection Hg0 as <-.
  destruct IH as [IH1 IH2].
  { intros j Hj. apply (H (S j)). simpl. lia. }
  unfold finishedResults, startedCalls in *. simpl.
  rewrite Hph, IH1, IH2. split; reflexivity.
Qed.

(** The fan-out, from its start to [wg.Wait]: whatever the schedule, the
    results are the lookup failures followed by one result per target, the
    counter counts the successes among those, and the upstream was called
    as the targets required. *)
Lemma fanout_complete (failures : list NoticeResult.t) (targets : list Device.t)
      (st : bolt.Store) (schedule : list nat) :
  let sh := run client clock req payload (schedule ++ drain (List.length targets))
                (mkShared st failures 0
                          (map (fun d => mkGoroutine d Spawned) targets) [] 0) in
  exists perDevice,
    results sh = failures ++ perDevice
    /\ Permutation perDevice (map (outcome client payload) targets)
    /\ successNum sh = countSuccess perDevice
    /\ Permutation (pushes sh) (flat_map (calls client payload) targets).
Proof.
  intro sh.
  assert (Hinv : fanout_inv client payload failures targets sh).
  { apply fanout_inv_run, fanout_inv_init. }
  destruct Hinv as (Hdev & _ & merged & Hres & Hperm & Hnum & Hcalls).
  assert (Hlen : List.length (routines sh) = List.length targets).
  { rewrite <- Hdev. symmetry. apply length_map. }
  destruct (all_finished (routines sh)) as [Hf Hs].
  { intros j Hj.
    assert (Hr : rank sh j = 3%nat).
    { unfold sh. rewrite run_app. unfold drain. apply rank_drain. lia. }
    unfold rank in Hr.
    destruct (nth_error (routines sh) j) as [g|] eqn:Hnth.
    - exists g. split; [reflexivity|].
      destruct (at_phase g); simpl in Hr; try discriminate; reflexivity.
    - apply nth_error_None in Hnth. lia. }
  rewrite Hdev in Hf, Hs. rewrite Hf in Hperm. rewrite Hs in Hcalls.
  exists merged. repeat split; assumption.
Qed.

End FanOut.

(** ** The dispatch engine: [Broadcast] *)

Section Dispatch.
Import NoticeService.
Context {tables : unicode.CaseTables}.

Lemma pickTargets_loop (st : bolt.Store) (keys : list string)
      (ds : list Device.t) (rs : list NoticeResult.t) :
  fold_left
    (fun (acc : list Device.t * list NoticeResult.t) key =>
       let '(devices, result) := acc in
       match bolt.GetDeviceByKey st key with
       | Err err => (devices, result ++ [NoticeResult.mk key FAILED (error_Error err)])
       | Ok device => (devices ++ [device], result)
       end) keys (ds, rs)
  = (ds ++ resolved st keys, rs ++ lookupFailures st keys).
Proof.
  revert ds rs. induction keys as [|k keys IH]; intros ds rs; simpl.
  - rewrite !app_nil_r. reflexivity.
  - destruct (bolt.GetDeviceByKey st k) as [d|e]; rewrite IH; simpl;
      rewrite <- ?app_assoc; reflexivity.
Qed.

Lemma pickTargets_keys (st : bolt.Store) (keys : list string) :
  keys <> [] -> pickTargets st keys = (resolved st keys, lookupFailures st keys).
Proof.
  intro Hne. unfold pickTargets. destruct keys as [|k keys]; [congruence|].
  change (List.length (k :: keys) =? 0)%nat with false. cbv iota.
  apply (pickTargets_loop st (k :: keys) [] []).
Qed.

Lemma pickTargets_all (st : bolt.Store) :
  pickTargets st [] = (filter countsAsActive (map snd (bolt.devices st)), []).
Proof. reflexivity. Qed.

Lemma outcome_shape (client : barkclient.Client) (payload : list (string * string))
      (d : Device.t) :
  NoticeResult.DeviceKey (outcome client payload d) = Device.DeviceKey d
  /\ (NoticeResult.Status (outcome client payload d) = SUCCESS
      \/ NoticeResult.Status (outcome client payload d) = FAILED).
Proof.
  unfold outcome, attempt.
  destruct (encryptPayload payload d) as [c|e]; simpl; [|auto].
  destruct (barkclient.SendEncryptedPush client (Device.DeviceKey d) c (Device.IV d))
    as [[r|]|e]; simpl; auto.
  destruct (barkclient.Code r =? 200); auto.
Qed.

Lemma calls_shape (client : barkclient.Client) (payload : list (string * string))
      (d : Device.t) (p : push) :
  In p (calls client payload d) -> fst (fst p) = Device.DeviceKey d.
Proof.
  unfold calls, attempt.
  destruct (encryptPayload payload d) as [c|e]; simpl; [|tauto].
  destruct (barkclient.SendEncryptedPush client (Device.DeviceKey d) c (Device.IV d))
    as [r|e]; simpl; intros [<-|[]]; reflexivity.
Qed.

(** [Broadcast] once it has targets: it returns no error, and what the
    fan-out produced. *)
Lemma Broadcast_fanout (s : NoticeService.t) (client : barkclient.Client)
      (clock : nat -> Time) (schedule : list nat) (req : NoticeRequest.t)
      (st : bolt.Store) (targets : list Device.t) (failures : list NoticeResult.t) :
  strings.TrimSpace (NoticeRequest.Body req) <> "" ->
  bark s = Some client ->
  pickTargets st (NoticeRequest.DeviceKeys req) = (targets, failures) ->
  targets <> [] ->
  exists perDevice st' calls',
    Broadcast s clock schedule req st
    = ((NoticeSummary.mk (Z.of_nat (List.length targets)) (countSuccess perDevice),
        failures ++ perDevice, None), st', calls')
    /\ Permutation perDevice (map (outcome client (payloadOf req)) targets)
    /\ Permutation calls' (flat_map (calls client (payloadOf req)) targets).
Proof.
  intros Hbody Hbark Hpick Hne.
  unfold Broadcast.
  apply eqb_empty_false in Hbody. rewrite Hbody, Hbark, Hpick.
  destruct targets as [|d ds]; [congruence|].
  change (List.length (d :: ds) =? 0)%nat with false. cbv iota.
  destruct (fanout_complete client clock req (payloadOf req) failures (d :: ds) st schedule)
    as (perDevice & Hres & Hperm & Hnum & Hcalls).
  eexists perDevice, _, _. split; [|split; eassumption].
  rewrite Hres, Hnum. reflexivity.
Qed.

Lemma Broadcast_no_targets (s : NoticeService.t) (client : barkclient.Client)
      (clock : nat -> Time) (schedule : list nat) (req : NoticeRequest.t)
      (st : bolt.Store) (failures : list NoticeResult.t) :
  strings.TrimSpace (NoticeRequest.Body req) <> "" ->
  bark s = Some client ->
  pickTargets st (NoticeRequest.DeviceKeys req) = ([], failures) ->
  Broadcast s clock schedule req st
  = ((NoticeSummary.zero, failures, Some (ErrorString "no target devices resolved")),
     st, []).
Proof.
  intros Hbody Hbark Hpick. unfold Broadcast.
  apply eqb_empty_false in Hbody. rewrite Hbody, Hbark, Hpick. reflexivity.
Qed.


(** Claim C6.  A request whose body is empty or white space only is
    rejected at once, with the error "body is required": the results are
    empty, the store (and with it the log) is the one passed in, and no
    call to the upstream service was made. *)
Theorem Broadcast_blank_body (s : NoticeService.t) (clock : nat -> Time)
        (schedule : list nat) (req : NoticeRequest.t) (st : bolt.Store) :
  strings.TrimSpace (NoticeRequest.Body req) = "" ->
  Broadcast s clock schedule req st
  = ((NoticeSummary.zero, [], Some (ErrorString "body is required")), st, []).
Proof.
  intro Hbody. unfold Broadcast. rewrite Hbody. reflexivity.
Qed.

(** Claim C2.  For a non-blank body, a configured client and a non-empty
    list of keys: [pickTargets] resolves each key on its own with
    [GetDeviceByKey], a key that fails gives a FAILED result carrying that
    key and the error, and the keys after it are still resolved; when no
    key resolves, [Broadcast] fails with "no target devices resolved" and
    still returns the lookup failures; for one unknown and one known key,
    in either order, it returns two results, the lookup failure first, and
    a summary with [SendNum = 1]. *)
Theorem Broadcast_explicit_keys (s : NoticeService.t) (client : barkclient.Client)
        (clock : nat -> Time) (schedule : list nat) (req : NoticeRequest.t)
        (st : bolt.Store) :
  strings.TrimSpace (NoticeRequest.Body req) <> "" ->
  bark s = Some client ->
  NoticeRequest.DeviceKeys req <> [] ->
  let keys := NoticeRequest.DeviceKeys req in
  pickTargets st keys = (resolved st keys, lookupFailures st keys)
  /\ (forall key err, In key keys -> bolt.GetDeviceByKey st key = Err err ->
        In (NoticeResult.mk key FAILED (error_Error err)) (lookupFailures st keys))
  /\ (forall key device, In key keys -> bolt.GetDeviceByKey st key = Ok device ->
        In device (resolved st keys))
  /\ (resolved st keys = [] ->
      Broadcast s clock schedule req st
      = ((NoticeSummary.zero, lookupFailures st keys,
          Some (ErrorString "no target devices resolved")), st, []))
  /\ (forall unknown known err device,
        bolt.GetDeviceByKey st unknown = Err err ->
        bolt.GetDeviceByKey st known = Ok device ->
        keys = [unknown; known] \/ keys = [known; unknown] ->
        exists summary st' calls',
          Broadcast s clock schedule req st
          = ((summary,
              [NoticeResult.mk unknown FAILED (error_Error err);
               outcome client (payloadOf req) device], None), st', calls')
          /\ NoticeSummary.SendNum summary = 1).
Proof.
  intros Hbody Hbark Hne keys.
  pose proof (pickTargets_keys st Hne) as Hpick. fold keys in Hpick.
  split; [exact Hpick|]. split; [|split; [|split]].
  - intros key err Hin Hget. unfold lookupFailures. apply in_flat_map.
    exists key. split; [exact Hin|]. rewrite Hget. left. reflexivity.
  - intros key device Hin Hget. unfold resolved. apply in_flat_map.
    exists key. split; [exact Hin|]. rewrite Hget. left. reflexivity.
  - intro Hnone. apply Broadcast_no_targets with (client := client); try assumption.
    fold keys. rewrite Hpick, Hnone. reflexivity.
  - intros unknown known err device Hu Hk Hkeys.
    assert (Hres : resolved st keys = [device]
                   /\ lookupFailures st keys
                      = [NoticeResult.mk unknown FAILED (error_Error err)]).
    { unfold resolved, lookupFailures.
      destruct Hkeys as [-> | ->]; simpl; rewrite Hu, Hk; split; reflexivity. }
    destruct Hres as [Hr Hf]. rewrite Hr, Hf in Hpick.
    destruct (Broadcast_fanout s clock schedule req st Hbody Hbark Hpick)
      as (perDevice & st' & calls' & HB & Hperm & _); [discriminate|].
    simpl in Hperm. apply Permutation_sym, Permutation_length_1_inv in Hperm.
    subst perDevice. eexists _, st', calls'. split; [exact HB|]. reflexivity.
Qed.

(** Claim C7, as the code has it.  A broadcast that names no keys goes to
    the stored devices, in key order, whose status after trimming white
    space and upper-casing is empty or ACTIVE, and to no others: every
    call it makes to the upstream service is addressed to the key of such
    a device.  A device whose normalised status is anything else (STOP,
    for one) is not among the targets. *)
Theorem Broadcast_unnamed_targets (st : bolt.Store) :
  pickTargets st [] = (filter countsAsActive (map snd (bolt.devices st)), [])
  /\ (forall d, In d (fst (pickTargets st [])) <->
                In d (map snd (bolt.devices st)) /\ countsAsActive d = true)
  /\ (forall s clock schedule req p,
        NoticeRequest.DeviceKeys req = [] ->
        In p (snd (Broadcast s clock schedule req st)) ->
        exists d, In d (map snd (bolt.devices st)) /\ countsAsActive d = true
                  /\ fst (fst p) = Device.DeviceKey d).
Proof.
  split; [reflexivity|]. split.
  - intro d. rewrite pickTargets_all. simpl. apply filter_In.
  - intros s clock schedule req p Hkeys Hp.
    destruct (String.eqb (strings.TrimSpace (NoticeRequest.Body req)) "") eqn:Hbody.
    { unfold Broadcast in Hp. rewrite Hbody in Hp. destruct Hp. }
    apply eqb_empty_false in Hbody.
    destruct (bark s) as [client|] eqn:Hbark.
    2:{ unfold Broadcast in Hp.
        apply eqb_empty_false in Hbody. rewrite Hbody, Hbark in Hp. destruct Hp. }
    pose proof (pickTargets_all st) as Hpick. rewrite <- Hkeys in Hpick.
    destruct (filter countsAsActive (map snd (bolt.devices st))) as [|d0 ds] eqn:Hf.
    { rewrite (Broadcast_no_targets s clock schedule req st Hbody Hbark Hpick) in Hp.
      destruct Hp. }
    destruct (Broadcast_fanout s clock schedule req st Hbody Hbark Hpick)
      as (perDevice & st' & calls' & HB & _ & Hcalls); [discriminate|].
    rewrite HB in Hp. simpl in Hp.
    apply (Permutation_in _ Hcalls) in Hp. apply in_flat_map in Hp.
    destruct Hp as (d & Hd & Hpd).
    rewrite <- Hf in Hd. apply filter_In in Hd. destruct Hd as [Hin Hact].
    exists d. repeat split; try assumption.
    eapply calls_shape; eassumption.
Qed.

End Dispatch.

(** ** The store *)

Section Store.

Lemma compare_refl (s : string) : String.compare s s = Eq.
Proof.
  induction s as [|c s IH]; simpl; [reflexivity|].
  unfold Ascii.compare. rewrite N.compare_refl. exact IH.
Qed.

Lemma compare_Eq_iff (a b : string) : String.compare a b = Eq <-> a = b.
Proof.
  split; [apply String.compare_eq_iff | intros ->; apply compare_refl].
Qed.

(** What is stored under a key after [Put]. *)
Lemma Get_insert {V : Type} (k k' : string) (v : V) (b : bolt.bucket V) :
  bolt.Get k' (bolt.insert k v b)
  = if String.eqb k' k then Some v else bolt.Get k' b.
Proof.
  induction b as [|[k0 v0] b IH]; simpl; [reflexivity|].
  destruct (String.compare k k0) eqn:Hc; simpl.
  - apply compare_Eq_iff in Hc. subst k0.
    destruct (String.eqb k' k); reflexivity.
  - reflexivity.
  - rewrite IH.
    destruct (String.eqb_spec k' k0) as [->|Hne]; [|reflexivity].
    destruct (String.eqb_spec k0 k) as [->|_]; [|reflexivity].
    rewrite compare_refl in Hc. discriminate.
Qed.

Lemma keyed_insert (d : Device.t) (b : bolt.bucket Device.t) :
  keyed b -> keyed (bolt.insert (Device.DeviceToken d) d b).
Proof.
  unfold keyed. induction b as [|[k0 v0] b IH]; intro H; simpl.
  - constructor; [reflexivity | constructor].
  - inversion H as [|? ? H0 Hb]; subst.
    destruct (String.compare (Device.DeviceToken d) k0).
    + constructor; [reflexivity | exact Hb].
    + constructor; [reflexivity | exact H].
    + constructor; [exact H0 | apply IH; exact Hb].
Qed.

Lemma UpsertDevice_inv (now : Time) (device dev : Device.t) (st st' : bolt.Store) :
  bolt.UpsertDevice now device st = Ok (dev, st') ->
  dev = Device.set_UpdatedAt
          (if IsZero (Device.CreatedAt device) then Device.set_CreatedAt device now
           else device) now
  /\ bolt.devices st' = bolt.insert (Device.DeviceToken dev) dev (bolt.devices st)
  /\ bolt.notice_logs st' = bolt.notice_logs st
  /\ bolt.sequence st' = bolt.sequence st
  /\ len (Device.DeviceToken dev) <> 0
  /\ len (Device.DeviceToken dev) <= bolt.MaxKeySize.
Proof.
  unfold bolt.UpsertDevice, bolt.Put.
  set (stamped := Device.set_UpdatedAt _ now).
  destruct (Z.eqb_spec (len (Device.DeviceToken stamped)) 0) as [|Hz];
    [discriminate|].
  destruct (Z.ltb_spec bolt.MaxKeySize (len (Device.DeviceToken stamped))) as [|Hm];
    [discriminate|].
  simpl. intro H. injection H as <- <-. simpl. repeat split; assumption.
Qed.

Lemma UpsertDevice_fields (now : Time) (device dev : Device.t) (st st' : bolt.Store) :
  bolt.UpsertDevice now device st = Ok (dev, st') ->
  Device.DeviceToken dev = Device.DeviceToken device
  /\ Device.DeviceKey dev = Device.DeviceKey device
  /\ Device.Name dev = Device.Name device
  /\ Device.EncodeKey dev = Device.EncodeKey device
  /\ Device.IV dev = Device.IV device
  /\ Device.Status dev = Device.Status device.
Proof.
  intro H. apply UpsertDevice_inv in H. destruct H as (-> & _).
  destruct (IsZero (Device.CreatedAt device)); repeat split.
Qed.

Lemma UpsertDevice_again (now now' : Time) (device dev device' : Device.t)
      (st st' st0 : bolt.Store) :
  bolt.UpsertDevice now device st = Ok (dev, st') ->
  Device.DeviceToken device' = Device.DeviceToken device ->
  exists dev' st'', bolt.UpsertDevice now' device' st0 = Ok (dev', st'').
Proof.
  intros H Htok. apply UpsertDevice_inv in H.
  destruct H as (Hdev & _ & _ & _ & Hz & Hm).
  assert (Ht : Device.DeviceToken dev = Device.DeviceToken device).
  { rewrite Hdev. destruct (IsZero (Device.CreatedAt device)); reflexivity. }
  rewrite Ht, <- Htok in Hz, Hm.
  unfold bolt.UpsertDevice, bolt.Put.
  set (stamped := Device.set_UpdatedAt _ now').
  assert (Hs : Device.DeviceToken stamped = Device.DeviceToken device').
  { unfold stamped. destruct (IsZero (Device.CreatedAt device')); reflexivity. }
  rewrite Hs.
  destruct (Z.eqb_spec (len (Device.DeviceToken device')) 0) as [|_]; [contradiction|].
  destruct (Z.ltb_spec bolt.MaxKeySize (len (Device.DeviceToken device'))) as [|_];
    [lia|].
  simpl. eauto.
Qed.

(** [GetDevice] answers with the first record of the bucket, whatever the
    token asked for. *)
Lemma GetDevice_first (st : bolt.Store) (token : string) :
  bolt.GetDevice st token
  = match bolt.devices st with
    | [] => Err ErrNotFound
    | kv :: _ => Ok (snd kv)
    end.
Proof.
  unfold bolt.GetDevice, bolt.getByKey. destruct (bolt.devices st); reflexivity.
Qed.

End Store.

(** ** The device registry *)

Lemma length_string_of_list_ascii (l : list ascii) :
  String.length (string_of_list_ascii l) = List.length l.
Proof. induction l as [|c l IH]; simpl; congruence. Qed.

Lemma GenerateString_ok (n : Z) (rnd rnd' : list Z) (g : string) :
  crypto.GenerateString n rnd = (Ok g, rnd') -> len g = n /\ 0 < n /\ g <> "".
Proof.
  unfold crypto.GenerateString.
  destruct (Z.leb_spec n 0) as [|Hn]; [discriminate|].
  destruct (Nat.ltb_spec (List.length rnd) (Z.to_nat n)) as [|Hlen]; [discriminate|].
  intro H. injection H as <- _.
  assert (Hl : len (string_of_list_ascii
                      (map (fun b => crypto.letter (b mod len crypto.letters))
                           (firstn (Z.to_nat n) rnd))) = n).
  { unfold len at 1. rewrite length_string_of_list_ascii, length_map, length_firstn. lia. }
  repeat split; try assumption.
  intro E. rewrite E in Hl. unfold len in Hl. simpl in Hl. lia.
Qed.

Section Registry.
Import DeviceService.
Context {tables : unicode.CaseTables}.

Lemma firstNonEmpty_status (status : string) :
  firstNonEmpty [strings.ToUpper status; DeviceStatusActive] = normalizedStatus status.
Proof.
  unfold normalizedStatus. simpl.
  destruct (String.eqb (strings.TrimSpace (strings.ToUpper status)) ""); reflexivity.
Qed.

Lemma Upsert_load_first (st : bolt.Store) (req : DeviceRequest.t) :
  Upsert_load st req
  = Ok (match bolt.devices st with
        | [] => Device.new (DeviceRequest.DeviceToken req)
        | kv :: _ => snd kv
        end).
Proof.
  unfold Upsert_load. rewrite GetDevice_first.
  destruct (bolt.devices st); reflexivity.
Qed.

(** What [Upsert_merge] leaves in the record when it succeeds. *)
Lemma Upsert_merge_inv (s : t) (req : DeviceRequest.t) (d m : Device.t)
      (rnd rnd' : list Z) :
  Upsert_merge s req d rnd = (Ok m, rnd') ->
  Device.DeviceToken m = Device.DeviceToken d
  /\ Device.CreatedAt m = Device.CreatedAt d
  /\ Device.Name m = DeviceRequest.Name req
  /\ Device.Status m = normalizedStatus (DeviceRequest.Status req)
  /\ Device.DeviceKey m
     = (if String.eqb (DeviceRequest.DeviceKey req) "" then Device.DeviceKey d
        else DeviceRequest.DeviceKey req)
  /\ (DeviceRequest.EncodeKey req <> "" -> Device.EncodeKey m = DeviceRequest.EncodeKey req)
  /\ (DeviceRequest.EncodeKey req = "" -> Device.EncodeKey d <> "" ->
      Device.EncodeKey m = Device.EncodeKey d)
  /\ (DeviceRequest.IV req <> "" -> Device.IV m = DeviceRequest.IV req)
  /\ (DeviceRequest.IV req = "" -> Device.IV d <> "" -> Device.IV m = Device.IV d)
  /\ (DeviceRequest.IV req = "" -> Device.IV m <> "").
Proof.
  unfold Upsert_merge. rewrite firstNonEmpty_status. device_fields.
  intro H.
  destruct (String.eqb_spec (DeviceRequest.EncodeKey req) "") as [Ek|Ek];
    [destruct (String.eqb_spec (Device.EncodeKey d) "") as [Dk|Dk];
     [destruct (crypto.GenerateString (config.KeyBytes (cfg s)) rnd) as [[g|e] rnd1];
      [|discriminate]|]|];
    device_fields;
    (destruct (String.eqb_spec (DeviceRequest.IV req) "") as [Ei|Ei];
     [destruct (String.eqb_spec (Device.IV d) "") as [Di|Di];
      [match type of H with
       | context [crypto.GenerateString ?n ?r] =>
         destruct (crypto.GenerateString n r) as [[g'|e'] rnd2] eqn:Hgen;
         [apply GenerateString_ok in Hgen|discriminate]
       end|]|]);
    device_fields;
    injection H as <- <-;
    destruct (String.eqb (DeviceRequest.DeviceKey req) ""); device_fields;
    repeat split; try congruence; try tauto.
Qed.

(** When the request or the record has a secret, and the request or the
    record has an iv, the merge succeeds and leaves the random source
    alone. *)
Lemma Upsert_merge_no_generation (s : t) (req : DeviceRequest.t) (d : Device.t)
      (rnd : list Z) :
  DeviceRequest.EncodeKey req <> "" \/ Device.EncodeKey d <> "" ->
  DeviceRequest.IV req <> "" \/ Device.IV d <> "" ->
  exists m, Upsert_merge s req d rnd = (Ok m, rnd).
Proof.
  intros Hk Hi. unfold Upsert_merge. device_fields.
  destruct (String.eqb_spec (DeviceRequest.EncodeKey req) "") as [Ek|Ek];
    [destruct (String.eqb_spec (Device.EncodeKey d) "") as [Dk|Dk]; [tauto|]|];
    device_fields;
    (destruct (String.eqb_spec (DeviceRequest.IV req) "") as [Ei|Ei];
     [destruct (String.eqb_spec (Device.IV d) "") as [Di|Di]; [tauto|]|]);
    eauto.
Qed.

Lemma Upsert_register_inv (s : t) (req : DeviceRequest.t) (m r : Device.t) :
  Upsert_register s req m = Ok r ->
  Device.DeviceToken r = Device.DeviceToken m
  /\ Device.CreatedAt r = Device.CreatedAt m
  /\ Device.Name r = Device.Name m
  /\ Device.Status r = Device.Status m
  /\ Device.EncodeKey r = Device.EncodeKey m
  /\ Device.IV r = Device.IV m
  /\ Device.DeviceKey r <> ""
  /\ (Device.DeviceKey m <> "" -> r = m).
Proof.
  unfold Upsert_register.
  destruct (String.eqb_spec (Device.DeviceKey m) "") as [Hk|Hk].
  - destruct (bark s) as [client|]; [|discriminate].
    destruct (barkclient.Register client (DeviceRequest.DeviceToken req)
                                  (DeviceRequest.RegisterKey req)) as [[resp|]|e];
      try discriminate.
    destruct (String.eqb_spec (barkclient.DeviceKey (barkclient.Data resp)) "")
      as [|Hr]; [discriminate|].
    intro H. injection H as <-. device_fields. repeat split; try assumption.
    intro Hne. contradiction.
  - intro H. injection H as <-. repeat split; assumption.
Qed.

(** The ways [Upsert] can end: with an error and the store it was given,
    or with a device that went through load, merge, validation,
    registration and the write. *)
Lemma Upsert_inv (s : t) (req : DeviceRequest.t) (now : Time) (st st' : bolt.Store)
      (rnd rnd' : list Z) (r : result Device.t) :
  Upsert s req now st rnd = (r, st', rnd') ->
  (exists e, r = Err e /\ st' = st)
  \/ (exists loaded merged registered dev,
        r = Ok dev
        /\ strings.TrimSpace (DeviceRequest.DeviceToken req) <> ""
        /\ Upsert_load st req = Ok loaded
        /\ Upsert_merge s req loaded rnd = (Ok merged, rnd')
        /\ isValidKeyLength (Device.EncodeKey merged) = true
        /\ len (Device.IV merged) = config.IVBytes (cfg s)
        /\ Upsert_register s req merged = Ok registered
        /\ bolt.UpsertDevice now registered st = Ok (dev, st')).
Proof.
  unfold Upsert.
  destruct (String.eqb_spec (strings.TrimSpace (DeviceRequest.DeviceToken req)) "")
    as [|Htok].
  { intro H. injection H as <- <- <-. left. eauto. }
  destruct (Upsert_load st req) as [loaded|e].
  2:{ intro H. injection H as <- <- <-. left. eauto. }
  destruct (Upsert_merge s req loaded rnd) as [[merged|e] rnd1] eqn:Hm.
  2:{ intro H. injection H as <- <- <-. left. eauto. }
  destruct (isValidKeyLength (Device.EncodeKey merged)) eqn:Hv; simpl.
  2:{ intro H. injection H as <- <- <-. left. eauto. }
  destruct (Z.eqb_spec (len (Device.IV merged)) (config.IVBytes (cfg s))) as [Hiv|];
    simpl.
  2:{ intro H. injection H as <- <- <-. left. eauto. }
  destruct (Upsert_register s req merged) as [registered|e] eqn:Hr.
  2:{ intro H. injection H as <- <- <-. left. eauto. }
  destruct (bolt.UpsertDevice now registered st) as [[dev st1]|e] eqn:Hu.
  2:{ intro H. injection H as <- <- <-. left. eauto. }
  intro H. injection H as <- <- <-. right.
  exists loaded, merged, registered, dev. repeat split; assumption.
Qed.

(** Where the random source stands after [Upsert]. *)
Lemma Upsert_rnd (s : t) (req : DeviceRequest.t) (now : Time) (st : bolt.Store)
      (rnd : list Z) :
  snd (Upsert s req now st rnd) = rnd
  \/ exists loaded, Upsert_load st req = Ok loaded
                    /\ snd (Upsert s req now st rnd)
                       = snd (Upsert_merge s req loaded rnd).
Proof.
  unfold Upsert.
  destruct (String.eqb (strings.TrimSpace (DeviceRequest.DeviceToken req)) "");
    [left; reflexivity|].
  destruct (Upsert_load st req) as [loaded|e]; [|left; reflexivity].
  right. exists loaded. split; [reflexivity|].
  destruct (Upsert_merge s req loaded rnd) as [[merged|e] rnd1]; [|reflexivity].
  destruct (negb (isValidKeyLength (Device.EncodeKey merged))); [reflexivity|].
  destruct (negb (len (Device.IV merged) =? config.IVBytes (cfg s))); [reflexivity|].
  destruct (Upsert_register s req merged) as [registered|e]; [|reflexivity].
  destruct (bolt.UpsertDevice now registered st) as [[dev st1]|e]; reflexivity.
Qed.

End Registry.

Section RegistryClaims.
Import DeviceService.
Context {tables : unicode.CaseTables}.

Lemma isValidKeyLength_false (key : string) :
  isValidKeyLength key = false <-> len key <> 16 /\ len key <> 24 /\ len key <> 32.
Proof.
  unfold isValidKeyLength.
  destruct (Z.eqb_spec (len key) 16), (Z.eqb_spec (len key) 24),
           (Z.eqb_spec (len key) 32); simpl; split; intro H;
    try discriminate; try reflexivity; try lia.
Qed.

(** Claim C5.  When the secret that [Upsert] ends up with (the request
    merged into the loaded record) has a length other than 16, 24 or 32,
    or the iv it ends up with a length other than the configured one,
    [Upsert] returns one of the two credential errors, and the store it
    returns is the store it was given: nothing was written. *)
Theorem Upsert_invalid_credential (s : t) (req : DeviceRequest.t) (now : Time)
        (st : bolt.Store) (rnd rnd' : list Z) (loaded merged : Device.t) :
  strings.TrimSpace (DeviceRequest.DeviceToken req) <> "" ->
  Upsert_load st req = Ok loaded ->
  Upsert_merge s req loaded rnd = (Ok merged, rnd') ->
  (len (Device.EncodeKey merged) <> 16 /\ len (Device.EncodeKey merged) <> 24
   /\ len (Device.EncodeKey merged) <> 32)
  \/ len (Device.IV merged) <> config.IVBytes (cfg s) ->
  exists e,
    Upsert s req now st rnd = (Err e, st, rnd') /\ InvalidCredential (cfg s) e.
Proof.
  intros Htok Hload Hmerge Hbad. unfold Upsert.
  apply eqb_empty_false in Htok. rewrite Htok, Hload, Hmerge.
  destruct (isValidKeyLength (Device.EncodeKey merged)) eqn:Hv; simpl.
  - destruct Hbad as [Hbad|Hbad].
    + apply isValidKeyLength_false in Hbad. congruence.
    + destruct (Z.eqb_spec (len (Device.IV merged)) (config.IVBytes (cfg s)));
        [contradiction|]. simpl.
      eexists. split; [reflexivity|]. right. reflexivity.
  - eexists. split; [reflexivity|]. left. reflexivity.
Qed.


(** A successful [Upsert] writes the request's name, as it is, into the
    record it loaded, and stores that record under the record's token. *)
Lemma Upsert_name (s : t) (req : DeviceRequest.t) (now : Time)
      (st st' : bolt.Store) (rnd rnd' : list Z) (dev : Device.t) :
  Upsert s req now st rnd = (Ok dev, st', rnd') ->
  Device.Name dev = DeviceRequest.Name req
  /\ bolt.Get (Device.DeviceToken dev) (bolt.devices st') = Some dev
  /\ Device.DeviceToken dev
     = match bolt.devices st with
       | [] => DeviceRequest.DeviceToken req
       | kv :: _ => Device.DeviceToken (snd kv)
       end.
Proof.
  intro H. apply Upsert_inv in H.
  destruct H as [(e & He & _) | (loaded & merged & registered & dev' & Hr & _ & Hl
                                 & Hm & _ & _ & Hreg & Hup)]; [discriminate|].
  injection Hr as <-.
  apply Upsert_merge_inv in Hm. destruct Hm as (Ht & _ & Hn & _).
  apply Upsert_register_inv in Hreg. destruct Hreg as (Ht' & _ & Hn' & _).
  pose proof (UpsertDevice_fields _ _ _ Hup) as (Ht'' & _ & Hn'' & _).
  apply UpsertDevice_inv in Hup. destruct Hup as (_ & Hdevs & _).
  rewrite Upsert_load_first in Hl. injection Hl as Hl.
  split; [congruence|]. split.
  - rewrite Hdevs, Get_insert, String.eqb_refl. reflexivity.
  - rewrite Ht'', Ht', Ht, <- Hl. destruct (bolt.devices st); reflexivity.
Qed.

(** When the bucket starts with the record of another token, a successful
    [Upsert] changes that record and leaves the one of the request's token
    as it was. *)
Lemma Upsert_hits_first_record (s : t) (req : DeviceRequest.t) (now : Time)
      (st st' : bolt.Store) (rnd rnd' : list Z) (dev : Device.t)
      (kv : string * Device.t) (rest : bolt.bucket Device.t) :
  bolt.devices st = kv :: rest ->
  Device.DeviceToken (snd kv) <> DeviceRequest.DeviceToken req ->
  Upsert s req now st rnd = (Ok dev, st', rnd') ->
  Device.DeviceToken dev = Device.DeviceToken (snd kv)
  /\ bolt.Get (DeviceRequest.DeviceToken req) (bolt.devices st')
     = bolt.Get (DeviceRequest.DeviceToken req) (bolt.devices st).
Proof.
  intros Hdevs Hne H.
  pose proof (Upsert_name _ _ _ _ _ H) as (_ & _ & Htok). rewrite Hdevs in Htok.
  split; [exact Htok|].
  apply Upsert_inv in H.
  destruct H as [(e & He & _) | (loaded & merged & registered & dev' & Hr & _ & _
                                 & _ & _ & _ & _ & Hup)]; [discriminate|].
  injection Hr as <-.
  apply UpsertDevice_inv in Hup. destruct Hup as (_ & Hd & _).
  rewrite Hd, Get_insert, Htok.
  destruct (String.eqb_spec (DeviceRequest.DeviceToken req)
                            (Device.DeviceToken (snd kv))); [congruence|reflexivity].
Qed.

(** The bucket invariant is kept, and a bucket that holds a record gets no
further one: [Upsert] rewrites the first record. *)
Lemma Upsert_keeps_keyed (s : t) (req : DeviceRequest.t) (now : Time)
      (st : bolt.Store) (rnd : list Z) :
keyed (bolt.devices st) ->
keyed (bolt.devices (snd (fst (Upsert s req now st rnd))))
/\ (bolt.devices st <> [] ->
    List.length (bolt.devices (snd (fst (Upsert s req now st rnd))))
    = List.length (bolt.devices st)).
Proof.
intro Hkeyed.
destruct (Upsert s req now st rnd) as [[r st'] rnd'] eqn:HU. simpl.
pose proof HU as HU'. apply Upsert_inv in HU.
destruct HU as [(e & _ & ->) | (loaded & merged & registered & dev & -> & _ & _
                                & _ & _ & _ & _ & Hup)]; [tauto|].
pose proof (Upsert_name _ _ _ _ _ HU') as (_ & _ & Htok).
apply UpsertDevice_inv in Hup. destruct Hup as (_ & Hdevs & _).
rewrite Hdevs. split; [apply keyed_insert; exact Hkeyed|].
intros Hne. destruct (bolt.devices st) as [|[k0 f] rest]; [congruence|].
inversion Hkeyed as [|? ? Hk0 _]; subst. simpl in Hk0, Htok.
simpl. rewrite Htok, Hk0, compare_refl. reflexivity.
Qed.

(** First part of the preservation property: what is stored under the request's token keeps
    its secret and its iv when the request omits them. *)
Lemma Upsert_keeps_stored_credentials (s : t) (req : DeviceRequest.t) (now : Time)
      (st : bolt.Store) (rnd : list Z) (d : Device.t) :
  keyed (bolt.devices st) ->
  bolt.Get (DeviceRequest.DeviceToken req) (bolt.devices st) = Some d ->
  exists d',
    bolt.Get (DeviceRequest.DeviceToken req)
             (bolt.devices (snd (fst (Upsert s req now st rnd)))) = Some d'
    /\ (DeviceRequest.EncodeKey req = "" -> Device.EncodeKey d <> "" ->
        Device.EncodeKey d' = Device.EncodeKey d)
    /\ (DeviceRequest.IV req = "" -> Device.IV d <> "" -> Device.IV d' = Device.IV d).
Proof.
  intros Hkeyed Hget.
  destruct (Upsert s req now st rnd) as [[r st'] rnd'] eqn:HU. simpl.
  apply Upsert_inv in HU.
  destruct HU as [(e & _ & ->) | (loaded & merged & registered & dev & _ & _ & Hl
                                  & Hm & _ & _ & Hreg & Hup)].
  { exists d. repeat split; assumption. }
  apply Upsert_merge_inv in Hm.
  destruct Hm as (Ht & _ & _ & _ & _ & _ & Hk & _ & Hi & _).
  apply Upsert_register_inv in Hreg.
  destruct Hreg as (Ht' & _ & _ & _ & Hk' & Hi' & _).
  pose proof (UpsertDevice_fields _ _ _ Hup) as (Ht'' & _ & _ & Hk'' & Hi'' & _).
  apply UpsertDevice_inv in Hup. destruct Hup as (_ & Hdevs & _).
  rewrite Upsert_load_first in Hl. injection Hl as Hl.
  rewrite Hdevs, Get_insert.
  destruct (String.eqb_spec (DeviceRequest.DeviceToken req) (Device.DeviceToken dev))
    as [Heq|Hne].
  2:{ exists d. repeat split; assumption. }
  exists dev. split; [reflexivity|].
  destruct (bolt.devices st) as [|[k0 f] rest] eqn:Hb; [discriminate|].
  simpl in Hl. subst loaded.
  inversion Hkeyed as [|? ? Hk0 _]; subst. simpl in Hk0.
  assert (Hd : d = f).
  { simpl in Hget.
    replace (String.eqb (DeviceRequest.DeviceToken req) k0) with true in Hget
      by (symmetry; apply String.eqb_eq; congruence).
    congruence. }
  subst d. split; intros Hreq Hdev.
  - rewrite Hk'', Hk'. apply Hk; assumption.
  - rewrite Hi'', Hi'. apply Hi; assumption.
Qed.

(** Second part: random material is drawn only when the request
    and the record [Upsert] loaded both lack the secret, or both lack the
    iv. *)
Lemma Upsert_generates_only_when_lacking (s : t) (req : DeviceRequest.t) (now : Time)
      (st : bolt.Store) (rnd : list Z) (loaded : Device.t) :
  Upsert_load st req = Ok loaded ->
  snd (Upsert s req now st rnd) <> rnd ->
  (DeviceRequest.EncodeKey req = "" /\ Device.EncodeKey loaded = "")
  \/ (DeviceRequest.IV req = "" /\ Device.IV loaded = "").
Proof.
  intros Hl Hrnd.
  destruct (string_dec (DeviceRequest.EncodeKey req) "") as [Ek|Ek];
    destruct (string_dec (Device.EncodeKey loaded) "") as [Dk|Dk]; try tauto;
    destruct (string_dec (DeviceRequest.IV req) "") as [Ei|Ei];
    destruct (string_dec (Device.IV loaded) "") as [Di|Di]; try tauto;
    exfalso; apply Hrnd;
    (destruct (Upsert_rnd s req now st rnd) as [H|(l & Hl' & H)]; [exact H|]);
    rewrite Hl in Hl'; injection Hl' as <-; rewrite H;
    (destruct (@Upsert_merge_no_generation _ s req loaded rnd) as [m ->];
     [tauto|tauto|reflexivity]).
Qed.

(** Third part: after a successful [Upsert] that omitted secret
    and iv, the same request succeeds again, draws nothing from the random
    source and leaves the stored secret and iv as they were. *)
Lemma Upsert_twice (s : t) (req : DeviceRequest.t) (now now2 : Time)
      (st st1 : bolt.Store) (rnd rnd1 rnd2 : list Z) (dev : Device.t) :
  keyed (bolt.devices st) ->
  DeviceRequest.EncodeKey req = "" ->
  DeviceRequest.IV req = "" ->
  Upsert s req now st rnd = (Ok dev, st1, rnd1) ->
  exists dev2 st2,
    Upsert s req now2 st1 rnd2 = (Ok dev2, st2, rnd2)
    /\ Device.DeviceToken dev2 = Device.DeviceToken dev
    /\ Device.EncodeKey dev2 = Device.EncodeKey dev
    /\ Device.IV dev2 = Device.IV dev
    /\ bolt.Get (Device.DeviceToken dev) (bolt.devices st1) = Some dev
    /\ bolt.Get (Device.DeviceToken dev) (bolt.devices st2) = Some dev2.
Proof.
  intros Hkeyed Ek Ei HU.
  pose proof (Upsert_name _ _ _ _ _ HU) as (_ & Hstored & Htok).
  apply Upsert_inv in HU.
  destruct HU as [(e & He & _) | (loaded & merged & registered & dev' & Hr & Hreq & Hl
                                  & Hm & Hv & Hiv & Hreg & Hup)]; [discriminate|].
  injection Hr as <-.
  apply Upsert_merge_inv in Hm.
  destruct Hm as (_ & _ & _ & _ & _ & _ & _ & _ & _ & Hivne).
  specialize (Hivne Ei).
  pose proof (Upsert_register_inv _ _ _ Hreg) as (Ht' & _ & _ & _ & Hk' & Hi' & Hdk & _).
  pose proof (UpsertDevice_fields _ _ _ Hup) as (Ht'' & Hdk'' & _ & Hk'' & Hi'' & _).
  pose proof (UpsertDevice_inv _ _ _ Hup) as (_ & Hdevs & _).
  (* the second call loads the record the first one wrote *)
  assert (Hfirst : exists rest, bolt.devices st1 = (Device.DeviceToken dev, dev) :: rest).
  { rewrite Hdevs. destruct (bolt.devices st) as [|[k0 f] rest] eqn:Hb.
    - simpl. eauto.
    - simpl in Htok. inversion Hkeyed as [|? ? Hk0 _]; subst. simpl in Hk0.
      simpl. rewrite Htok, Hk0, compare_refl. eauto. }
  destruct Hfirst as [rest Hfirst].
  assert (Hl2 : Upsert_load st1 req = Ok dev).
  { rewrite Upsert_load_first, Hfirst. reflexivity. }
  assert (Hkne : Device.EncodeKey dev <> "").
  { intro E. rewrite Hk'', Hk' in E. rewrite E in Hv. discriminate. }
  assert (Hine : Device.IV dev <> "") by (rewrite Hi'', Hi'; exact Hivne).
  destruct (@Upsert_merge_no_generation _ s req dev rnd2) as [m2 Hm2]; [tauto|tauto|].
  pose proof (Upsert_merge_inv _ _ _ _ Hm2)
    as (Ht2 & _ & _ & _ & Hdk2 & _ & Hk2 & _ & Hi2 & _).
  specialize (Hk2 Ek Hkne). specialize (Hi2 Ei Hine).
  assert (Hdk2' : Device.DeviceKey m2 <> "").
  { rewrite Hdk2. destruct (String.eqb_spec (DeviceRequest.DeviceKey req) "");
      [rewrite Hdk''; exact Hdk | assumption]. }
  assert (Hreg2 : Upsert_register s req m2 = Ok m2).
  { unfold Upsert_register. apply eqb_empty_false in Hdk2'. rewrite Hdk2'. reflexivity. }
  destruct (@UpsertDevice_again now now2 registered dev m2 st st1 st1 Hup)
    as (dev2 & st2 & Hup2); [congruence|].
  pose proof (UpsertDevice_fields _ _ _ Hup2) as (Ht3 & _ & _ & Hk3 & Hi3 & _).
  pose proof (UpsertDevice_inv _ _ _ Hup2) as (_ & Hdevs2 & _).
  exists dev2, st2.
  assert (Htok2 : Device.DeviceToken dev2 = Device.DeviceToken dev) by congruence.
  split; [|repeat split; try congruence].
  - unfold Upsert. apply eqb_empty_false in Hreq. rewrite Hreq, Hl2, Hm2.
    replace (isValidKeyLength (Device.EncodeKey m2)) with true by congruence.
    replace (len (Device.IV m2) =? config.IVBytes (cfg s)) with true
      by (symmetry; apply Z.eqb_eq; congruence).
    simpl. rewrite Hreg2, Hup2. reflexivity.
  - rewrite Hdevs2, Get_insert, Htok2, String.eqb_refl. reflexivity.
Qed.


End RegistryClaims.

(** ** The properties on concrete inputs *)

(** Claim C10, at an input on which the code departs from it.  The store
    holds [tok-a] ("Phone A") and [tok-b] ("Phone B"); the request is for
    [tok-b] and has an empty name.  [GetDevice] answers with the first
    record of the bucket, [tok-a]: [Upsert] succeeds, returns and rewrites
    the record of [tok-a], whose name it erases, and the record stored under
    [tok-b] keeps the name "Phone B". *)
Theorem Upsert_name_misses_token :
  exists dev st',
    DeviceService.Upsert (tables := sample.caseTables) sample.registry
      (sample.request "tok-b" "k-b" "" "STOP") 20 sample.twoDevices sample.rnd
    = (Ok dev, st', sample.rnd)
    /\ Device.DeviceToken dev = "tok-a"
    /\ bolt.Get "tok-b" (bolt.devices st')
       = Some (sample.deviceOf "tok-b" "k-b" "Phone B" "STOP")
    /\ option_map Device.Name (bolt.Get "tok-a" (bolt.devices st')) = Some "".
Proof.
  eexists _, _. split; [vm_compute; reflexivity|].
  repeat split.
Qed.

(** On a store that holds only the request's device, the same request
    erases the name of that device. *)
Example Upsert_name_single_device :
  exists dev st',
    DeviceService.Upsert (tables := sample.caseTables) sample.registry
      (sample.request "tok-e" "k-e" "" "") 20 sample.emptyStatus sample.rnd
    = (Ok dev, st', sample.rnd)
    /\ Device.DeviceToken dev = "tok-e"
    /\ option_map Device.Name (bolt.Get "tok-e" (bolt.devices st')) = Some "".
Proof.
  eexists _, _. split; [vm_compute; reflexivity|].
  repeat split.
Qed.


(** One unknown key and one known key, on the sample store. *)
Lemma Broadcast_explicit_keys_witness :
  exists summary st' calls',
    NoticeService.Broadcast (tables := sample.caseTables) sample.dispatcher sample.clock
      [] (sample.notice ["nope"; "k-a"]) sample.twoDevices
    = ((summary,
        [NoticeResult.mk "nope" NoticeService.FAILED "not found";
         outcome sample.client (NoticeService.payloadOf (sample.notice ["nope"; "k-a"]))
                 (sample.deviceOf "tok-a" "k-a" "Phone A" "ACTIVE")], None), st', calls')
    /\ NoticeSummary.SendNum summary = 1.
Proof.
  destruct (@Broadcast_explicit_keys sample.caseTables sample.dispatcher sample.client
              sample.clock [] (sample.notice ["nope"; "k-a"]) sample.twoDevices)
    as (_ & _ & _ & _ & H).
  - intro H. vm_compute in H. discriminate H.
  - reflexivity.
  - discriminate.
  - apply (H "nope" "k-a" ErrNotFound (sample.deviceOf "tok-a" "k-a" "Phone A" "ACTIVE")).
    + reflexivity.
    + reflexivity.
    + left. reflexivity.
Defined.

(** A body of two spaces, on the sample store. *)
Lemma Broadcast_blank_body_witness :
  NoticeService.Broadcast (tables := sample.caseTables) sample.dispatcher sample.clock
    [0; 1]%nat (NoticeRequest.mk "title" "" "  " "group" "" "" "" []) sample.twoDevices
  = ((NoticeSummary.zero, [], Some (ErrorString "body is required")),
     sample.twoDevices, []).
Proof.
  apply (@Broadcast_blank_body sample.caseTables). reflexivity.
Defined.

(** On the sample store only [tok-a], whose status is ACTIVE, is a target;
    [tok-b], whose status is STOP, is not. *)
Lemma Broadcast_unnamed_targets_witness :
  fst (NoticeService.pickTargets (tables := sample.caseTables) sample.twoDevices [])
  = [sample.deviceOf "tok-a" "k-a" "Phone A" "ACTIVE"]
  /\ forall p,
       In p (snd (NoticeService.Broadcast (tables := sample.caseTables) sample.dispatcher
                    sample.clock [] (sample.notice []) sample.twoDevices)) ->
       exists d, In d (map snd (bolt.devices sample.twoDevices))
                 /\ countsAsActive (tables := sample.caseTables) d = true
                 /\ fst (fst p) = Device.DeviceKey d.
Proof.
  destruct (@Broadcast_unnamed_targets sample.caseTables sample.twoDevices)
    as (Hpick & _ & Hcalls).
  split.
  - rewrite Hpick. reflexivity.
  - intros p Hp. apply (Hcalls sample.dispatcher sample.clock [] (sample.notice []) p).
    + reflexivity.
    + exact Hp.
Defined.

(** Counterexample to claim C7 as stated.  A device registered with the status
    [" active"] is stored with the status [" ACTIVE"], and a store may hold a
    record with the empty status: neither status is [ACTIVE], and both
    devices are targets of a broadcast that names no keys. *)
Lemma unnamed_targets_not_only_ACTIVE :
  fst (fst (DeviceService.Upsert (tables := sample.caseTables) sample.registry
              (sample.request "tok-c" "k-c" "Phone C" " active") 5 bolt.empty sample.rnd))
  = Ok (sample.created " ACTIVE")
  /\ fst (NoticeService.pickTargets (tables := sample.caseTables)
            (snd (fst (DeviceService.Upsert (tables := sample.caseTables) sample.registry
                         (sample.request "tok-c" "k-c" "Phone C" " active") 5
                         bolt.empty sample.rnd))) [])
     = [sample.created " ACTIVE"]
  /\ Device.Status (sample.created " ACTIVE") <> DeviceStatusActive
  /\ fst (NoticeService.pickTargets (tables := sample.caseTables) sample.emptyStatus [])
     = [sample.deviceOf "tok-e" "k-e" "Phone E" ""]
  /\ Device.Status (sample.deviceOf "tok-e" "k-e" "Phone E" "") <> DeviceStatusActive.
Proof.
  repeat split; try (vm_compute; reflexivity); intro H; vm_compute in H; discriminate H.
Qed.



(** A request with a secret of five bytes is refused and the sample store is
    returned as it was. *)
Lemma Upsert_invalid_credential_witness :
  exists e,
    DeviceService.Upsert (tables := sample.caseTables) sample.registry sample.shortSecret
                         5 sample.twoDevices sample.rnd
    = (Err e, sample.twoDevices, sample.rnd)
    /\ InvalidCredential config.defaults e.
Proof.
  apply (@Upsert_invalid_credential sample.caseTables sample.registry sample.shortSecret 5
           sample.twoDevices sample.rnd sample.rnd
           (sample.deviceOf "tok-a" "k-a" "Phone A" "ACTIVE")
           (Device.mk "tok-a" "k-c" "Phone C" "AES" "CBC" "PKCS7Padding" "short"
                      sample.iv16 "ACTIVE" 10 10)).
  - intro H. vm_compute in H. discriminate H.
  - reflexivity.
  - vm_compute. reflexivity.
  - left. vm_compute. repeat split; discriminate.
Defined.

(** The sample store keeps its records under their tokens. *)
Lemma keyed_twoDevices : keyed (bolt.devices sample.twoDevices).
Proof. repeat constructor. Qed.



(* ===================================================================== *)
(** * Part III: further properties of the code                            *)
(* ===================================================================== *)

(** ** Random strings and padding *)

Lemma get_In (s : string) (i : nat) (c : ascii) :
  String.get i s = Some c -> In c (list_ascii_of_string s).
Proof.
  revert i. induction s as [|a s IH]; intros [|i] H; simpl in *; try discriminate.
  - injection H as ->. left. reflexivity.
  - right. eapply IH. exact H.
Qed.

Lemma letter_in_letters (i : Z) : In (crypto.letter i) (list_ascii_of_string crypto.letters).
Proof.
  unfold crypto.letter.
  destruct (String.get (Z.to_nat i) crypto.letters) as [c|] eqn:H.
  - eapply get_In. exact H.
  - left. reflexivity.
Qed.

(** Property X1.  [GenerateString]: a length that is not positive is refused and the
    random source left alone; otherwise, when the source holds [n] bytes, the
    result has [n] characters, all of them from [letters], and exactly [n]
    bytes of the source are used up; when the source holds fewer, the call
    fails. *)
Theorem GenerateString_contract (n : Z) (rnd : list Z) :
  (n <= 0 ->
   crypto.GenerateString n rnd = (Err (ErrorString "length must be positive"), rnd))
  /\ (0 < n -> (Z.to_nat n <= List.length rnd)%nat ->
      exists g,
        crypto.GenerateString n rnd = (Ok g, skipn (Z.to_nat n) rnd)
        /\ len g = n
        /\ forall c, In c (list_ascii_of_string g) ->
                     In c (list_ascii_of_string crypto.letters))
  /\ (0 < n -> (List.length rnd < Z.to_nat n)%nat ->
      exists e, fst (crypto.GenerateString n rnd) = Err e).
Proof.
  unfold crypto.GenerateString. split; [|split].
  - intro Hn. destruct (Z.leb_spec n 0); [reflexivity | lia].
  - intros Hn Hlen. destruct (Z.leb_spec n 0); [lia|].
    destruct (Nat.ltb_spec (List.length rnd) (Z.to_nat n)); [lia|].
    eexists. split; [reflexivity|]. split.
    + unfold len. rewrite length_string_of_list_ascii, length_map, length_firstn. lia.
    + intros c Hc. rewrite list_ascii_of_string_of_list_ascii in Hc.
      apply in_map_iff in Hc. destruct Hc as (b & <- & _). apply letter_in_letters.
  - intros Hn Hlen. destruct (Z.leb_spec n 0); [lia|].
    destruct (Nat.ltb_spec (List.length rnd) (Z.to_nat n)); [|lia].
    eexists. reflexivity.
Qed.

(** Eight characters from a source of ten bytes. *)
Lemma GenerateString_contract_witness :
  exists g,
    crypto.GenerateString 8 [0; 87; 88; 255; 300; 5; 6; 7; 8; 9] = (Ok g, [8; 9])
    /\ len g = 8
    /\ forall c, In c (list_ascii_of_string g) ->
                 In c (list_ascii_of_string crypto.letters).
Proof.
  apply (proj1 (proj2 (GenerateString_contract 8 [0; 87; 88; 255; 300; 5; 6; 7; 8; 9]))).
  - lia.
  - simpl. lia.
Defined.

Lemma last_app_repeat (data : list Z) (n : Z) (k : nat) :
  (0 < k)%nat -> last (data ++ repeat n k) 0 = n.
Proof.
  intro Hk. destruct k as [|k]; [lia|].
  replace (repeat n (S k)) with (repeat n k ++ [n]).
  - rewrite app_assoc. apply last_last.
  - change [n] with (repeat n 1). rewrite <- repeat_app. f_equal. lia.
Qed.

(** Property X2.  [pkcs7Pad] can be undone.  For a block size between 1 and 255 the
    padded data is longer than the data, its length a multiple of the block
    size, its last byte [n] lies between 1 and the block size, its last [n]
    bytes all hold [n], and dropping them gives the data back. *)
Theorem pkcs7Pad_recover (data : list Z) (blockSize : Z) :
  1 <= blockSize <= 255 ->
  let padded := crypto.pkcs7Pad data blockSize in
  let n := last padded 0 in
  1 <= n <= blockSize
  /\ Z.of_nat (List.length padded) = Z.of_nat (List.length data) + n
  /\ Z.of_nat (List.length padded) mod blockSize = 0
  /\ firstn (List.length padded - Z.to_nat n) padded = data
  /\ skipn (List.length padded - Z.to_nat n) padded = repeat n (Z.to_nat n).
Proof.
  intros Hb padded n.
  set (m := blockSize - Z.of_nat (List.length data) mod blockSize).
  assert (Hmod : 0 <= Z.of_nat (List.length data) mod blockSize < blockSize)
    by (apply Z.mod_pos_bound; lia).
  assert (Hm : 1 <= m <= blockSize) by (unfold m; lia).
  assert (Hpad : padded = data ++ repeat m (Z.to_nat m)).
  { unfold padded, crypto.pkcs7Pad, crypto.bytesRepeat. fold m.
    rewrite (Z.mod_small m 256) by lia. reflexivity. }
  assert (Hn : n = m).
  { unfold n. rewrite Hpad. apply last_app_repeat. lia. }
  assert (Hlen : List.length padded = (List.length data + Z.to_nat m)%nat).
  { rewrite Hpad, length_app, repeat_length. reflexivity. }
  rewrite Hn. repeat split; try lia.
  - assert (HZ : Z.of_nat (List.length padded)
                 = (Z.of_nat (List.length data) / blockSize + 1) * blockSize).
    { rewrite Hlen.
      pose proof (Z.div_mod (Z.of_nat (List.length data)) blockSize ltac:(lia)) as Hdm.
      unfold m. lia. }
    rewrite HZ. apply Z.mod_mul. lia.
  - rewrite Hlen, Hpad.
    replace (List.length data + Z.to_nat m - Z.to_nat m)%nat with (List.length data) by lia.
    rewrite firstn_app, Nat.sub_diag, firstn_all. simpl. apply app_nil_r.
  - rewrite Hlen, Hpad.
    replace (List.length data + Z.to_nat m - Z.to_nat m)%nat with (List.length data) by lia.
    rewrite skipn_app, Nat.sub_diag, skipn_all. reflexivity.
Qed.

(** Five bytes padded to a block of eight. *)
Lemma pkcs7Pad_recover_witness :
  firstn (List.length (crypto.pkcs7Pad [1; 2; 3; 4; 5] 8)
          - Z.to_nat (last (crypto.pkcs7Pad [1; 2; 3; 4; 5] 8) 0))
         (crypto.pkcs7Pad [1; 2; 3; 4; 5] 8)
  = [1; 2; 3; 4; 5].
Proof.
  destruct (@pkcs7Pad_recover [1; 2; 3; 4; 5] 8) as (_ & _ & _ & H & _); [lia | exact H].
Defined.

(** ** The device bucket *)

Lemma ascii_compare_trans (a b c : ascii) :
  Ascii.compare a b = Lt -> Ascii.compare b c = Lt -> Ascii.compare a c = Lt.
Proof.
  unfold Ascii.compare. rewrite !N.compare_lt_iff. apply N.lt_trans.
Qed.

Lemma ascii_compare_Eq (a b : ascii) : Ascii.compare a b = Eq -> a = b.
Proof. apply Ascii.compare_eq_iff. Qed.

Lemma compare_trans (a b c : string) :
  String.compare a b = Lt -> String.compare b c = Lt -> String.compare a c = Lt.
Proof.
  revert b c. induction a as [|x a IH]; intros [|y b] [|z c] Hab Hbc; simpl in *;
    try discriminate; try reflexivity.
  destruct (Ascii.compare x y) eqn:Hxy; try discriminate.
  - apply ascii_compare_Eq in Hxy. subst y.
    destruct (Ascii.compare x z) eqn:Hxz; try discriminate; try reflexivity.
    eapply IH; eassumption.
  - destruct (Ascii.compare y z) eqn:Hyz; try discriminate.
    + apply ascii_compare_Eq in Hyz. subst z. rewrite Hxy. reflexivity.
    + rewrite (ascii_compare_trans _ _ _ Hxy Hyz). reflexivity.
Qed.

Lemma compare_Gt_Lt (a b : string) : String.compare a b = Gt -> String.compare b a = Lt.
Proof.
  intro H. rewrite String.compare_antisym, H. reflexivity.
Qed.

Lemma Forall_insert {V : Type} (P : string * V -> Prop) (k : string) (v : V)
      (b : bolt.bucket V) :
  Forall P b -> P (k, v) -> Forall P (bolt.insert k v b).
Proof.
  induction b as [|[k0 v0] b IH]; intros Hb Hkv; simpl.
  - constructor; [exact Hkv | constructor].
  - inversion Hb as [|? ? H0 Hrest]; subst.
    destruct (String.compare k k0).
    + constructor; assumption.
    + constructor; assumption.
    + constructor; [exact H0 | apply IH; assumption].
Qed.

Lemma sortedKeys_insert {V : Type} (k : string) (v : V) (b : bolt.bucket V) :
  sortedKeys b -> sortedKeys (bolt.insert k v b).
Proof.
  unfold sortedKeys. induction b as [|[k0 v0] b IH]; intro Hs; simpl.
  - constructor; constructor.
  - apply StronglySorted_inv in Hs. destruct Hs as [Hrest Hall].
    destruct (String.compare k k0) eqn:Hc.
    + apply compare_Eq_iff in Hc. subst k0. constructor; assumption.
    + constructor; [constructor; assumption|].
      constructor; [exact Hc|].
      eapply Forall_impl; [|exact Hall].
      intros [k1 v1] H1. simpl in *. eapply compare_trans; eassumption.
    + constructor; [apply IH; exact Hrest|].
      apply Forall_insert; [exact Hall|]. simpl. apply compare_Gt_Lt. exact Hc.
Qed.

Lemma Get_above {V : Type} (k : string) (b : bolt.bucket V) :
  Forall (fun kv => String.compare k (fst kv) = Lt) b -> bolt.Get k b = None.
Proof.
  induction b as [|[k0 v0] b IH]; intro H; simpl; [reflexivity|].
  inversion H as [|? ? H0 Hrest]; subst. simpl in H0.
  destruct (String.eqb_spec k k0) as [->|_].
  - rewrite compare_refl in H0. discriminate.
  - apply IH. exact Hrest.
Qed.

Lemma length_insert_sorted {V : Type} (k : string) (v : V) (b : bolt.bucket V) :
  sortedKeys b ->
  List.length (bolt.insert k v b)
  = match bolt.Get k b with
    | Some _ => List.length b
    | None => S (List.length b)
    end.
Proof.
  unfold sortedKeys. induction b as [|[k0 v0] b IH]; intro Hs; simpl; [reflexivity|].
  apply StronglySorted_inv in Hs. destruct Hs as [Hrest Hall].
  destruct (String.compare k k0) eqn:Hc.
  - apply compare_Eq_iff in Hc. subst k0. rewrite String.eqb_refl. reflexivity.
  - destruct (String.eqb_spec k k0) as [->|_].
    + rewrite compare_refl in Hc. discriminate.
    + rewrite Get_above; [reflexivity|].
      eapply Forall_impl; [|exact Hall].
      intros [k1 v1] H1. simpl in *. eapply compare_trans; eassumption.
  - destruct (String.eqb_spec k k0) as [->|_].
    + rewrite compare_refl in Hc. discriminate.
    + simpl. rewrite (IH Hrest). destruct (bolt.Get k b); reflexivity.
Qed.



(** Property X4.  [GetDeviceByKey] answers with a stored device that has the key asked
    for, the first one in token order; it fails, with [ErrNotFound] and
    nothing else, exactly when no stored device has the key. *)
Theorem GetDeviceByKey_contract (st : bolt.Store) (key : string) :
  (forall d, bolt.GetDeviceByKey st key = Ok d ->
     Device.DeviceKey d = key
     /\ exists before after,
          map snd (bolt.devices st) = before ++ d :: after
          /\ Forall (fun d' => Device.DeviceKey d' <> key) before)
  /\ (forall e, bolt.GetDeviceByKey st key = Err e ->
        e = ErrNotFound
        /\ Forall (fun d' => Device.DeviceKey d' <> key) (map snd (bolt.devices st)))
  /\ (Forall (fun d' => Device.DeviceKey d' <> key) (map snd (bolt.devices st)) ->
      bolt.GetDeviceByKey st key = Err ErrNotFound).
Proof.
  unfold bolt.GetDeviceByKey, bolt.getByKey.
  induction (bolt.devices st) as [|[k0 d0] b IH]; simpl.
  - split; [|split].
    + intros d H. discriminate.
    + intros e H. injection H as <-. split; [reflexivity | constructor].
    + reflexivity.
  - destruct IH as (IH1 & IH2 & IH3).
    destruct (String.eqb_spec (Device.DeviceKey d0) key) as [Heq|Hne].
    + split; [|split].
      * intros d H. injection H as <-. split; [exact Heq|].
        exists [], (map snd b). split; [reflexivity | constructor].
      * intros e H. discriminate.
      * intro Hall. inversion Hall; subst. contradiction.
    + split; [|split].
      * intros d H. destruct (IH1 d H) as (Hk & before & after & Hsplit & Hbefore).
        split; [exact Hk|]. exists (d0 :: before), after.
        split; [simpl; rewrite Hsplit; reflexivity | constructor; assumption].
      * intros e H. destruct (IH2 e H) as [He Hall].
        split; [exact He | constructor; assumption].
      * intro Hall. inversion Hall; subst. apply IH3. assumption.
Qed.

(** On the sample store the key of the second device finds it, and an
    unknown key finds nothing. *)
Lemma GetDeviceByKey_contract_witness :
  Device.DeviceKey (sample.deviceOf "tok-b" "k-b" "Phone B" "STOP") = "k-b"
  /\ bolt.GetDeviceByKey sample.twoDevices "nope" = Err ErrNotFound.
Proof.
  split.
  - apply (proj1 (GetDeviceByKey_contract sample.twoDevices "k-b")). reflexivity.
  - apply (proj2 (proj2 (GetDeviceByKey_contract sample.twoDevices "nope"))).
    repeat constructor; discriminate.
Defined.

(** ** The log bucket *)

Lemma Ascii_compare_of_Z (x y : Z) :
  0 <= x < 256 -> 0 <= y < 256 ->
  Ascii.compare (ascii_of_Z x) (ascii_of_Z y) = Z.compare x y.
Proof.
  intros Hx Hy. unfold Ascii.compare, ascii_of_Z.
  rewrite !Z.mod_small by lia.
  rewrite !N_ascii_embedding.
  - rewrite <- Z2N.inj_compare by lia. reflexivity.
  - apply N2Z.inj_lt. rewrite Z2N.id by lia. simpl. lia.
  - apply N2Z.inj_lt. rewrite Z2N.id by lia. simpl. lia.
Qed.

Lemma bigEndian_bound (l : list Z) :
  Forall (fun x => 0 <= x < 256) l ->
  0 <= bigEndian l < 256 ^ Z.of_nat (List.length l).
Proof.
  induction 1 as [|x r Hx Hr IH]; simpl bigEndian; simpl List.length.
  - simpl. lia.
  - rewrite Nat2Z.inj_succ, Z.pow_succ_r by lia. nia.
Qed.

(** Keys of one length compare as the numbers they encode. *)
Lemma compare_bigEndian (la lb : list Z) :
  List.length la = List.length lb ->
  Forall (fun x => 0 <= x < 256) la -> Forall (fun x => 0 <= x < 256) lb ->
  bigEndian la < bigEndian lb ->
  String.compare (string_of_bytes la) (string_of_bytes lb) = Lt.
Proof.
  revert lb. induction la as [|x la IH]; intros [|y lb] Hlen Ha Hb Hlt;
    simpl in Hlen; try discriminate.
  injection Hlen as Hlen.
  inversion Ha as [|? ? Hx Hra]; subst. inversion Hb as [|? ? Hy Hrb]; subst.
  pose proof (bigEndian_bound Hra) as Bra. pose proof (bigEndian_bound Hrb) as Brb.
  simpl in Hlt. rewrite Hlen in Hlt, Bra.
  unfold string_of_bytes. simpl. fold (string_of_bytes la). fold (string_of_bytes lb).
  rewrite Ascii_compare_of_Z by assumption.
  destruct (Z.compare_spec x y) as [Heq|Hxy|Hxy].
  - subst y. apply IH; try assumption. lia.
  - reflexivity.
  - exfalso. nia.
Qed.

Lemma PutUint64_bigEndian (id : Z) :
  0 <= id < 2 ^ 64 ->
  exists digits,
    bolt.PutUint64 id = string_of_bytes digits
    /\ List.length digits = 8%nat
    /\ Forall (fun x => 0 <= x < 256) digits
    /\ bigEndian digits = id.
Proof.
  intro Hid. eexists. split; [reflexivity|]. split; [reflexivity|]. split.
  - apply Forall_forall. intros x Hx. apply in_map_iff in Hx.
    destruct Hx as (i & <- & _). apply Z.mod_pos_bound. lia.
  - cbn [seq map bigEndian List.length].
    rewrite !Z.shiftr_div_pow2 by lia.
    change (8 * (7 - Z.of_nat 0)) with 56. change (8 * (7 - Z.of_nat 1)) with 48.
    change (8 * (7 - Z.of_nat 2)) with 40. change (8 * (7 - Z.of_nat 3)) with 32.
    change (8 * (7 - Z.of_nat 4)) with 24. change (8 * (7 - Z.of_nat 5)) with 16.
    change (8 * (7 - Z.of_nat 6)) with 8. change (8 * (7 - Z.of_nat 7)) with 0.
    assert (H8 : id / 2 ^ 8 = id / 2 ^ 0 / 256)
      by (rewrite Z.div_div by lia; reflexivity).
    assert (H16 : id / 2 ^ 16 = id / 2 ^ 8 / 256)
      by (rewrite Z.div_div by lia; reflexivity).
    assert (H24 : id / 2 ^ 24 = id / 2 ^ 16 / 256)
      by (rewrite Z.div_div by lia; reflexivity).
    assert (H32 : id / 2 ^ 32 = id / 2 ^ 24 / 256)
      by (rewrite Z.div_div by lia; reflexivity).
    assert (H40 : id / 2 ^ 40 = id / 2 ^ 32 / 256)
      by (rewrite Z.div_div by lia; reflexivity).
    assert (H48 : id / 2 ^ 48 = id / 2 ^ 40 / 256)
      by (rewrite Z.div_div by lia; reflexivity).
    assert (H56 : id / 2 ^ 56 = id / 2 ^ 48 / 256)
      by (rewrite Z.div_div by lia; reflexivity).
    assert (H64 : id / 2 ^ 56 / 256 = 0)
      by (rewrite Z.div_div by lia; apply Z.div_small; exact Hid).
    assert (H0 : id / 2 ^ 0 = id) by (apply Z.div_1_r).
    rewrite !Z.mod_eq by lia.
    set (q0 := id / 2 ^ 0) in *. set (q1 := id / 2 ^ 8) in *.
    set (q2 := id / 2 ^ 16) in *. set (q3 := id / 2 ^ 24) in *.
    set (q4 := id / 2 ^ 32) in *. set (q5 := id / 2 ^ 40) in *.
    set (q6 := id / 2 ^ 48) in *. set (q7 := id / 2 ^ 56) in *.
    rewrite <- H8, <- H16, <- H24, <- H32, <- H40, <- H48, <- H56, H64.
    clearbody q0 q1 q2 q3 q4 q5 q6 q7.
    repeat match goal with
           | |- context [256 ^ Z.of_nat ?k] =>
             let v := eval vm_compute in (256 ^ Z.of_nat k) in
             change (256 ^ Z.of_nat k) with v
           end.
    lia.
Qed.

Lemma PutUint64_lt (a b : Z) :
  0 <= a -> a < b -> b < 2 ^ 64 ->
  String.compare (bolt.PutUint64 a) (bolt.PutUint64 b) = Lt.
Proof.
  intros Ha Hab Hb.
  destruct (@PutUint64_bigEndian a) as (da & -> & La & Ra & Va); [lia|].
  destruct (@PutUint64_bigEndian b) as (db & -> & Lb & Rb & Vb); [lia|].
  apply compare_bigEndian; try assumption; [congruence | lia].
Qed.

Lemma insert_last {V : Type} (k : string) (v : V) (b : bolt.bucket V) :
  Forall (fun kv => String.compare (fst kv) k = Lt) b ->
  bolt.insert k v b = b ++ [(k, v)].
Proof.
  induction 1 as [|[k0 v0] b H0 Hb IH]; simpl; [reflexivity|].
  simpl in H0. rewrite String.compare_antisym, H0. simpl. rewrite IH. reflexivity.
Qed.

Lemma sortedKeys_snoc {V : Type} (k : string) (v : V) (b : bolt.bucket V) :
  sortedKeys b ->
  Forall (fun kv => String.compare (fst kv) k = Lt) b ->
  sortedKeys (b ++ [(k, v)]).
Proof.
  unfold sortedKeys. induction b as [|[k0 v0] b IH]; intros Hs Hall; simpl.
  - constructor; constructor.
  - apply StronglySorted_inv in Hs. destruct Hs as [Hrest Hhd].
    inversion Hall as [|? ? H0 Hb]; subst.
    constructor; [apply IH; assumption|].
    apply Forall_app. split; [exact Hhd|]. constructor; [exact H0 | constructor].
Qed.

(** A write into a well-kept log bucket whose sequence has not run out
    lands behind every entry. *)
Lemma AppendNoticeLog_snoc (now : Time) (log : NoticeLog.t) (st : bolt.Store) :
  logsKeyed st -> bolt.sequence st + 1 < 2 ^ 64 ->
  let entry :=
    NoticeLog.set_ID
      (NoticeLog.set_UpdatedAt
         (if IsZero (NoticeLog.CreatedAt log) then NoticeLog.set_CreatedAt log now
          else log) now)
      (bolt.sequence st + 1) in
  let st' := bolt.mk (bolt.devices st)
                     (bolt.notice_logs st ++ [(bolt.PutUint64 (bolt.sequence st + 1), entry)])
                     (bolt.sequence st + 1) in
  bolt.AppendNoticeLog now log st = Ok (entry, st') /\ logsKeyed st'.
Proof.
  intros (Hseq & Hsorted & Hall) Hbound entry st'.
  assert (Hkeys : Forall (fun kv => String.compare (fst kv)
                                      (bolt.PutUint64 (bolt.sequence st + 1)) = Lt)
                         (bolt.notice_logs st)).
  { eapply Forall_impl; [|exact Hall]. intros [k l] [Hk Hid]. simpl in *.
    rewrite Hk. apply PutUint64_lt; lia. }
  split.
  - unfold bolt.AppendNoticeLog, bolt.Put.
    rewrite (Z.mod_small (bolt.sequence st + 1)) by lia.
    destruct (@PutUint64_bigEndian (bolt.sequence st + 1)) as (ds & Hds & Hlen & _);
      [lia|].
    assert (Hl : len (bolt.PutUint64 (bolt.sequence st + 1)) = 8).
    { rewrite Hds. unfold len, string_of_bytes.
      rewrite length_string_of_list_ascii, length_map, Hlen. reflexivity. }
    rewrite Hl. simpl. rewrite insert_last by exact Hkeys. reflexivity.
  - unfold logsKeyed, st'. simpl. split; [lia|]. split.
    + apply sortedKeys_snoc; assumption.
    + apply Forall_app. split.
      * eapply Forall_impl; [|exact Hall]. intros [k l] [Hk Hid]. simpl in *.
        split; [exact Hk | lia].
      * constructor; [|constructor]. simpl. unfold entry. simpl. split; [reflexivity | lia].
Qed.



(** ** What a broadcast writes *)

Section FanOutLog.
Import NoticeService.

Variable client : barkclient.Client.
Variable clock : nat -> Time.
Variable req : NoticeRequest.t.
Variable payload : list (string * string).

Lemma length_loggedContents (gs : list goroutine) :
  (List.length (loggedContents client payload req gs) <= List.length gs)%nat.
Proof.
  induction gs as [|g gs IH]; simpl; [lia|].
  rewrite length_app. destruct (at_phase g); simpl; lia.
Qed.

Lemma log_inv_init (st : bolt.Store) (failures : list NoticeResult.t)
      (targets : list Device.t) :
  logsKeyed st ->
  log_inv client payload req st targets
    (mkShared st failures 0 (map (fun d => mkGoroutine d Spawned) targets) [] 0).
Proof.
  intro Hk. unfold log_inv. simpl. split; [|split; [|split; [|split]]].
  - rewrite map_map. simpl. apply map_id.
  - apply Forall_forall. intros g Hg. apply in_map_iff in Hg.
    destruct Hg as (d & <- & _). exact I.
  - reflexivity.
  - exact Hk.
  - exists []. rewrite app_nil_r. simpl.
    assert (Hl : loggedContents client payload req
                   (map (fun d => mkGoroutine d Spawned) targets) = []).
    { induction targets as [|d ds IH]; simpl; auto. }
    rewrite Hl. repeat split; [constructor | lia].
Qed.

Lemma log_inv_step (st0 : bolt.Store) (targets : list Device.t) (i : nat) (sh : shared) :
  bolt.sequence st0 + Z.of_nat (List.length targets) < 2 ^ 64 ->
  log_inv client payload req st0 targets sh ->
  log_inv client payload req st0 targets (step client clock req payload i sh).
Proof.
  intros Hbound (Hdev & Hcons & Hdevs & Hkeyed & entries & Hlogs & Hperm & Hseq & Hids).
  unfold step. destruct (nth_error (routines sh) i) as [g|] eqn:Hnth.
  2:{ unfold log_inv. eauto 10. }
  destruct (set_nth_split _ _ Hnth) as (l1 & l2 & Hl & _ & Hset).
  rewrite Hl in Hdev, Hcons, Hperm.
  apply Forall_app in Hcons. destruct Hcons as [Hc1 Hc2].
  apply Forall_cons_iff in Hc2. destruct Hc2 as [Hg Hc2].
  unfold loggedContents in Hperm. rewrite flat_map_app in Hperm. simpl in Hperm.
  fold (loggedContents client payload req l1) in Hperm.
  fold (loggedContents client payload req l2) in Hperm.
  assert (Hflat : forall ph,
             loggedContents client payload req (l1 ++ mkGoroutine (device g) ph :: l2)
             = loggedContents client payload req l1
               ++ match ph with
                  | Logged _ | Finished => [expectedLog client payload req (device g)]
                  | _ => []
                  end ++ loggedContents client payload req l2).
  { intro ph. unfold loggedContents. rewrite flat_map_app. reflexivity. }
  assert (Hmapd : forall ph,
             map device (l1 ++ mkGoroutine (device g) ph :: l2) = targets).
  { intro ph. rewrite map_app. simpl. rewrite map_app in Hdev. exact Hdev. }
  unfold consistent in Hg.
  destruct (at_phase g) as [| r | r |] eqn:Hph; simpl in Hperm.
  - (* the upstream call *)
    destruct (attempt client payload (device g)) as [r cs] eqn:Hat.
    unfold log_inv. simpl. rewrite Hset, Hmapd, Hflat.
    split; [reflexivity|]. split.
    { apply Forall_app. split; [exact Hc1|]. constructor; [|exact Hc2].
      unfold consistent, outcome. simpl. rewrite Hat. reflexivity. }
    split; [exact Hdevs|]. split; [exact Hkeyed|].
    exists entries. repeat split; assumption.
  - (* the log write *)
    assert (Hcount : (List.length entries < List.length targets)%nat).
    { apply Permutation_length in Hperm. rewrite length_map, length_app in Hperm.
      pose proof (length_loggedContents l1). pose proof (length_loggedContents l2).
      rewrite <- Hdev, length_map, length_app. simpl. lia. }
    assert (Hb : bolt.sequence (store sh) + 1 < 2 ^ 64) by lia.
    unfold log_inv. cbn [routines store]. rewrite Hset, Hmapd, Hflat.
    unfold appendLog.
    match goal with
    | |- context [bolt.AppendNoticeLog ?now ?e (store sh)] =>
      destruct (AppendNoticeLog_snoc now e Hkeyed Hb) as [Happ Hk']; rewrite Happ
    end.
    split; [reflexivity|]. split.
    { apply Forall_app. split; [exact Hc1|]. constructor; [|exact Hc2].
      unfold consistent. simpl. exact Hg. }
    split; [exact Hdevs|]. split; [exact Hk'|].
    eexists (entries ++ [_]). cbn [bolt.notice_logs bolt.sequence].
    rewrite !map_app, Hlogs, length_app, <- app_assoc. simpl List.length.
    split; [reflexivity|]. split; [|split].
    + simpl map. unfold logContent at 2. simpl.
      rewrite Hg.
      change (Device.DeviceKey (device g),
              barkclient.DeviceEndpoint client (Device.DeviceKey (device g)),
              NoticeRequest.Title req, NoticeRequest.Body req, NoticeRequest.Group req,
              NoticeResult.Message (outcome client payload (device g)),
              NoticeResult.Status (outcome client payload (device g)))
        with (expectedLog client payload req (device g)).
      rewrite (Permutation_app_comm (map logContent entries)). simpl.
      apply Permutation_cons_app. exact Hperm.
    + rewrite Hseq. lia.
    + rewrite Nat.add_1_r, seq_S, map_app, Hids. simpl. rewrite Hseq.
      do 2 f_equal. lia.
  - (* the critical section *)
    unfold log_inv. simpl. rewrite Hset, Hmapd, Hflat.
    split; [reflexivity|]. split.
    { apply Forall_app. split; [exact Hc1|]. constructor; [exact I|exact Hc2]. }
    split; [exact Hdevs|]. split; [exact Hkeyed|].
    exists entries. repeat split; assumption.
  - (* nothing left to do *)
    unfold log_inv. rewrite Hl.
    split; [exact Hdev|]. split.
    { apply Forall_app. split; [exact Hc1|]. constructor; [|exact Hc2].
      unfold consistent. rewrite Hph. exact I. }
    split; [exact Hdevs|]. split; [exact Hkeyed|].
    exists entries. repeat split; try assumption.
    unfold loggedContents. rewrite flat_map_app. simpl. rewrite Hph. exact Hperm.
Qed.

Lemma log_inv_run (st0 : bolt.Store) (targets : list Device.t) (schedule : list nat)
      (sh : shared) :
  bolt.sequence st0 + Z.of_nat (List.length targets) < 2 ^ 64 ->
  log_inv client payload req st0 targets sh ->
  log_inv client payload req st0 targets (run client clock req payload schedule sh).
Proof.
  intro Hb. revert sh. induction schedule as [|i rest IH]; intros sh H; simpl.
  - exact H.
  - apply IH. apply log_inv_step; assumption.
Qed.

Lemma all_logged (gs : list goroutine) :
  (forall j, (j < List.length gs)%nat ->
             exists g, nth_error gs j = Some g /\ at_phase g = Finished) ->
  loggedContents client payload req gs
  = map (expectedLog client payload req) (map device gs).
Proof.
  induction gs as [|g gs IH]; intro H; [reflexivity|].
  destruct (H 0%nat) as (g0 & Hg0 & Hph); [simpl; lia|].
  simpl in Hg0. injection Hg0 as <-.
  unfold loggedContents in *. simpl. rewrite Hph, IH; [reflexivity|].
  intros j Hj. apply (H (S j)). simpl. lia.
Qed.

(** The store after the fan-out, from its start to [wg.Wait]. *)
Lemma fanout_logs (failures : list NoticeResult.t) (targets : list Device.t)
      (st : bolt.Store) (schedule : list nat) :
  logsKeyed st ->
  bolt.sequence st + Z.of_nat (List.length targets) < 2 ^ 64 ->
  let sh := run client clock req payload (schedule ++ drain (List.length targets))
                (mkShared st failures 0
                          (map (fun d => mkGoroutine d Spawned) targets) [] 0) in
  bolt.devices (store sh) = bolt.devices st
  /\ logsKeyed (store sh)
  /\ exists entries,
       bolt.ListNoticeLogs (store sh) = Ok (map snd (bolt.notice_logs st) ++ entries)
       /\ Permutation (map logContent entries)
                      (map (expectedLog client payload req) targets)
       /\ bolt.sequence (store sh) = bolt.sequence st + Z.of_nat (List.length targets)
       /\ map NoticeLog.ID entries
          = map (fun i => bolt.sequence st + Z.of_nat i) (seq 1 (List.length targets)).
Proof.
  intros Hk Hb sh.
  assert (Hinv : log_inv client payload req st targets sh).
  { apply log_inv_run; [exact Hb|]. apply log_inv_init. exact Hk. }
  destruct Hinv as (Hdev & _ & Hdevs & Hkeyed & entries & Hlogs & Hperm & Hseq & Hids).
  assert (Hlen : List.length (routines sh) = List.length targets).
  { rewrite <- Hdev. symmetry. apply length_map. }
  rewrite all_logged in Hperm.
  2:{ intros j Hj.
      assert (Hr : rank sh j = 3%nat).
      { unfold sh. rewrite run_app. unfold drain. apply rank_drain. lia. }
      unfold rank in Hr.
      destruct (nth_error (routines sh) j) as [g|] eqn:Hnth.
      - exists g. split; [reflexivity|].
        destruct (at_phase g); simpl in Hr; try discriminate; reflexivity.
      - apply nth_error_None in Hnth. lia. }
  rewrite Hdev in Hperm.
  assert (Hn : List.length entries = List.length targets).
  { apply Permutation_length in Hperm. rewrite !length_map in Hperm. exact Hperm. }
  split; [exact Hdevs|]. split; [exact Hkeyed|].
  exists entries. unfold bolt.ListNoticeLogs. rewrite Hlogs, <- Hn.
  repeat split; assumption.
Qed.

End FanOutLog.

Section BroadcastEffects.
Import NoticeService.
Context {tables : unicode.CaseTables}.

Lemma length_bytes_of_string (s : string) :
  Z.of_nat (List.length (bytes_of_string s)) = len s.
Proof.
  unfold bytes_of_string, len. rewrite length_map. f_equal.
  induction s as [|c s IH]; simpl; congruence.
Qed.

(** Encryption of the payload works for the devices whose secret and iv
    have a valid length, and for no other. *)
Lemma encryptPayload_encryptable (payload : list (string * string)) (d : Device.t) :
  (encryptable d = true -> exists ct, encryptPayload payload d = Ok ct)
  /\ (encryptable d = false -> exists e, encryptPayload payload d = Err e).
Proof.
  unfold encryptable, DeviceService.isValidKeyLength, encryptPayload.
  rewrite <- !length_bytes_of_string.
  set (key := bytes_of_string (Device.EncodeKey d)).
  set (iv := bytes_of_string (Device.IV d)).
  split; intro H.
  - apply andb_prop in H. destruct H as [Hk Hiv].
    apply Z.eqb_eq in Hiv.
    assert (Hv : validKeyLength key).
    { unfold validKeyLength. apply orb_prop in Hk. destruct Hk as [Hk|Hk].
      - apply orb_prop in Hk. destruct Hk as [Hk|Hk]; apply Z.eqb_eq in Hk; lia.
      - apply Z.eqb_eq in Hk. lia. }
    unfold crypto.EncryptToBase64. rewrite (NewCipher_ok Hv). simpl.
    replace (negb (Z.of_nat (List.length key) =? 16)
             && negb (Z.of_nat (List.length key) =? 24)
             && negb (Z.of_nat (List.length key) =? 32)) with false
      by (destruct Hv as [E | [E | E]]; rewrite E; reflexivity).
    unfold aes.BlockSize. rewrite Hiv. simpl. eauto.
  - unfold crypto.EncryptToBase64.
    destruct (aes.NewCipher key) as [block|e] eqn:Hc; simpl; [|eauto].
    destruct (negb (Z.of_nat (List.length key) =? 16)
              && negb (Z.of_nat (List.length key) =? 24)
              && negb (Z.of_nat (List.length key) =? 32)) eqn:Hk; [eauto|].
    unfold aes.BlockSize.
    destruct (Z.of_nat (List.length iv) =? 16) eqn:Hiv; simpl; [|eauto].
    exfalso. rewrite andb_true_r in H.
    destruct (Z.of_nat (List.length key) =? 16); [discriminate|].
    destruct (Z.of_nat (List.length key) =? 24); [discriminate|].
    destruct (Z.of_nat (List.length key) =? 32); discriminate.
Qed.

Lemma calls_encryptable (client : barkclient.Client) (payload : list (string * string))
      (d : Device.t) :
  calls client payload d
  = match encryptPayload payload d with
    | Ok ct => [(Device.DeviceKey d, ct, Device.IV d)]
    | Err _ => []
    end.
Proof.
  unfold calls, attempt. destruct (encryptPayload payload d) as [ct|e]; [|reflexivity].
  destruct (barkclient.SendEncryptedPush client (Device.DeviceKey d) ct (Device.IV d));
    reflexivity.
Qed.

Lemma length_calls (client : barkclient.Client) (payload : list (string * string))
      (targets : list Device.t) :
  List.length (flat_map (calls client payload) targets)
  = List.length (filter encryptable targets).
Proof.
  induction targets as [|d ds IH]; simpl; [reflexivity|].
  rewrite length_app, IH, calls_encryptable.
  destruct (encryptPayload_encryptable payload d) as [Hy Hn].
  destruct (encryptable d).
  - destruct (Hy eq_refl) as [ct ->]. reflexivity.
  - destruct (Hn eq_refl) as [e ->]. reflexivity.
Qed.

(** Property X6.  The upstream calls of a broadcast that resolves a target: under every
    schedule, one push for each target whose secret and iv can be used,
    carrying the device's key, the encrypted payload and the device's iv,
    and none for any other target; a target that cannot be encrypted for
    is reported FAILED with the error of the encryption. *)
Theorem Broadcast_pushes (s : NoticeService.t) (client : barkclient.Client)
        (clock : nat -> Time) (schedule : list nat) (req : NoticeRequest.t)
        (st : bolt.Store) :
  strings.TrimSpace (NoticeRequest.Body req) <> "" ->
  bark s = Some client ->
  fst (pickTargets st (NoticeRequest.DeviceKeys req)) <> [] ->
  let targets := fst (pickTargets st (NoticeRequest.DeviceKeys req)) in
  let results := snd (fst (fst (fst (Broadcast s clock schedule req st)))) in
  let made := snd (Broadcast s clock schedule req st) in
  Permutation made
    (flat_map (fun d => match encryptPayload (payloadOf req) d with
                        | Ok ct => [(Device.DeviceKey d, ct, Device.IV d)]
                        | Err _ => []
                        end) targets)
  /\ List.length made = List.length (filter encryptable targets)
  /\ (forall d, In d targets -> encryptable d = true ->
        exists ct, encryptPayload (payloadOf req) d = Ok ct
                   /\ In (Device.DeviceKey d, ct, Device.IV d) made)
  /\ (forall d, In d targets -> encryptable d = false ->
        exists e, encryptPayload (payloadOf req) d = Err e
                  /\ In (NoticeResult.mk (Device.DeviceKey d) FAILED (error_Error e))
                        results).
Proof.
  intros Hbody Hbark Hne targets results made.
  destruct (pickTargets st (NoticeRequest.DeviceKeys req)) as [ts failures] eqn:Hpick.
  simpl in Hne, targets.
  destruct (Broadcast_fanout s clock schedule req st Hbody Hbark Hpick Hne)
    as (perDevice & st' & calls' & HB & Hperm & Hcalls).
  unfold results, made, targets. clear results made targets.
  rewrite HB. cbn [fst snd].
  assert (Hflat : flat_map (calls client (payloadOf req)) ts
                  = flat_map (fun d => match encryptPayload (payloadOf req) d with
                                       | Ok ct => [(Device.DeviceKey d, ct, Device.IV d)]
                                       | Err _ => []
                                       end) ts).
  { apply flat_map_ext. intro d. apply calls_encryptable. }
  split; [rewrite <- Hflat; exact Hcalls|].
  split; [rewrite (Permutation_length Hcalls); apply length_calls|].
  split.
  - intros d Hd He.
    destruct (proj1 (encryptPayload_encryptable (payloadOf req) d) He) as [ct Hct].
    exists ct. split; [exact Hct|].
    apply (Permutation_in _ (Permutation_sym Hcalls)).
    apply in_flat_map. exists d. split; [exact Hd|].
    rewrite calls_encryptable, Hct. left. reflexivity.
  - intros d Hd He.
    destruct (proj2 (encryptPayload_encryptable (payloadOf req) d) He) as [e Herr].
    exists e. split; [exact Herr|].
    apply in_or_app. right.
    apply (Permutation_in _ (Permutation_sym Hperm)).
    apply in_map_iff. exists d. split; [|exact Hd].
    unfold outcome, attempt. rewrite Herr. reflexivity.
Qed.


(** Property X8.  A broadcast that returns an error has done nothing: the store is the
    one it was given, no push was made and the summary is zero.  It
    returns an error exactly when it resolves no target. *)
Theorem Broadcast_error_no_effect (s : NoticeService.t) (clock : nat -> Time)
        (schedule : list nat) (req : NoticeRequest.t) (st : bolt.Store) (e : error) :
  snd (fst (fst (Broadcast s clock schedule req st))) = Some e ->
  snd (fst (Broadcast s clock schedule req st)) = st
  /\ snd (Broadcast s clock schedule req st) = []
  /\ fst (fst (fst (fst (Broadcast s clock schedule req st)))) = NoticeSummary.zero
  /\ (strings.TrimSpace (NoticeRequest.Body req) = ""
      \/ bark s = None
      \/ fst (pickTargets st (NoticeRequest.DeviceKeys req)) = []).
Proof.
  unfold Broadcast.
  destruct (String.eqb_spec (strings.TrimSpace (NoticeRequest.Body req)) "") as [Hb|Hb].
  { intros _. repeat split. left. exact Hb. }
  destruct (bark s) as [client|].
  2:{ intros _. repeat split. right. left. reflexivity. }
  destruct (pickTargets st (NoticeRequest.DeviceKeys req)) as [ts failures].
  destruct ts as [|d ds].
  - intros _. repeat split. right. right. reflexivity.
  - change (List.length (d :: ds) =? 0)%nat with false. cbv iota. cbn [fst snd].
    intro H. discriminate H.
Qed.

End BroadcastEffects.

(** The sample dispatcher on the sample store: both devices named, both
    pushed to. *)
Lemma Broadcast_pushes_witness :
  List.length
    (snd (NoticeService.Broadcast (tables := sample.caseTables) sample.dispatcher
            sample.clock [1; 0; 0; 1]%nat (sample.notice ["k-b"; "k-a"])
            sample.twoDevices)) = 2%nat.
Proof.
  destruct (@Broadcast_pushes sample.caseTables sample.dispatcher sample.client
              sample.clock [1; 0; 0; 1]%nat (sample.notice ["k-b"; "k-a"])
              sample.twoDevices) as (_ & Hlen & _).
  - intro H. vm_compute in H. discriminate H.
  - reflexivity.
  - intro H. vm_compute in H. discriminate H.
  - exact Hlen.
Defined.


(** A broadcast to an unknown key on the sample store. *)
Lemma Broadcast_error_no_effect_witness :
  snd (fst (NoticeService.Broadcast (tables := sample.caseTables) sample.dispatcher
              sample.clock [] (sample.notice ["nope"]) sample.twoDevices))
  = sample.twoDevices.
Proof.
  apply (@Broadcast_error_no_effect sample.caseTables sample.dispatcher sample.clock []
           (sample.notice ["nope"]) sample.twoDevices
           (ErrorString "no target devices resolved")).
  reflexivity.
Defined.

(** ** Filtering, paging and counting the log *)

Section LogStatistics.
Import NoticeLogService.
Context {folds : FoldTables}.

Lemma insertNewest_perm (x : NoticeLog.t) (l : list NoticeLog.t) :
  Permutation (insertNewest x l) (x :: l).
Proof.
  induction l as [|y l IH]; simpl; [reflexivity|].
  destruct (NoticeLog.CreatedAt x <? NoticeLog.CreatedAt y); [|reflexivity].
  rewrite IH. apply perm_swap.
Qed.

Lemma insertNewest_sorted (x : NoticeLog.t) (l : list NoticeLog.t) :
  newestFirst l -> newestFirst (insertNewest x l).
Proof.
  unfold newestFirst. induction l as [|y l IH]; intro Hs; simpl.
  - constructor; constructor.
  - apply StronglySorted_inv in Hs. destruct Hs as [Hrest Hall].
    destruct (Z.ltb_spec (NoticeLog.CreatedAt x) (NoticeLog.CreatedAt y)) as [Hlt|Hge].
    + constructor; [apply IH; exact Hrest|].
      apply (Permutation_Forall (Permutation_sym (insertNewest_perm x l))).
      constructor; [lia | exact Hall].
    + constructor; [constructor; assumption|].
      constructor; [exact Hge|].
      eapply Forall_impl; [|exact Hall]. simpl. intros a Ha. lia.
Qed.

Lemma sortNewestFirst_sorted (l : list NoticeLog.t) :
  newestFirst (sortNewestFirst l) /\ Permutation (sortNewestFirst l) l.
Proof.
  induction l as [|x l [IHs IHp]]; simpl.
  - split; constructor.
  - split; [apply insertNewest_sorted; exact IHs|].
    rewrite insertNewest_perm. constructor. exact IHp.
Qed.

(** Property X9.  [filteredLogs] never fails; it returns the stored entries that pass
    the filter, each as often as it is stored, newest first.  The time
    bounds are inclusive, and the page fields of the filter play no role. *)
Theorem filteredLogs_sorted_selection (st : bolt.Store) (filter : NoticeLogFilter.t) :
  exists logs,
    filteredLogs st filter = Ok logs
    /\ Permutation logs (List.filter (passes filter) (map snd (bolt.notice_logs st)))
    /\ newestFirst logs
    /\ (forall log, In log logs <->
                    In log (map snd (bolt.notice_logs st)) /\ passes filter log = true)
    /\ (forall page size,
          filteredLogs st
            (NoticeLogFilter.mk (NoticeLogFilter.DeviceKey filter)
               (NoticeLogFilter.Group filter) (NoticeLogFilter.Status filter)
               (NoticeLogFilter.BeginTime filter) (NoticeLogFilter.EndTime filter)
               page size) = Ok logs).
Proof.
  unfold filteredLogs, bolt.ListNoticeLogs. simpl.
  set (keep := fun log : NoticeLog.t => _).
  assert (Hkeep : forall log, keep log = passes filter log).
  { intro log. unfold keep, passes.
    destruct (String.eqb (NoticeLogFilter.DeviceKey filter) ""),
             (EqualFold (NoticeLog.DeviceKey log) (NoticeLogFilter.DeviceKey filter)),
             (String.eqb (NoticeLogFilter.Group filter) ""),
             (EqualFold (NoticeLog.Group log) (NoticeLogFilter.Group filter)),
             (String.eqb (NoticeLogFilter.Status filter) ""),
             (EqualFold (NoticeLog.Status log) (NoticeLogFilter.Status filter));
      simpl; try reflexivity;
      destruct (NoticeLogFilter.BeginTime filter) as [b|],
               (NoticeLogFilter.EndTime filter) as [e|]; simpl;
      rewrite ?Z.leb_antisym; reflexivity. }
  eexists. split; [reflexivity|].
  rewrite (filter_ext _ _ Hkeep).
  destruct (sortNewestFirst_sorted
              (List.filter (passes filter) (map snd (bolt.notice_logs st))))
    as [Hs Hp].
  split; [exact Hp|]. split; [exact Hs|]. split; [|reflexivity].
  intro log. split.
  - intro H. apply (Permutation_in _ Hp) in H. apply filter_In in H. exact H.
  - intro H. apply (Permutation_in _ (Permutation_sym Hp)). apply filter_In. exact H.
Qed.

End LogStatistics.

Section LogPaging.
Import NoticeLogService.
Context {folds : FoldTables}.

Lemma firstn_skipn_chunk {A : Type} (l : list A) (a b : nat) :
  firstn a l ++ firstn b (skipn a l) = firstn (a + b) l.
Proof.
  revert l. induction a as [|a IH]; intros [|x l]; simpl; try reflexivity.
  - rewrite firstn_nil. reflexivity.
  - rewrite IH. reflexivity.
Qed.

Lemma chunks_concat {A : Type} (l : list A) (n k : nat) :
  List.concat (map (fun i => firstn n (skipn (i * n) l)) (seq 0 k)) = firstn (k * n) l.
Proof.
  induction k as [|k IH]; [reflexivity|].
  rewrite seq_S, map_app, concat_app, IH.
  replace (S k * n)%nat with (k * n + n)%nat by lia.
  cbn [map List.concat Nat.add]. rewrite app_nil_r.
  apply firstn_skipn_chunk.
Qed.

Lemma firstn_min_length {A : Type} (l : list A) (a : nat) :
  firstn (Nat.min a (List.length l)) l = firstn a l.
Proof.
  destruct (Nat.le_ge_cases a (List.length l)) as [H|H].
  - rewrite Nat.min_l by exact H. reflexivity.
  - rewrite Nat.min_r by exact H. rewrite !firstn_all2; auto.
Qed.

(** A page of [Query], while the page offset fits a machine integer: the
    [size] entries after the first [(p - 1) * size]. *)
Lemma Query_page (st : bolt.Store) (filter : NoticeLogFilter.t)
      (logs : list NoticeLog.t) (p : Z) :
  filteredLogs st filter = Ok logs ->
  let total := Z.of_nat (List.length logs) in
  let size := clampPageSize (NoticeLogFilter.PageSize filter) in
  total + 100 <= GoInt.MaxInt ->
  1 <= p <= GoInt.MaxInt ->
  (p - 1) * size <= GoInt.MaxInt ->
  Query st (withPage filter p)
  = Returns (Ok (NoticeLogPage.mk
                   (firstn (Z.to_nat size) (skipn (Z.to_nat ((p - 1) * size)) logs))
                   total ((total + size - 1) / size) p size)).
Proof.
  intros Hlogs total size Htotal Hp Hmul.
  pose proof (clampPageSize_bounds (NoticeLogFilter.PageSize filter)) as Hsize.
  fold size in Hsize.
  assert (Hlogs' : filteredLogs st (withPage filter p) = Ok logs) by exact Hlogs.
  destruct (@Query_in_range _ st (withPage filter p) logs Hlogs') as (HQ & _).
  - unfold GoInt.in_range, GoInt.MinInt, GoInt.MaxInt in *. simpl. lia.
  - exact Htotal.
  - simpl NoticeLogFilter.Page. simpl NoticeLogFilter.PageSize.
    rewrite (proj2 (clampPage_bounds p)) by lia. exact Hmul.
  - rewrite HQ. simpl NoticeLogFilter.Page. simpl NoticeLogFilter.PageSize.
    rewrite (proj2 (clampPage_bounds p)) by lia. fold size. fold total.
    do 3 f_equal.
    assert (H0 : 0 <= (p - 1) * size) by nia.
    destruct (Z.le_gt_cases ((p - 1) * size) total) as [Hin|Hout].
    + rewrite (Z.min_l ((p - 1) * size) total) by lia.
      rewrite <- (firstn_min_length (skipn _ logs) (Z.to_nat size)).
      f_equal. rewrite length_skipn. unfold total. lia.
    + rewrite (Z.min_r ((p - 1) * size) total) by lia.
      rewrite (Z.min_r (total + size) total) by lia.
      rewrite Z.sub_diag. simpl.
      rewrite (skipn_all2 logs) by (unfold total in Hout; lia).
      rewrite firstn_nil. reflexivity.
Qed.

(** Property X10.  The pages of a query make up the filtered log: for a filtered set
    whose size leaves the machine integers room, the pages 1 to [pages]
    return, one after the other, exactly the filtered entries in their
    order; each of them reports the same total and page count and holds at
    least one and at most [size] entries, and every later page is empty. *)
Theorem Query_pages_partition (st : bolt.Store) (filter : NoticeLogFilter.t)
        (logs : list NoticeLog.t) :
  filteredLogs st filter = Ok logs ->
  let total := Z.of_nat (List.length logs) in
  let size := clampPageSize (NoticeLogFilter.PageSize filter) in
  let pages := (total + size - 1) / size in
  total + 100 <= GoInt.MaxInt ->
  List.concat (map (fun p => pageData (Query st (withPage filter (Z.of_nat p))))
                   (seq 1 (Z.to_nat pages))) = logs
  /\ (forall p, 1 <= p <= pages ->
        exists page,
          Query st (withPage filter p) = Returns (Ok page)
          /\ NoticeLogPage.Total page = total
          /\ NoticeLogPage.Pages page = pages
          /\ NoticeLogPage.PageNum page = p
          /\ (1 <= List.length (NoticeLogPage.Data page) <= Z.to_nat size)%nat)
  /\ (forall p, pages < p <= GoInt.MaxInt -> (p - 1) * size <= GoInt.MaxInt ->
        exists page,
          Query st (withPage filter p) = Returns (Ok page)
          /\ NoticeLogPage.Data page = []).
Proof.
  intros Hlogs total size pages Htotal.
  pose proof (clampPageSize_bounds (NoticeLogFilter.PageSize filter)) as Hsize.
  fold size in Hsize.
  assert (Ht0 : 0 <= total) by (unfold total; lia).
  pose proof (Z.div_mod (total + size - 1) size ltac:(lia)) as Hdm.
  pose proof (Z.mod_pos_bound (total + size - 1) size ltac:(lia)) as Hmod.
  fold pages in Hdm.
  assert (Hpages : 0 <= pages /\ total <= pages * size /\ (pages - 1) * size < total
                   \/ total = 0 /\ pages = 0).
  { destruct (Z.eq_dec total 0) as [Hz|Hnz].
    - right. split; [exact Hz|]. unfold pages. rewrite Hz.
      apply Z.div_small. lia.
    - left. assert (0 <= pages) by (apply Z.div_pos; lia). nia. }
  assert (Hle : pages <= total) by (destruct Hpages as [H|H]; nia).
  unfold GoInt.MaxInt in *.
  assert (Hq : forall p, 1 <= p <= 2 ^ 63 - 1 -> (p - 1) * size <= 2 ^ 63 - 1 ->
                 Query st (withPage filter p)
                 = Returns (Ok (NoticeLogPage.mk
                                  (firstn (Z.to_nat size)
                                          (skipn (Z.to_nat ((p - 1) * size)) logs))
                                  total pages p size))).
  { intros p Hp Hmul. apply (@Query_page st filter logs p Hlogs); assumption. }
  split; [|split].
  - rewrite <- seq_shift, map_map.
    rewrite (map_ext_in _ (fun i => firstn (Z.to_nat size)
                                      (skipn (i * Z.to_nat size) logs))).
    + rewrite chunks_concat. apply firstn_all2.
      destruct Hpages as [H|[H1 H2]]; [|unfold total in H1; lia].
      unfold total in H. nia.
    + intros i Hi. apply in_seq in Hi.
      assert (Hi' : Z.of_nat i < pages) by lia.
      rewrite Hq; [| lia | nia]. cbn [pageData NoticeLogPage.Data].
      replace (Z.of_nat (S i) - 1) with (Z.of_nat i) by lia.
      rewrite Z2Nat.inj_mul, Nat2Z.id by lia. reflexivity.
  - intros p Hp. eexists. split; [apply Hq; [lia | nia]|].
    simpl. repeat split.
    + rewrite length_firstn, length_skipn.
      destruct Hpages as [H|H]; [|lia]. unfold total in H. nia.
    + rewrite length_firstn. lia.
  - intros p Hp Hmul. eexists. split; [apply Hq; [lia | exact Hmul]|].
    simpl. rewrite skipn_all2; [apply firstn_nil|].
    destruct Hpages as [H|H]; unfold total in H; nia.
Qed.

End LogPaging.

(** The 25 entries of the sample store in pages of 10. *)
Lemma Query_pages_partition_witness :
  List.concat
    (map (fun p => pageData (NoticeLogService.Query (folds := sample.foldTables)
                               sample.twentyFiveLogs
                               (withPage (sample.page 1 10) (Z.of_nat p))))
         [1; 2; 3]%nat)
  = map (fun n => sample.logAt (Z.of_nat n)) (seq 1 25).
Proof.
  apply (@Query_pages_partition sample.foldTables sample.twentyFiveLogs (sample.page 1 10)
           (map (fun n => sample.logAt (Z.of_nat n)) (seq 1 25))).
  - reflexivity.
  - vm_compute. discriminate.
Defined.

Section LogCounting.
Import NoticeLogService.
Context {folds : FoldTables}.

Lemma find_bump (key k : string) (counter : list (string * Z)) :
  find (fun kv => String.eqb (fst kv) k) (bump key counter)
  = if String.eqb key k then
      Some (key, match find (fun kv => String.eqb (fst kv) key) counter with
                 | Some kv => snd kv + 1
                 | None => 1
                 end)
    else find (fun kv => String.eqb (fst kv) k) counter.
Proof.
  induction counter as [|[k0 n0] rest IH]; simpl.
  - destruct (String.eqb key k); reflexivity.
  - destruct (String.eqb_spec key k0) as [->|Hne]; simpl.
    + rewrite String.eqb_refl. destruct (String.eqb k0 k); reflexivity.
    + rewrite IH.
      assert (Hne' : String.eqb k0 key = false)
        by (apply String.eqb_neq; congruence).
      rewrite Hne'.
      destruct (String.eqb_spec key k) as [->|Hk]; [|reflexivity].
      rewrite Hne'. reflexivity.
Qed.

Lemma keys_bump (key k : string) (counter : list (string * Z)) :
  In k (map fst (bump key counter)) -> k = key \/ In k (map fst counter).
Proof.
  induction counter as [|[k0 n0] rest IH]; simpl.
  - intros [H|[]]. left. symmetry. exact H.
  - destruct (String.eqb_spec key k0) as [->|Hne]; simpl.
    + intros [H|H]; [left; symmetry; exact H | right; right; exact H].
    + intros [H|H]; [right; left; exact H|].
      destruct (IH H) as [E|E]; [left; exact E | right; right; exact E].
Qed.

Lemma NoDup_bump (key : string) (counter : list (string * Z)) :
  NoDup (map fst counter) -> NoDup (map fst (bump key counter)).
Proof.
  induction counter as [|[k0 n0] rest IH]; simpl; intro H.
  - constructor; [intros [] | constructor].
  - inversion H as [|? ? Hnin Hrest]; subst.
    destruct (String.eqb_spec key k0) as [->|Hne]; simpl.
    + constructor; assumption.
    + constructor; [|apply IH; exact Hrest].
      intro Hin. apply keys_bump in Hin. destruct Hin as [E|E]; [congruence|contradiction].
Qed.

(** The counter after the loop over the entries: no key twice, and under
    each key the number of entries that fall under it. *)
Lemma counter_loop (keyOf : NoticeLog.t -> string) (logs done : list NoticeLog.t)
      (counter : list (string * Z)) :
  NoDup (map fst counter) ->
  (forall k, find (fun kv => String.eqb (fst kv) k) counter
             = if occurrences keyOf k done =? 0 then None
               else Some (k, occurrences keyOf k done)) ->
  let counter' := fold_left (fun c log => bump (keyOf log) c) logs counter in
  NoDup (map fst counter')
  /\ forall k, find (fun kv => String.eqb (fst kv) k) counter'
               = if occurrences keyOf k (done ++ logs) =? 0 then None
                 else Some (k, occurrences keyOf k (done ++ logs)).
Proof.
  revert done counter. induction logs as [|log logs IH]; intros done counter Hnd Hfind; simpl.
  - rewrite app_nil_r. split; assumption.
  - replace (done ++ log :: logs) with ((done ++ [log]) ++ logs)
      by (rewrite <- app_assoc; reflexivity).
    apply IH; [apply NoDup_bump; exact Hnd|].
    intro k. rewrite find_bump.
    unfold occurrences. rewrite filter_app, length_app.
    cbn [filter].
    destruct (String.eqb_spec (keyOf log) k) as [Heq|Hne].
    + rewrite Heq, Hfind. unfold occurrences.
      set (n := List.length (filter (fun x => String.eqb (keyOf x) k) done)).
      cbn [List.length].
      destruct (Z.eqb_spec (Z.of_nat (n + 1)) 0) as [E|_]; [lia|].
      destruct (Z.eqb_spec (Z.of_nat n) 0) as [E|E]; cbn [snd]; do 2 f_equal; lia.
    + rewrite Hfind. unfold occurrences.
      cbn [List.length]. rewrite Nat.add_0_r. reflexivity.
Qed.

Lemma find_In_NoDup (counter : list (string * Z)) (k : string) (n : Z) :
  NoDup (map fst counter) ->
  (In (k, n) counter <-> find (fun kv => String.eqb (fst kv) k) counter = Some (k, n)).
Proof.
  induction counter as [|[k0 n0] rest IH]; simpl; intro Hnd.
  - split; [intros [] | discriminate].
  - inversion Hnd as [|? ? Hnin Hrest]; subst.
    destruct (String.eqb_spec k0 k) as [->|Hne].
    + split.
      * intros [H|H]; [injection H as <-; reflexivity|].
        exfalso. apply Hnin. apply in_map_iff. exists (k, n). split; [reflexivity|exact H].
      * intro H. left. exact (f_equal (fun o => match o with Some x => x | None => (k, n0) end) H).
    + rewrite <- (IH Hrest). split.
      * intros [H|H]; [congruence | exact H].
      * intro H. right. exact H.
Qed.

Lemma insertRow_perm (r : row) (l : list row) : Permutation (insertRow r l) (r :: l).
Proof.
  induction l as [|r' l IH]; simpl; [reflexivity|].
  destruct (String.compare (value r) (value r')); try reflexivity.
  rewrite IH. apply perm_swap.
Qed.

Lemma insertRow_sorted (r : row) (l : list row) :
  StronglySorted (fun a b => String.compare (value a) (value b) = Lt) l ->
  ~ In (value r) (map value l) ->
  StronglySorted (fun a b => String.compare (value a) (value b) = Lt) (insertRow r l).
Proof.
  induction l as [|r' l IH]; intros Hs Hnin; simpl.
  - constructor; constructor.
  - apply StronglySorted_inv in Hs. destruct Hs as [Hrest Hall].
    destruct (String.compare (value r) (value r')) eqn:Hc.
    + exfalso. apply Hnin. left. symmetry. apply compare_Eq_iff. exact Hc.
    + constructor; [constructor; assumption|].
      constructor; [exact Hc|].
      eapply Forall_impl; [|exact Hall]. simpl. intros a Ha.
      eapply compare_trans; eassumption.
    + constructor.
      * apply IH; [exact Hrest|]. intro H. apply Hnin. right. exact H.
      * apply (Permutation_Forall (Permutation_sym (insertRow_perm r l))).
        constructor; [apply compare_Gt_Lt; exact Hc | exact Hall].
Qed.

Lemma mapToKV_sorted (counter : list (string * Z)) (key : string) :
  NoDup (map fst counter) ->
  StronglySorted (fun a b => String.compare (value a) (value b) = Lt) (mapToKV counter key)
  /\ Permutation (mapToKV counter key) (map (fun kv => mkRow key (fst kv) (snd kv)) counter).
Proof.
  unfold mapToKV. induction counter as [|[k n] rest IH]; simpl; intro Hnd.
  - split; constructor.
  - inversion Hnd as [|? ? Hnin Hrest]; subst.
    destruct (IH Hrest) as [IHs IHp].
    split.
    + apply insertRow_sorted; [exact IHs|]. simpl.
      intro H. apply Hnin.
      apply (Permutation_in _ (Permutation_map value IHp)) in H.
      rewrite map_map in H. simpl in H. exact H.
    + rewrite insertRow_perm. constructor. exact IHp.
Qed.

(** The rows of a statistic: what the loop over the entries and [mapToKV]
    make of a key function. *)
Lemma statistic_tallied (column : string) (keyOf : NoticeLog.t -> string)
      (logs : list NoticeLog.t) :
  tallied column keyOf logs
    (mapToKV (fold_left (fun c log => bump (keyOf log) c) logs []) column).
Proof.
  destruct (@counter_loop keyOf logs [] []) as [Hnd Hfind].
  { constructor. }
  { intro k. reflexivity. }
  simpl in Hnd, Hfind.
  destruct (@mapToKV_sorted _ column Hnd) as [Hs Hp].
  split; [exact Hs|].
  intro r. split.
  - intro Hin. apply (Permutation_in _ Hp) in Hin. apply in_map_iff in Hin.
    destruct Hin as ([k n] & <- & Hkn). simpl.
    apply (proj1 (@find_In_NoDup _ k n Hnd)) in Hkn. rewrite Hfind in Hkn.
    destruct (Z.eqb_spec (occurrences keyOf k logs) 0) as [E|E]; [discriminate|].
    injection Hkn as <-. split; [reflexivity|]. split; [reflexivity|].
    unfold occurrences in *. lia.
  - intros (Hcol & Hcount & Hpos).
    apply (Permutation_in _ (Permutation_sym Hp)). apply in_map_iff.
    exists (value r, count r). split; [destruct r; simpl in *; congruence|].
    apply (proj2 (@find_In_NoDup _ (value r) (count r) Hnd)). rewrite Hfind, <- Hcount.
    destruct (Z.eqb_spec (count r) 0); [lia | reflexivity].
Qed.

Lemma lookupName_displayName (devices : list Device.t) (key : string) :
  (let name :=
     lookupName
       (fold_left (fun deviceName d =>
                     let name := Device.Name d in
                     let name := if String.eqb name "" then Device.DeviceKey d else name in
                     (Device.DeviceKey d, name) :: deviceName) devices []) key in
   if String.eqb name "" then key else name)
  = displayName devices key.
Proof.
  assert (Hfold : forall acc,
             fold_left (fun deviceName d =>
                          let name := Device.Name d in
                          let name := if String.eqb name "" then Device.DeviceKey d else name in
                          (Device.DeviceKey d, name) :: deviceName) devices acc
             = map (fun d => (Device.DeviceKey d,
                              if String.eqb (Device.Name d) "" then Device.DeviceKey d
                              else Device.Name d)) (rev devices) ++ acc).
  { induction devices as [|d ds IH]; intro acc; simpl; [reflexivity|].
    rewrite IH, map_app, <- app_assoc. reflexivity. }
  rewrite Hfold, app_nil_r. clear Hfold. unfold lookupName, displayName. cbv zeta.
  generalize (rev devices). intro l.
  induction l as [|d ds IH]; simpl.
  - reflexivity.
  - destruct (String.eqb_spec (Device.DeviceKey d) key) as [<-|Hne]; [|exact IH].
    simpl. destruct (String.eqb_spec (Device.Name d) "") as [Hn|Hn].
    + destruct (String.eqb (Device.DeviceKey d) ""); reflexivity.
    + apply String.eqb_neq in Hn. rewrite Hn. reflexivity.
Qed.

(** Property X11.  The three statistics count every entry of the time range once, under
    its key: the status (UNKNOWN for none), the trimmed group (DEFAULT for
    none), the name of the device with the entry's key (the key itself for
    an unknown or unnamed device; no names at all without a device
    service).  The rows come in ascending order of the key, one row per
    key that occurs, and no statistic fails. *)
Theorem Count_statistics (s : NoticeLogService.t) (st : bolt.Store)
        (begin end_ : option Time) :
  exists logs,
    filteredLogs st (between begin end_) = Ok logs
    /\ (exists rows, CountByStatus st begin end_ = Ok rows
                     /\ tallied "status" statusKey logs rows)
    /\ (exists rows, CountByGroup st begin end_ = Ok rows
                     /\ tallied "group" groupKey logs rows)
    /\ (exists rows, CountByDevice s st begin end_ = Ok rows
                     /\ tallied "device"
                          (fun log =>
                             displayName (match deviceSvc s with
                                          | Some _ => map snd (bolt.devices st)
                                          | None => []
                                          end) (NoticeLog.DeviceKey log))
                          logs rows).
Proof.
  destruct (filteredLogs_total st (between begin end_)) as [logs Hlogs].
  exists logs. split; [exact Hlogs|].
  unfold CountByStatus, CountByGroup, CountByDevice. rewrite Hlogs. simpl.
  split; [|split].
  - eexists. split; [reflexivity|]. apply (statistic_tallied "status" statusKey).
  - eexists. split; [reflexivity|]. apply (statistic_tallied "group" groupKey).
  - eexists. split; [reflexivity|].
    set (devices := match deviceSvc s with
                    | Some _ => map snd (bolt.devices st)
                    | None => []
                    end).
    assert (Hk : forall log,
               (let name :=
                  lookupName
                    match deviceSvc s with
                    | Some _ =>
                      fold_left (fun deviceName d =>
                                   (Device.DeviceKey d,
                                    if String.eqb (Device.Name d) "" then Device.DeviceKey d
                                    else Device.Name d) :: deviceName)
                                (filter (fun _ => true) (map snd (bolt.devices st))) []
                    | None => []
                    end (NoticeLog.DeviceKey log) in
                if String.eqb name "" then NoticeLog.DeviceKey log else name)
               = displayName devices (NoticeLog.DeviceKey log)).
    { intro log. unfold devices. destruct (deviceSvc s).
      - rewrite <- lookupName_displayName.
        replace (filter (fun _ : Device.t => true) (map snd (bolt.devices st)))
          with (map snd (bolt.devices st)).
        + reflexivity.
        + induction (map snd (bolt.devices st)) as [|d ds IH]; simpl; congruence.
      - reflexivity. }
    match goal with
    | |- tallied _ _ _ (mapToKV (fold_left ?f logs []) _) =>
      replace (fold_left f logs [])
        with (fold_left (fun c log => bump (displayName devices (NoticeLog.DeviceKey log)) c)
                        logs [])
    end.
    + apply (statistic_tallied "device"
               (fun log => displayName devices (NoticeLog.DeviceKey log))).
    + clear Hlogs. generalize (@nil (string * Z)).
      induction logs as [|log logs IH]; intro acc; simpl; [reflexivity|].
      rewrite <- Hk. apply IH.
Qed.

End LogCounting.

(** ** The device registry, further *)

Section RegistryFurther.
Import DeviceService.
Context {tables : unicode.CaseTables}.

Lemma GenerateString_enough (n : Z) (rnd : list Z) :
  0 < n -> (Z.to_nat n <= List.length rnd)%nat ->
  exists g,
    crypto.GenerateString n rnd = (Ok g, skipn (Z.to_nat n) rnd)
    /\ len g = n
    /\ forall c, In c (list_ascii_of_string g) ->
                 In c (list_ascii_of_string crypto.letters).
Proof.
  intros Hn Hlen. unfold crypto.GenerateString.
  destruct (Z.leb_spec n 0); [lia|].
  destruct (Nat.ltb_spec (List.length rnd) (Z.to_nat n)); [lia|].
  eexists. split; [reflexivity|]. split.
  - unfold len. rewrite length_string_of_list_ascii, length_map, length_firstn. lia.
  - intros c Hc. rewrite list_ascii_of_string_of_list_ascii in Hc.
    apply in_map_iff in Hc. destruct Hc as (b & <- & _). apply letter_in_letters.
Qed.

Lemma len_nonempty (s : string) : 0 < len s -> String.eqb s "" = false.
Proof.
  intro H. apply String.eqb_neq. intros ->. unfold len in H. simpl in H. lia.
Qed.

Lemma TrimSpace_nonblank (s : string) : strings.TrimSpace s <> "" -> s <> "".
Proof. intros H ->. apply H. reflexivity. Qed.

(** Property X12.  How [Upsert] ends.  With an error, the store is the one it was given.
    With a device, the device has a delivery key, a secret of 16, 24 or 32
    bytes and an iv of the configured length, and carries the time of the
    write; the log bucket is untouched.  When the configured iv length is
    the 16 bytes of an AES block, the payload of a broadcast can be
    encrypted for the device. *)
Theorem Upsert_outcome (s : t) (req : DeviceRequest.t) (now : Time)
        (st : bolt.Store) (rnd : list Z) :
  (forall e, fst (fst (Upsert s req now st rnd)) = Err e ->
             snd (fst (Upsert s req now st rnd)) = st)
  /\ (forall dev, fst (fst (Upsert s req now st rnd)) = Ok dev ->
        Device.DeviceKey dev <> ""
        /\ isValidKeyLength (Device.EncodeKey dev) = true
        /\ len (Device.IV dev) = config.IVBytes (cfg s)
        /\ Device.UpdatedAt dev = now
        /\ bolt.notice_logs (snd (fst (Upsert s req now st rnd))) = bolt.notice_logs st
        /\ bolt.sequence (snd (fst (Upsert s req now st rnd))) = bolt.sequence st
        /\ (config.IVBytes (cfg s) = 16 ->
            encryptable dev = true
            /\ forall payload, exists ct, NoticeService.encryptPayload payload dev = Ok ct)).
Proof.
  destruct (Upsert s req now st rnd) as [[r st'] rnd'] eqn:HU. simpl.
  apply Upsert_inv in HU.
  destruct HU as [(e & -> & ->) | (loaded & merged & registered & dev & -> & _ & _ & _
                                   & Hvalid & Hiv & Hreg & Hput)].
  - split; [reflexivity | discriminate].
  - split; [discriminate|]. intros d Hd. injection Hd as <-.
    apply Upsert_register_inv in Hreg.
    destruct Hreg as (_ & _ & _ & _ & Hk & Hi & Hkey & _).
    pose proof (UpsertDevice_fields _ _ _ Hput) as (_ & Hdk & _ & Hek & Hdiv & _).
    apply UpsertDevice_inv in Hput.
    destruct Hput as (Hdev & _ & Hlogs & Hseq & _).
    assert (Hv : isValidKeyLength (Device.EncodeKey dev) = true) by congruence.
    assert (Hl : len (Device.IV dev) = config.IVBytes (cfg s)) by congruence.
    split; [congruence|]. split; [exact Hv|]. split; [exact Hl|].
    split; [rewrite Hdev; reflexivity|]. split; [exact Hlogs|]. split; [exact Hseq|].
    intro H16.
    assert (He : encryptable dev = true).
    { unfold encryptable. rewrite Hv, Hl, H16. reflexivity. }
    split; [exact He|]. intro payload.
    apply (proj1 (encryptPayload_encryptable payload dev) He).
Qed.


(** Property X14.  [GenerateConfig] refuses a blank name and a blank delivery key before
    anything is read or written.  Past that check it never asks the
    upstream service: two services with the same configuration behave
    alike whatever their clients are.  A device it returns has the name
    and the delivery key of the request. *)
Theorem GenerateConfig_contract (s : t) (req : DeviceRequest.t) (now : Time)
        (st : bolt.Store) (rnd : list Z) :
  (strings.TrimSpace (DeviceRequest.Name req) = ""
   \/ strings.TrimSpace (DeviceRequest.DeviceKey req) = "" ->
   exists e, GenerateConfig s req now st rnd = (Err e, st, rnd))
  /\ (forall s', cfg s' = cfg s ->
        GenerateConfig s' req now st rnd = GenerateConfig s req now st rnd)
  /\ (forall dev, fst (fst (GenerateConfig s req now st rnd)) = Ok dev ->
        Device.Name dev = DeviceRequest.Name req
        /\ Device.DeviceKey dev = DeviceRequest.DeviceKey req).
Proof.
  unfold GenerateConfig.
  destruct (String.eqb_spec (strings.TrimSpace (DeviceRequest.Name req)) "") as [Hn|Hn].
  { split; [eauto|]. split; [reflexivity|]. intros dev H. discriminate H. }
  destruct (String.eqb_spec (strings.TrimSpace (DeviceRequest.DeviceKey req)) "") as [Hk|Hk].
  { split; [eauto|]. split; [reflexivity|]. intros dev H. discriminate H. }
  assert (Hkey : String.eqb (DeviceRequest.DeviceKey req) "" = false).
  { apply String.eqb_neq. apply TrimSpace_nonblank. exact Hk. }
  assert (Hreg : forall s0 loaded merged rnd',
             Upsert_merge s0 req loaded rnd = (Ok merged, rnd') ->
             Device.DeviceKey merged = DeviceRequest.DeviceKey req
             /\ Upsert_register s0 req merged = Ok merged).
  { intros s0 loaded merged rnd' Hm.
    apply Upsert_merge_inv in Hm. destruct Hm as (_ & _ & _ & _ & Hdk & _).
    rewrite Hkey in Hdk. split; [exact Hdk|].
    unfold Upsert_register. rewrite Hdk, Hkey. reflexivity. }
  split; [intros [H|H]; contradiction|]. split.
  - intros s' Hcfg. unfold Upsert.
    destruct (String.eqb (strings.TrimSpace (DeviceRequest.DeviceToken req)) "");
      [reflexivity|].
    destruct (Upsert_load st req) as [loaded|e]; [|reflexivity].
    assert (Hm : Upsert_merge s' req loaded rnd = Upsert_merge s req loaded rnd).
    { unfold Upsert_merge. rewrite Hcfg. reflexivity. }
    rewrite Hm, Hcfg.
    destruct (Upsert_merge s req loaded rnd) as [[merged|e] rnd'] eqn:Hmerge; [|reflexivity].
    destruct (negb (isValidKeyLength (Device.EncodeKey merged))); [reflexivity|].
    destruct (negb (len (Device.IV merged) =? config.IVBytes (cfg s))); [reflexivity|].
    assert (Hs : Upsert_merge s req loaded rnd = (Ok merged, rnd')) by congruence.
    assert (Hs' : Upsert_merge s' req loaded rnd = (Ok merged, rnd')) by congruence.
    rewrite (proj2 (Hreg s _ _ _ Hs)), (proj2 (Hreg s' _ _ _ Hs')). reflexivity.
  - intros dev Hdev.
    destruct (Upsert s req now st rnd) as [[r st'] rnd'] eqn:HU. simpl in Hdev. subst r.
    apply Upsert_inv in HU.
    destruct HU as [(e & He & _) | (loaded & merged & registered & d & Hd & _ & _ & Hmerge
                                    & _ & _ & Hr & Hput)]; [discriminate He|].
    injection Hd as <-.
    destruct (Hreg s _ _ _ Hmerge) as [Hdk Hr']. rewrite Hr' in Hr. injection Hr as <-.
    apply Upsert_merge_inv in Hmerge. destruct Hmerge as (_ & _ & Hname & _).
    pose proof (UpsertDevice_fields _ _ _ Hput) as (_ & Hk' & Hn' & _).
    split; congruence.
Qed.

End RegistryFurther.


(** A request with a secret of five bytes, and a request that creates a
    device. *)
Lemma Upsert_outcome_witness :
  snd (fst (DeviceService.Upsert (tables := sample.caseTables) sample.registry
              sample.shortSecret 5 sample.twoDevices sample.rnd)) = sample.twoDevices
  /\ encryptable (sample.created "ACTIVE") = true.
Proof.
  split.
  - apply (proj1 (@Upsert_outcome sample.caseTables sample.registry sample.shortSecret 5
                    sample.twoDevices sample.rnd)
                 (ErrorString "encodeKey must be 16, 24 or 32 characters")).
    reflexivity.
  - apply (proj2 (@Upsert_outcome sample.caseTables sample.registry
                    (sample.request "tok-c" "k-c" "Phone C" "") 5 bolt.empty sample.rnd)
                 (sample.created "ACTIVE")).
    + vm_compute. reflexivity.
    + reflexivity.
Defined.

(** A request without a name; and the sample request, served alike with
    and without an upstream client. *)
Lemma GenerateConfig_contract_witness :
  (exists e, DeviceService.GenerateConfig (tables := sample.caseTables) sample.registry
               (sample.request "tok-c" "k-c" " " "") 5 bolt.empty sample.rnd
             = (Err e, bolt.empty, sample.rnd))
  /\ DeviceService.GenerateConfig (tables := sample.caseTables)
       (DeviceService.mk config.defaults None)
       (sample.request "tok-c" "k-c" "Phone C" "") 5 bolt.empty sample.rnd
     = DeviceService.GenerateConfig (tables := sample.caseTables) sample.registry
         (sample.request "tok-c" "k-c" "Phone C" "") 5 bolt.empty sample.rnd.
Proof.
  split.
  - apply (proj1 (@GenerateConfig_contract sample.caseTables sample.registry
                    (sample.request "tok-c" "k-c" " " "") 5 bolt.empty sample.rnd)).
    left. reflexivity.
  - apply (proj1 (proj2 (@GenerateConfig_contract sample.caseTables sample.registry
                           (sample.request "tok-c" "k-c" "Phone C" "") 5 bolt.empty
                           sample.rnd))).
    reflexivity.
Defined.

Section RegistryStatus.
Import DeviceService.
Context {tables : unicode.CaseTables}.

(** Property X15.  [UpdateStatus] fails with [ErrNotFound] on an empty device bucket, and
    a failure leaves the store as it was.  When it succeeds, the record it
    changed is the one [GetDevice] answered with; that record keeps its
    token, key, name, secret and iv, gets the time of the write, and its
    status is the requested one, trimmed and in upper case, or ACTIVE when
    that is empty: never the empty string.  The record is written back
    under its own token and the log bucket is untouched. *)
Theorem UpdateStatus_contract (token status : string) (now : Time) (st : bolt.Store) :
  (bolt.devices st = [] -> UpdateStatus token status now st = (Err ErrNotFound, st))
  /\ (forall e, fst (UpdateStatus token status now st) = Err e ->
                snd (UpdateStatus token status now st) = st)
  /\ (forall dev, fst (UpdateStatus token status now st) = Ok dev ->
        exists loaded,
          bolt.GetDevice st token = Ok loaded
          /\ Device.Status dev
             = (if String.eqb (strings.ToUpper (strings.TrimSpace status)) ""
                then DeviceStatusActive
                else strings.ToUpper (strings.TrimSpace status))
          /\ Device.Status dev <> ""
          /\ Device.DeviceToken dev = Device.DeviceToken loaded
          /\ Device.DeviceKey dev = Device.DeviceKey loaded
          /\ Device.Name dev = Device.Name loaded
          /\ Device.EncodeKey dev = Device.EncodeKey loaded
          /\ Device.IV dev = Device.IV loaded
          /\ Device.UpdatedAt dev = now
          /\ bolt.Get (Device.DeviceToken dev)
                      (bolt.devices (snd (UpdateStatus token status now st))) = Some dev
          /\ bolt.notice_logs (snd (UpdateStatus token status now st))
             = bolt.notice_logs st).
Proof.
  unfold UpdateStatus. rewrite GetDevice_first.
  destruct (bolt.devices st) as [|[k loaded] rest] eqn:Hd.
  { split; [reflexivity|]. split; [reflexivity|]. intros dev H. discriminate H. }
  cbn [snd].
  set (upper := strings.ToUpper (strings.TrimSpace status)).
  set (changed := if String.eqb (Device.Status (Device.set_Status loaded upper)) ""
                  then Device.set_Status (Device.set_Status loaded upper) DeviceStatusActive
                  else Device.set_Status loaded upper).
  assert (Hc : Device.Status changed
               = (if String.eqb upper "" then DeviceStatusActive else upper)
               /\ Device.DeviceToken changed = Device.DeviceToken loaded
               /\ Device.DeviceKey changed = Device.DeviceKey loaded
               /\ Device.Name changed = Device.Name loaded
               /\ Device.EncodeKey changed = Device.EncodeKey loaded
               /\ Device.IV changed = Device.IV loaded).
  { unfold changed. cbn [Device.Status Device.set_Status].
    destruct (String.eqb upper ""); repeat split. }
  clearbody changed. destruct Hc as (Hs & Ht & Hk & Hn & He & Hi).
  destruct (bolt.UpsertDevice now changed st) as [[dev st']|e] eqn:Hput; cbn [fst snd].
  - split; [discriminate|]. split; [discriminate|].
    intros d H. injection H as <-.
    pose proof (UpsertDevice_fields _ _ _ Hput) as (Ft & Fk & Fn & Fe & Fi & Fs).
    apply UpsertDevice_inv in Hput. destruct Hput as (Hdev & Hdevs & Hlogs & _).
    exists loaded. split; [reflexivity|].
    split; [congruence|]. split.
    { rewrite Fs, Hs. destruct (String.eqb_spec upper ""); [discriminate | assumption]. }
    split; [congruence|]. split; [congruence|]. split; [congruence|].
    split; [congruence|]. split; [congruence|].
    split; [rewrite Hdev; reflexivity|].
    split; [|exact Hlogs].
    rewrite Hdevs, Get_insert, String.eqb_refl. reflexivity.
  - split; [discriminate|]. split; [reflexivity|]. intros d H. discriminate H.
Qed.

(** Property X16.  [RegisterDevice] passes the upstream's answer on.  Without a client or
    with a blank token it fails before asking, and no failure and no
    answer without a delivery key changes the store.  An answer with a
    delivery key is cached: the record [GetDevice] answers with (a fresh
    one for the answer's token on an empty bucket) gets the key, keeps a
    status that is not empty (ACTIVE in place of none), and is written
    under its own token; the log bucket is untouched. *)
Theorem RegisterDevice_contract (s : t) (deviceToken key : string) (now : Time)
        (st : bolt.Store) :
  (bark s = None \/ strings.TrimSpace deviceToken = "" ->
   exists e, RegisterDevice s deviceToken key now st = (Err e, st))
  /\ (forall e, fst (RegisterDevice s deviceToken key now st) = Err e ->
                snd (RegisterDevice s deviceToken key now st) = st)
  /\ (fst (RegisterDevice s deviceToken key now st) = Ok None ->
      snd (RegisterDevice s deviceToken key now st) = st)
  /\ (forall resp, fst (RegisterDevice s deviceToken key now st) = Ok (Some resp) ->
        (exists client, bark s = Some client
                        /\ barkclient.Register client deviceToken key = Ok (Some resp))
        /\ (barkclient.DeviceKey (barkclient.Data resp) = "" ->
            snd (RegisterDevice s deviceToken key now st) = st)
        /\ (barkclient.DeviceKey (barkclient.Data resp) <> "" ->
            exists dev,
              bolt.Get (Device.DeviceToken dev)
                       (bolt.devices (snd (RegisterDevice s deviceToken key now st)))
              = Some dev
              /\ Device.DeviceKey dev = barkclient.DeviceKey (barkclient.Data resp)
              /\ Device.Status dev <> ""
              /\ Device.DeviceToken dev
                 = match bolt.devices st with
                   | [] => barkclient.DeviceToken (barkclient.Data resp)
                   | kv :: _ => Device.DeviceToken (snd kv)
                   end
              /\ bolt.notice_logs (snd (RegisterDevice s deviceToken key now st))
                 = bolt.notice_logs st)).
Proof.
  unfold RegisterDevice.
  destruct (bark s) as [client|].
  2:{ split; [eauto|]. split; [reflexivity|]. split; [discriminate|].
      intros resp H. discriminate H. }
  destruct (String.eqb_spec (strings.TrimSpace deviceToken) "") as [Hb|Hb].
  { split; [eauto|]. split; [reflexivity|]. split; [discriminate|].
    intros resp H. discriminate H. }
  split; [intros [H|H]; [discriminate H | contradiction]|].
  destruct (barkclient.Register client deviceToken key) as [[resp|]|e] eqn:Hreg.
  3:{ split; [reflexivity|]. split; [discriminate|]. intros resp H. discriminate H. }
  2:{ split; [reflexivity|]. split; [reflexivity|]. intros resp H. discriminate H. }
  destruct (String.eqb_spec (barkclient.DeviceKey (barkclient.Data resp)) "") as [Hk|Hk].
  { split; [reflexivity|]. split; [discriminate|].
    intros r H. injection H as <-. split; [eauto|]. split; [reflexivity|].
    intro Hne. contradiction. }
  rewrite GetDevice_first.
  set (loaded := match bolt.devices st with
                 | [] => Device.new (barkclient.DeviceToken (barkclient.Data resp))
                 | kv :: _ => snd kv
                 end).
  assert (Hload : match
                    match bolt.devices st with
                    | [] => Err ErrNotFound
                    | kv :: _ => Ok (snd kv)
                    end
                  with
                  | Ok device => Ok device
                  | Err err =>
                    if negb (error_eqb err ErrNotFound) then Err err
                    else Ok (Device.new (barkclient.DeviceToken (barkclient.Data resp)))
                  end = Ok loaded).
  { unfold loaded. destruct (bolt.devices st); reflexivity. }
  rewrite Hload.
  assert (Htok : Device.DeviceToken loaded
                 = match bolt.devices st with
                   | [] => barkclient.DeviceToken (barkclient.Data resp)
                   | kv :: _ => Device.DeviceToken (snd kv)
                   end).
  { unfold loaded. destruct (bolt.devices st); reflexivity. }
  clearbody loaded. clear Hload.
  set (keyOf := barkclient.DeviceKey (barkclient.Data resp)) in *.
  set (changed := if String.eqb (Device.Status (Device.set_DeviceKey loaded keyOf)) ""
                  then Device.set_Status (Device.set_DeviceKey loaded keyOf)
                                         DeviceStatusActive
                  else Device.set_DeviceKey loaded keyOf).
  assert (Hc : Device.Status changed <> ""
               /\ Device.DeviceToken changed = Device.DeviceToken loaded
               /\ Device.DeviceKey changed = keyOf).
  { unfold changed. cbn [Device.Status Device.set_DeviceKey].
    destruct (String.eqb_spec (Device.Status loaded) "") as [E|E].
    - repeat split. discriminate.
    - repeat split. exact E. }
  clearbody changed. destruct Hc as (Hs & Ht & Hdk).
  destruct (bolt.UpsertDevice now changed st) as [[dev st']|e] eqn:Hput; cbn [fst snd].
  - split; [discriminate|]. split; [discriminate|].
    intros r H. injection H as <-. split; [eauto|].
    split; [intro; contradiction|]. intros _.
    pose proof (UpsertDevice_fields _ _ _ Hput) as (Ft & Fk & _ & _ & _ & Fs).
    apply UpsertDevice_inv in Hput. destruct Hput as (_ & Hdevs & Hlogs & _).
    exists dev. split; [rewrite Hdevs, Get_insert, String.eqb_refl; reflexivity|].
    split; [rewrite Fk, Hdk; reflexivity|].
    split; [congruence|]. split; [congruence | exact Hlogs].
  - split; [reflexivity|]. split; [discriminate|]. intros r H. discriminate H.
Qed.

End RegistryStatus.

(** The second device of the sample store is named, the first is stopped. *)
Lemma UpdateStatus_contract_witness :
  exists dev,
    fst (DeviceService.UpdateStatus (tables := sample.caseTables) "tok-b" " stop " 7
           sample.twoDevices) = Ok dev
    /\ Device.DeviceToken dev = "tok-a" /\ Device.Status dev = "STOP".
Proof.
  eexists. split; [reflexivity|].
  destruct (proj2 (proj2 (@UpdateStatus_contract sample.caseTables "tok-b" " stop " 7
                            sample.twoDevices)) _ eq_refl)
    as (loaded & Hload & Hs & _ & Ht & _).
  injection Hload as <-. split; [exact Ht | exact Hs].
Defined.

(** Registration of a new token on the empty store. *)
Lemma RegisterDevice_contract_witness :
  exists dev,
    bolt.Get "tok-n"
      (bolt.devices (snd (DeviceService.RegisterDevice sample.registry "tok-n" "" 7
                            bolt.empty))) = Some dev
    /\ Device.DeviceKey dev = "K-tok-n".
Proof.
  destruct (proj2 (proj2 (proj2 (RegisterDevice_contract sample.registry "tok-n" "" 7
                                   bolt.empty))) _ eq_refl)
    as (_ & _ & H).
  destruct H as (dev & Hget & Hk & _ & Ht & _); [discriminate|].
  exists dev. simpl in Ht. rewrite Ht in Hget. split; [exact Hget | exact Hk].
Defined.

(** ** Masked views *)

Lemma DecodeRune_ascii (c : Z) (rest : list Z) :
  c < 128 -> utf8.DecodeRune (c :: rest) = (c, 1%nat).
Proof.
  intro H. unfold utf8.DecodeRune.
  destruct (Z.ltb_spec c 128); [reflexivity | lia].
Qed.

Lemma runes_fuel_ascii (fuel : nat) (p : list Z) :
  strings.isASCII p = true -> (List.length p <= fuel)%nat -> utf8.runes_fuel fuel p = p.
Proof.
  revert p. induction fuel as [|fuel IH]; intros [|c rest] Ha Hlen; simpl in Hlen;
    try reflexivity; try lia.
  unfold strings.isASCII in Ha. simpl in Ha. apply andb_prop in Ha.
  destruct Ha as [Hc Hrest]. apply Z.ltb_lt in Hc. unfold utf8.RuneSelf in Hc.
  cbn [utf8.runes_fuel]. rewrite DecodeRune_ascii by exact Hc.
  cbn [skipn]. rewrite IH; [reflexivity | exact Hrest | lia].
Qed.

Lemma Z_of_ascii_range (c : ascii) : 0 <= Z_of_ascii c < 256.
Proof.
  unfold Z_of_ascii. pose proof (N_ascii_bounded c) as H. lia.
Qed.

Lemma string_of_bytes_of_string (s : string) : string_of_bytes (bytes_of_string s) = s.
Proof.
  unfold string_of_bytes, bytes_of_string. rewrite map_map.
  rewrite (map_ext _ (fun c => c)).
  - rewrite map_id. apply string_of_list_ascii_of_string.
  - intro c. unfold ascii_of_Z. rewrite Z.mod_small by apply Z_of_ascii_range.
    unfold Z_of_ascii. rewrite N2Z.id. apply ascii_N_embedding.
Qed.

Lemma flat_map_EncodeRune_ascii (l : list Z) :
  Forall (fun c => 0 <= c < 128) l -> flat_map utf8.EncodeRune l = l.
Proof.
  induction 1 as [|c l Hc Hl IH]; [reflexivity|].
  cbn [flat_map]. rewrite IH. unfold utf8.EncodeRune, utf8.between.
  destruct (Z.leb_spec 0 c); [|lia]. destruct (Z.leb_spec c 127); [|lia]. reflexivity.
Qed.

Lemma string_of_bytes_app (a b : list Z) :
  string_of_bytes (a ++ b) = (string_of_bytes a ++ string_of_bytes b)%string.
Proof.
  unfold string_of_bytes. rewrite map_app.
  induction (map ascii_of_Z a) as [|x l IH]; simpl; congruence.
Qed.

Lemma length_string_of_bytes (l : list Z) :
  String.length (string_of_bytes l) = List.length l.
Proof.
  unfold string_of_bytes. rewrite length_string_of_list_ascii, length_map. reflexivity.
Qed.

(** Property X19.  [maskValue] on a value that is ASCII once trimmed: a value of at most
    four characters is shown as it is; of a longer one the first four
    characters are shown and every other one is replaced by a star, so
    that the masked value is as long as the trimmed one. *)
Theorem maskValue_ascii (value : string) :
  let v := strings.TrimSpace value in
  let p := bytes_of_string v in
  strings.isASCII p = true ->
  ((List.length p <= 4)%nat -> DeviceService.maskValue value = v)
  /\ ((4 < List.length p)%nat ->
      DeviceService.maskValue value
      = string_of_bytes (firstn 4 p ++ repeat 42 (List.length p - 4)))
  /\ String.length (DeviceService.maskValue value) = String.length v.
Proof.
  intros v p Ha.
  assert (Hp : Forall (fun c => 0 <= c < 128) p).
  { apply Forall_forall. intros c Hc. split.
    - unfold p, bytes_of_string in Hc. apply in_map_iff in Hc.
      destruct Hc as (a & <- & _). apply Z_of_ascii_range.
    - unfold strings.isASCII in Ha. rewrite forallb_forall in Ha.
      apply Z.ltb_lt. apply (Ha c Hc). }
  assert (Hlen : String.length v = List.length p).
  { unfold p, bytes_of_string. rewrite length_map.
    clear. induction v as [|c v IH]; simpl; congruence. }
  assert (Hmask : DeviceService.maskValue value
                  = if (List.length p <=? 4)%nat then v
                    else string_of_bytes (firstn 4 p ++ repeat 42 (List.length p - 4))).
  { unfold DeviceService.maskValue. fold v. fold p.
    unfold utf8.runes. rewrite runes_fuel_ascii by (try exact Ha; lia).
    destruct (String.eqb_spec v "") as [Hv|Hv].
    - rewrite Hv in Hlen. simpl in Hlen. rewrite <- Hlen. reflexivity.
    - destruct (Z.leb_spec (Z.of_nat (List.length p)) 4) as [H4|H4].
      + destruct (Nat.leb_spec (List.length p) 4); [reflexivity | lia].
      + destruct (Nat.leb_spec (List.length p) 4); [lia|].
        rewrite <- string_of_bytes_app.
        rewrite !flat_map_EncodeRune_ascii.
        * do 3 f_equal. lia.
        * apply Forall_forall. intros c Hc. apply repeat_spec in Hc. lia.
        * apply Forall_forall. intros c Hc. apply (proj1 (Forall_forall _ _) Hp).
          rewrite <- (firstn_skipn 4 p). apply in_or_app. left. exact Hc. }
  rewrite Hmask. split; [|split].
  - intro H. destruct (Nat.leb_spec (List.length p) 4); [reflexivity | lia].
  - intro H. destruct (Nat.leb_spec (List.length p) 4); [lia | reflexivity].
  - destruct (Nat.leb_spec (List.length p) 4); [reflexivity|].
    rewrite length_string_of_bytes, length_app, length_firstn, repeat_length. lia.
Qed.

(** A secret of 32 characters, masked. *)
Lemma maskValue_ascii_witness :
  DeviceService.maskValue sample.key32 = "0123****************************".
Proof.
  destruct (@maskValue_ascii sample.key32) as (_ & H & _).
  - reflexivity.
  - rewrite H; [reflexivity | simpl; lia].
Defined.

(** ** One device at most *)

Section SingleDevice.
Import DeviceService.
Context {tables : unicode.CaseTables}.

(** Property X18.  [firstNonEmpty] returns, untrimmed, the first of its arguments that is
    not blank, and the empty string when all of them are blank. *)
Theorem firstNonEmpty_first (values : list string) :
  (Forall (fun v => strings.TrimSpace v = "") values -> firstNonEmpty values = "")
  /\ (forall before v after,
        values = before ++ v :: after ->
        Forall (fun b => strings.TrimSpace b = "") before ->
        strings.TrimSpace v <> "" ->
        firstNonEmpty values = v).
Proof.
  split.
  - induction 1 as [|v rest Hv Hrest IH]; simpl; [reflexivity|].
    rewrite Hv. simpl. exact IH.
  - intros before v after -> Hbefore Hv.
    induction Hbefore as [|b rest Hb Hrest IH]; simpl.
    + apply eqb_empty_false in Hv. rewrite Hv. reflexivity.
    + rewrite Hb. simpl. exact IH.
Qed.

Lemma appendLog_devices (client : barkclient.Client) (now : Time) (d : Device.t)
      (req : NoticeRequest.t) (status result : string) (st : bolt.Store) :
  bolt.devices (NoticeService.appendLog client now d req status result st)
  = bolt.devices st.
Proof.
  unfold NoticeService.appendLog, bolt.AppendNoticeLog.
  match goal with |- context [bolt.Put ?k ?v ?b] => destruct (bolt.Put k v b) end;
    reflexivity.
Qed.

Lemma run_devices (client : barkclient.Client) (clock : nat -> Time)
      (req : NoticeRequest.t) (payload : list (string * string))
      (schedule : list nat) (sh : NoticeService.shared) :
  bolt.devices (NoticeService.store (NoticeService.run client clock req payload schedule sh))
  = bolt.devices (NoticeService.store sh).
Proof.
  revert sh. induction schedule as [|i rest IH]; intro sh; simpl; [reflexivity|].
  rewrite IH. unfold NoticeService.step.
  destruct (nth_error (NoticeService.routines sh) i) as [g|]; [|reflexivity].
  destruct (NoticeService.at_phase g) as [| r | r |];
    [destruct (NoticeService.attempt client payload (NoticeService.device g));
     reflexivity
    | cbn [NoticeService.store]; apply appendLog_devices
    | reflexivity
    | reflexivity].
Qed.

Lemma UpsertDevice_single (now : Time) (d dev : Device.t) (st st' : bolt.Store) :
  keyed (bolt.devices st) ->
  (List.length (bolt.devices st) <= 1)%nat ->
  (forall kv rest, bolt.devices st = kv :: rest ->
                   Device.DeviceToken d = Device.DeviceToken (snd kv)) ->
  bolt.UpsertDevice now d st = Ok (dev, st') ->
  keyed (bolt.devices st') /\ (List.length (bolt.devices st') <= 1)%nat.
Proof.
  intros Hkeyed Hlen Htok Hput.
  pose proof (UpsertDevice_fields _ _ _ Hput) as (Ft & _).
  apply UpsertDevice_inv in Hput. destruct Hput as (_ & Hdevs & _).
  rewrite Hdevs. split; [apply keyed_insert; exact Hkeyed|].
  destruct (bolt.devices st) as [|[k first] [|kv rest]] eqn:Hd; simpl in Hlen; try lia.
  - simpl. lia.
  - inversion Hkeyed as [|? ? Hk _]; subst. simpl in Hk.
    rewrite Ft, (Htok _ _ eq_refl). simpl. rewrite Hk, compare_refl. simpl. lia.
Qed.


End SingleDevice.


(** The default algorithm stands in for a blank one. *)
Lemma firstNonEmpty_first_witness :
  DeviceService.firstNonEmpty ["  "; "AES"; "DES"] = "AES".
Proof.
  apply (proj2 (firstNonEmpty_first ["  "; "AES"; "DES"]) ["  "] "AES" ["DES"]).
  - reflexivity.
  - constructor; [reflexivity | constructor].
  - discriminate.
Defined.
